(** * Asynchronous control flow of [practice/script.js] and of the guide

    The script simulates remote calls with [setTimeout] and composes them
    with promises and [async]/[await].  The development below gives the
    script (and the guide's [Promise.all] and nested try/catch examples) a
    shallow embedding: JavaScript values are a small inductive type,
    function bodies are terms of a continuation monad with three exits
    (fall through, [throw], [return]), and the runtime is a single-threaded
    event loop with a timer list, a job (microtask) queue, a promise table
    and a heap of cells. *)

From Stdlib Require Import ZArith String List Lia Permutation.
From Stdlib Require Import Sorted.
From stdpp Require Import base list pretty.

Set Warnings "-register-all".
Open Scope string_scope.
Open Scope list_scope.
Open Scope Z_scope.

(** ** Values *)

Inductive Val : Type :=
| VUndefined
| VNull
| VBool (b : bool)
| VNum (n : Z)
| VStr (s : string)
| VArr (elems : list Val)
| VObj (fields : list (string * Val)).

Definition TypeError (msg : string) : Val :=
  VObj [("name", VStr "TypeError"); ("message", VStr msg)].

Fixpoint field (k : string) (fs : list (string * Val)) : Val :=
  match fs with
  | [] => VUndefined
  | (k', v) :: fs' => if String.eqb k k' then v else field k fs'
  end.

(** [v.k]: reading a property of [undefined] or [null] throws (the [inr]
    side carries the thrown value); a missing property reads [undefined]. *)
Definition get_prop (v : Val) (k : string) : Val + Val :=
  match v with
  | VUndefined | VNull => inr (TypeError "Cannot read properties of undefined")
  | VObj fs => inl (field k fs)
  | VArr l => inl (if String.eqb k "length" then VNum (Z.of_nat (length l)) else VUndefined)
  | VStr s => inl (if String.eqb k "length" then VNum (Z.of_nat (String.length s)) else VUndefined)
  | VBool _ | VNum _ => inl VUndefined
  end.

(** [v[i]] for a literal index [i]. *)
Definition get_index (v : Val) (i : nat) : Val + Val :=
  match v with
  | VUndefined | VNull => inr (TypeError "Cannot read properties of undefined")
  | VArr l => inl (default VUndefined (l !! i))
  | VStr s => inl (match String.get i s with Some c => VStr (String c EmptyString) | None => VUndefined end)
  | VObj fs => inl (field (pretty i) fs)
  | VBool _ | VNum _ => inl VUndefined
  end.

(** ** Jobs

    A [Prog] is the code one job of the event loop runs to completion;
    [Done] ends the job.  Callbacks and continuations that run later are the
    function-typed arguments. *)

Abbreviation PId := nat (only parsing).
Abbreviation Ref := nat (only parsing).

Inductive Level := Log | Warn | Error.

Inductive Prog : Type :=
| Done
| Console (lvl : Level) (args : list Val) (k : Prog)
| SetTimeout (cb : Prog) (ms : Z) (k : Prog)
| NewPromise (k : PId -> Prog)
| Resolve (p : PId) (v : Val) (k : Prog)
| Reject (p : PId) (e : Val) (k : Prog)
| Then (p : PId) (onFulfilled onRejected : Val -> Prog) (k : Prog)
| NewRef (v : Val) (k : Ref -> Prog)
| GetRef (r : Ref) (k : Val -> Prog)
| SetRef (r : Ref) (v : Val) (k : Prog).

(** [andThen a b]: run [a] up to the end of its job, then [b] in the same job.
    This is how control returns to the caller of an [async] function when
    its body suspends at an [await]. *)
Fixpoint andThen (a b : Prog) : Prog :=
  match a with
  | Done => b
  | Console lvl args k => Console lvl args (andThen k b)
  | SetTimeout cb ms k => SetTimeout cb ms (andThen k b)
  | NewPromise k => NewPromise (fun p => andThen (k p) b)
  | Resolve p v k => Resolve p v (andThen k b)
  | Reject p e k => Reject p e (andThen k b)
  | Then p f r k => Then p f r (andThen k b)
  | NewRef v k => NewRef v (fun r => andThen (k r) b)
  | GetRef r k => GetRef r (fun v => andThen (k v) b)
  | SetRef r v k => SetRef r v (andThen k b)
  end.

(** ** Function bodies

    A body of result type [A] is given three continuations: what follows
    when it falls through with an [A], what follows a [throw], and what
    follows a [return]. *)

Definition M (A : Type) : Type :=
  (A -> Prog) -> (Val -> Prog) -> (Val -> Prog) -> Prog.

Definition ret {A} (a : A) : M A := fun k _ _ => k a.
Definition bind {A B} (m : M A) (f : A -> M B) : M B :=
  fun k kthrow kret => m (fun a => f a k kthrow kret) kthrow kret.
Definition throw {A} (e : Val) : M A := fun _ kthrow _ => kthrow e.
Definition Return {A} (v : Val) : M A := fun _ _ kret => kret v.

Declare Scope js_scope.
Delimit Scope js_scope with js.
Notation "x <- m ;; f" := (bind m (fun x => f))
  (at level 100, m at next level, f at level 200, right associativity) : js_scope.
Notation "m ;; f" := (bind m (fun _ => f))
  (at level 100, f at level 200, right associativity) : js_scope.
Open Scope js_scope.

(** [try { body } catch (error) { handler error }] *)
Definition try_catch {A} (body : M A) (handler : Val -> M A) : M A :=
  fun k kthrow kret => body k (fun e => handler e k kthrow kret) kret.

(** A partial operation of the value layer used as an expression. *)
Definition eval {A} (r : A + Val) : M A :=
  match r with inl a => ret a | inr e => throw e end.

Definition console_log (args : list Val) : M unit :=
  fun k _ _ => Console Log args (k tt).
Definition console_warn (args : list Val) : M unit :=
  fun k _ _ => Console Warn args (k tt).
Definition console_error (args : list Val) : M unit :=
  fun k _ _ => Console Error args (k tt).

(** A callback handed to the runtime: when it is called its job ends where
    the body ends, whichever exit the body takes. *)
Definition callback (body : M unit) : Prog :=
  body (fun _ => Done) (fun _ => Done) (fun _ => Done).

Definition setTimeout (cb : M unit) (ms : Z) : M unit :=
  fun k _ _ => SetTimeout (callback cb) ms (k tt).

(** [new Promise((resolve, reject) => executor)]: the executor runs at
    once; if it throws, the promise is rejected with what it threw. *)
Definition new_Promise (executor : (Val -> M unit) -> (Val -> M unit) -> M unit) : M PId :=
  fun k _ _ =>
    NewPromise (fun p =>
      executor (fun v k' _ _ => Resolve p v (k' tt))
               (fun e k' _ _ => Reject p e (k' tt))
               (fun _ => k p) (fun e => Reject p e (k p)) (fun _ => k p)).

(** [await p]: the rest of the body becomes the reaction of [p] and the
    current job goes back to whoever called the async function. *)
Definition await_promise (p : PId) : M Val :=
  fun k kthrow _ => Then p k kthrow Done.

(** [await e] where [e] evaluates to a promise. *)
Definition await (e : M PId) : M Val := p <- e ;; await_promise p.

(** [async function f(..) { body }] called: a promise is made for the
    result, the body runs up to its first [await], and the promise is
    handed to the caller.  Falling off the end resolves with [undefined]. *)
Definition async (body : M unit) : M PId :=
  fun k _ _ =>
    NewPromise (fun r =>
      andThen (body (fun _ => Resolve r VUndefined Done)
                    (fun e => Reject r e Done)
                    (fun v => Resolve r v Done))
              (k r)).

(** ** The event loop *)

Definition Reaction : Type := (Val -> Prog) * (Val -> Prog).

Inductive PState : Type :=
| Pending (reactions : list Reaction)
| Fulfilled (v : Val)
| Rejected (e : Val).

Inductive Event : Type :=
| Printed (lvl : Level) (args : list Val)
| TimerSet (at_ms : Z) (delay : Z)
| ResolveCalled (at_ms : Z) (p : PId) (v : Val)
| RejectCalled (at_ms : Z) (p : PId) (e : Val).

Record Loop : Type := mkLoop {
  now : Z;                        (* milliseconds *)
  timers : list (Z * Prog);       (* due time and callback, earliest first *)
  jobs : list Prog;               (* promise reaction jobs, first in first out *)
  promises : list PState;
  heap : list Val;
  trace : list Event              (* what the run did, oldest first *)
}.

Definition boot : Loop := mkLoop 0 [] [] [] [] [].

Definition emit (ev : Event) (s : Loop) : Loop :=
  mkLoop (now s) (timers s) (jobs s) (promises s) (heap s) (trace s ++ [ev]).

(** Timers that are due at the same time fire in the order they were set. *)
Fixpoint insert_timer (due : Z) (cb : Prog) (ts : list (Z * Prog)) : list (Z * Prog) :=
  match ts with
  | [] => [(due, cb)]
  | (d, c) :: ts' =>
      if d <=? due then (d, c) :: insert_timer due cb ts' else (due, cb) :: ts
  end.

Definition schedule (cb : Prog) (ms : Z) (s : Loop) : Loop :=
  mkLoop (now s) (insert_timer (now s + Z.max 0 ms) cb (timers s)) (jobs s)
         (promises s) (heap s) (trace s ++ [TimerSet (now s) ms]).

Definition alloc (s : Loop) : Loop :=
  mkLoop (now s) (timers s) (jobs s) (promises s ++ [Pending []]) (heap s) (trace s).

Definition react (o : PState) (r : Reaction) : Prog :=
  match o with
  | Fulfilled v => fst r v
  | Rejected e => snd r e
  | Pending _ => Done
  end.

(** Settling a pending promise queues one job per reaction; settling a
    settled promise does nothing. *)
Definition settle (p : PId) (o : PState) (s : Loop) : Loop :=
  match promises s !! p with
  | Some (Pending rs) =>
      mkLoop (now s) (timers s) (jobs s ++ map (react o) rs)
             (<[p := o]> (promises s)) (heap s) (trace s)
  | _ => s
  end.

Definition subscribe (p : PId) (r : Reaction) (s : Loop) : Loop :=
  match promises s !! p with
  | Some (Pending rs) =>
      mkLoop (now s) (timers s) (jobs s) (<[p := Pending (rs ++ [r])]> (promises s))
             (heap s) (trace s)
  | Some o =>
      mkLoop (now s) (timers s) (jobs s ++ [react o r]) (promises s) (heap s) (trace s)
  | None => s
  end.

Definition new_cell (v : Val) (s : Loop) : Loop :=
  mkLoop (now s) (timers s) (jobs s) (promises s) (heap s ++ [v]) (trace s).

Definition write_cell (r : Ref) (v : Val) (s : Loop) : Loop :=
  mkLoop (now s) (timers s) (jobs s) (promises s) (<[r := v]> (heap s)) (trace s).

Fixpoint exec (c : Prog) (s : Loop) : Loop :=
  match c with
  | Done => s
  | Console lvl args k => exec k (emit (Printed lvl args) s)
  | SetTimeout cb ms k => exec k (schedule cb ms s)
  | NewPromise k => exec (k (length (promises s))) (alloc s)
  | Resolve p v k => exec k (settle p (Fulfilled v) (emit (ResolveCalled (now s) p v) s))
  | Reject p e k => exec k (settle p (Rejected e) (emit (RejectCalled (now s) p e) s))
  | Then p f r k => exec k (subscribe p (f, r) s)
  | NewRef v k => exec (k (length (heap s))) (new_cell v s)
  | GetRef r k => exec (k (default VUndefined (heap s !! r))) s
  | SetRef r v k => exec k (write_cell r v s)
  end.

(** One turn: a queued job if there is one, else the earliest timer (the
    clock moves to its due time), else nothing is left to do. *)
Definition tick (s : Loop) : option Loop :=
  match jobs s with
  | j :: js => Some (exec j (mkLoop (now s) (timers s) js (promises s) (heap s) (trace s)))
  | [] =>
      match timers s with
      | (due, cb) :: ts =>
          Some (exec cb (mkLoop (Z.max (now s) due) ts [] (promises s) (heap s) (trace s)))
      | [] => None
      end
  end.

Fixpoint run (fuel : nat) (s : Loop) : Loop :=
  match fuel with
  | O => s
  | S n => match tick s with Some s' => run n s' | None => s end
  end.

Definition quiet (s : Loop) : Prop := timers s = [] /\ jobs s = [].

(** Calling [f] from the top level of a script, in loop state [s]: the
    promise it returns has the next free id. *)
Definition call (f : M PId) (s : Loop) : Loop :=
  exec (f (fun _ => Done) (fun _ => Done) (fun _ => Done)) s.

Definition outcome (p : PId) (s : Loop) : option PState := promises s !! p.

Definition printed (t : list Event) : list (Level * list Val) :=
  omap (fun ev => match ev with Printed lvl args => Some (lvl, args) | _ => None end) t.

Definition is_timer_set (ev : Event) : bool :=
  match ev with TimerSet _ _ => true | _ => false end.

Definition timers_set (t : list Event) : nat :=
  length (List.filter is_timer_set t).

(** ** practice/script.js *)

Definition getData (dataID : Val) : M PId :=
  new_Promise (fun resolve reject =>
    setTimeout (
      console_log [VStr "data"; dataID] ;;
      resolve (VNum 200)
    ) 3000).

Definition getAllData : M PId :=
  async (
    console_log [VStr "getting data 1"] ;;
    _ <- await (getData (VNum 1)) ;;
    console_log [VStr "getting data 2"] ;;
    _ <- await (getData (VNum 2)) ;;
    console_log [VStr "getting data 3"] ;;
    _ <- await (getData (VNum 3)) ;;
    ret tt
  ).

(** The values [resolve] and [reject] were called with, oldest first. *)
Definition resolved (t : list Event) : list (PId * Val) :=
  omap (fun ev => match ev with ResolveCalled _ p v => Some (p, v) | _ => None end) t.

Definition rejected (t : list Event) : list (PId * Val) :=
  omap (fun ev => match ev with RejectCalled _ p e => Some (p, e) | _ => None end) t.

(** No timer is set while an earlier one is still outstanding: [busy] tells
    whether a timer has been set and nothing was settled since. *)
Fixpoint one_at_a_time (busy : bool) (t : list Event) : bool :=
  match t with
  | [] => true
  | TimerSet _ _ :: t' => negb busy && one_at_a_time true t'
  | ResolveCalled _ _ _ :: t' | RejectCalled _ _ _ :: t' => one_at_a_time false t'
  | Printed _ _ :: t' => one_at_a_time busy t'
  end.

(** [awaited r s]: the promise [r] is pending and nothing waits for it. *)
Definition awaited (r : PId) (s : Loop) : Prop := promises s !! r = Some (Pending []).

(** ** A delayed value source

    [getData] with its delay and its result left open: after [delay id]
    milliseconds the timer callback prints its line and settles the promise
    with [answer id] ([inl v] resolves with [v], [inr e] rejects with [e]).
    [getData] is the source with the delay 3000 and the answer 200 for
    every id ([getData_source]). *)

Section Source.
Variable delay : Val -> Z.
Variable answer : Val -> Val + Val.

Definition delayedSource (id : Val) : M PId :=
  new_Promise (fun resolve reject =>
    setTimeout (
      console_log [VStr "data"; id] ;;
      match answer id with
      | inl v => resolve v
      | inr e => reject e
      end
    ) (delay id)).

Definition settled (id : Val) : PState :=
  match answer id with inl v => Fulfilled v | inr e => Rejected e end.

Definition settle_event (at_ms : Z) (p : PId) (id : Val) : Event :=
  match answer id with
  | inl v => ResolveCalled at_ms p v
  | inr e => RejectCalled at_ms p e
  end.

(** The loop state once a fetch issued in the quiet state [s] has been
    awaited. *)
Definition fetched (id : Val) (s : Loop) : Loop :=
  let due := now s + Z.max 0 (delay id) in
  mkLoop due [] [] (promises s ++ [settled id]) (heap s)
         (trace s ++ [TimerSet (now s) (delay id);
                      Printed Log [VStr "data"; id];
                      settle_event due (length (promises s)) id]).
End Source.

(** ** The await chain over a list of ids

    [getAllData] is the chain below at the ids 1, 2, 3 with [getData] as
    the fetch ([getAllData_chain]); what is proved of the chain for every
    list of ids holds of the script at its own list. *)

Definition announce (n : Z) : Val := VStr ("getting data " +:+ pretty n).

Section Chain.
Variable fetch : Val -> M PId.

Fixpoint awaitEach (ids : list Z) : M unit :=
  match ids with
  | [] => ret tt
  | n :: rest =>
      console_log [announce n] ;;
      _ <- await (fetch (VNum n)) ;;
      awaitEach rest
  end.

Definition getAllDataOf (ids : list Z) : M PId := async (awaitEach ids).
End Chain.

Definition chain_lines (n : Z) : list (Level * list Val) :=
  [(Log, [announce n]); (Log, [VStr "data"; VNum n])].

Section ChainRun.
Variable delay : Val -> Z.
Variable answer : Val -> Val + Val.

(** The ids whose fetch is issued: up to and including the first one that
    is rejected. *)
Fixpoint reached (ids : list Z) : list Z :=
  match ids with
  | [] => []
  | n :: rest =>
      n :: match answer (VNum n) with inl _ => reached rest | inr _ => [] end
  end.

Fixpoint first_failure (ids : list Z) : option Val :=
  match ids with
  | [] => None
  | n :: rest =>
      match answer (VNum n) with inl _ => first_failure rest | inr e => Some e end
  end.

Definition chain_step (n : Z) (s : Loop) : Loop :=
  fetched delay answer (VNum n) (emit (Printed Log [announce n]) s).

Fixpoint chained (ids : list Z) (s : Loop) : Loop :=
  match ids with
  | [] => s
  | n :: rest =>
      match answer (VNum n) with
      | inl _ => chained rest (chain_step n s)
      | inr _ => chain_step n s
      end
  end.

(** What the chain adds to the trace when it starts at time [t] with [p]
    the next free promise id. *)
Fixpoint chain_trace (t : Z) (p : PId) (ids : list Z) : list Event :=
  match ids with
  | [] => []
  | n :: rest =>
      let due := t + Z.max 0 (delay (VNum n)) in
      [Printed Log [announce n]; TimerSet t (delay (VNum n));
       Printed Log [VStr "data"; VNum n]; settle_event answer due p (VNum n)]
      ++ match answer (VNum n) with
         | inl _ => chain_trace due (S p) rest
         | inr _ => []
         end
  end.

Fixpoint chain_end (t : Z) (ids : list Z) : Z :=
  match ids with
  | [] => t
  | n :: rest =>
      let due := t + Z.max 0 (delay (VNum n)) in
      match answer (VNum n) with inl _ => chain_end due rest | inr _ => due end
  end.

Definition chain_result (ids : list Z) : PState :=
  match first_failure ids with
  | None => Fulfilled VUndefined
  | Some e => Rejected e
  end.

Definition chain_result_event (at_ms : Z) (r : PId) (ids : list Z) : Event :=
  match first_failure ids with
  | None => ResolveCalled at_ms r VUndefined
  | Some e => RejectCalled at_ms r e
  end.

(** The loop state when a call of the chain made in the quiet state [s]
    has run to its end. *)
Definition chain_final (ids : list Z) (s : Loop) : Loop :=
  let r := length (promises s) in
  let t := chain_end (now s) ids in
  mkLoop t [] []
    (promises s ++ chain_result ids :: map (fun n => settled answer (VNum n)) (reached ids))
    (heap s)
    (trace s ++ chain_trace (now s) (S r) ids ++ [chain_result_event t r ids]).
End ChainRun.

(** The contract C3 states, read on [getData]: [d] is the delay of the
    timer the fetch sets; above the cap the promise should end rejected,
    otherwise fulfilled. *)
Definition timeout_contract (cap : Z) (dataID : Val) : Prop :=
  forall d : Z,
    In (TimerSet 0 d) (trace (call (getData dataID) boot)) ->
    if cap <? d
    then exists (fuel : nat) (e : Val),
           outcome 0%nat (run fuel (call (getData dataID) boot)) = Some (Rejected e)
    else exists (fuel : nat) (v : Val),
           outcome 0%nat (run fuel (call (getData dataID) boot)) = Some (Fulfilled v).

(** ** Built-ins used by the guide *)

(** [l.map(f)] where [f] is a function of the embedding. *)
Fixpoint mapM {A B} (f : A -> M B) (l : list A) : M (list B) :=
  match l with
  | [] => ret []
  | x :: l' => y <- f x ;; ys <- mapM f l' ;; ret (y :: ys)
  end.

Definition arr_push (a v : Val) : Val :=
  match a with VArr l => VArr (l ++ [v]) | _ => a end.
Definition arr_set (a : Val) (i : nat) (v : Val) : Val :=
  match a with VArr l => VArr (<[i := v]> l) | _ => a end.
Definition num_add (a : Val) (d : Z) : Val :=
  match a with VNum n => VNum (n + d) | _ => a end.
Definition is_zero (a : Val) : bool :=
  match a with VNum 0 => true | _ => false end.

(** [Promise.all] (the language's PerformPromiseAll): the list [values]
    and the counter [remaining], which starts at 1, are shared cells.  For
    every input promise [undefined] is appended to the list, the counter
    goes up, and the promise gets the element function of its index as its
    reaction, with the rejection of the result as the other one.  The
    element function of index [index] stores the value it is called with at
    that index and counts the element off; whoever brings the counter to 0
    (the last element, or the final count-off when there is no input)
    resolves the result with the list. *)
Definition resolveElement (result : PId) (values remaining : Ref) (index : nat) (x : Val) : Prog :=
  GetRef values (fun vs =>
  SetRef values (arr_set vs index x) (
  GetRef remaining (fun n =>
  SetRef remaining (num_add n (-1)) (
  if is_zero (num_add n (-1))
  then GetRef values (fun vs' => Resolve result vs' Done)
  else Done)))).

Fixpoint all_elements (result : PId) (values remaining : Ref) (index : nat)
    (ps : list PId) (k : Prog) : Prog :=
  match ps with
  | [] => k
  | p :: ps' =>
      GetRef values (fun vs =>
      SetRef values (arr_push vs VUndefined) (
      GetRef remaining (fun n =>
      SetRef remaining (num_add n 1) (
      Then p (resolveElement result values remaining index)
             (fun e => Reject result e Done)
        (all_elements result values remaining (S index) ps' k)))))
  end.

Definition Promise_all (ps : list PId) : M PId :=
  fun k _ _ =>
    NewPromise (fun result =>
    NewRef (VArr []) (fun values =>
    NewRef (VNum 1) (fun remaining =>
    all_elements result values remaining 0 ps (
    GetRef remaining (fun n =>
    SetRef remaining (num_add n (-1)) (
    if is_zero (num_add n (-1))
    then GetRef values (fun vs => Resolve result vs (k result))
    else k result)))))).

(** ** The guide's examples (Readme.md)

    [x > 0] on a number is the comparison of integers; on [undefined] and
    [null] it is false and on a boolean it is the boolean; what the
    conversion of strings, arrays and objects to numbers makes of it is
    left open ([coerced_gt_zero]). *)

Section Guide.
Variables dbDelay postsDelay commentsDelay : Val -> Z.
Variables dbAnswer postsAnswer commentsAnswer : Val -> Val + Val.
Variable coerced_gt_zero : Val -> bool.

(** Modelled from the spec: [fetchFromDatabase] is called by the guide and
    defined nowhere in the repository; it is a delayed value source (spec
    4.1) of any delay and any result. *)
Definition fetchFromDatabase : Val -> M PId := delayedSource dbDelay dbAnswer.

(** Modelled from the spec: [fetchUserPosts], called and not defined, is a
    delayed value source of any delay and any result. *)
Definition fetchUserPosts : Val -> M PId := delayedSource postsDelay postsAnswer.

(** Modelled from the spec: [fetchPostComments], called and not defined, is
    a delayed value source of any delay and any result. *)
Definition fetchPostComments : Val -> M PId := delayedSource commentsDelay commentsAnswer.

Definition gt_zero (v : Val) : bool :=
  match v with
  | VNum n => 0 <? n
  | VBool b => b
  | VUndefined | VNull => false
  | VStr _ | VArr _ | VObj _ => coerced_gt_zero v
  end.

Definition getMultipleUsers (userIds : list Val) : M PId :=
  async (
    try_catch (
      userPromises <- mapM (fun id => fetchFromDatabase id) userIds ;;
      users <- await (Promise_all userPromises) ;;
      Return users
    ) (fun error =>
      console_error [VStr "Error:"; error] ;;
      throw error)
  ).

Definition robustGetUserData (userId : Val) : M PId :=
  async (
    try_catch (
      user <- await (fetchFromDatabase userId) ;;

      posts <- try_catch (
        id <- eval (get_prop user "id") ;;
        await (fetchUserPosts id)
      ) (fun error =>
        console_warn [VStr "Failed to fetch posts, continuing with empty array"] ;;
        ret (VArr [])) ;;

      comments <- try_catch (
        len <- eval (get_prop posts "length") ;;
        if gt_zero len then
          post <- eval (get_index posts 0) ;;
          id <- eval (get_prop post "id") ;;
          await (fetchPostComments id)
        else ret (VArr [])
      ) (fun error =>
        console_warn [VStr "Failed to fetch comments, continuing with empty array"] ;;
        ret (VArr [])) ;;

      Return (VObj [("user", user); ("posts", posts); ("comments", comments)])
    ) (fun error =>
      console_error [VStr "Critical error:"; error] ;;
      throw error)
  ).
End Guide.

(** The second stage of [robustGetUserData] fails: reading [user.id]
    throws, or the posts fetch is rejected. *)
Definition second_stage_fails (postsAnswer : Val -> Val + Val) (user : Val) : Prop :=
  match get_prop user "id" with
  | inl id => exists e, postsAnswer id = inr e
  | inr _ => True
  end.

(** ** A batch of parallel fetches

    [getMultipleUsers] called in the loop state [in_loop] on the ids
    [ids_of], every fetch taking [delay_of] its id and resolving with
    [value_of] its id.  The fetch of index [i] gets the promise [slot i];
    [all_promise] is the promise of [Promise.all], [values_cell] and
    [count_cell] its shared list and counter. *)

Record Batch : Type := mkBatch {
  delay_of : Val -> Z;
  value_of : Val -> Val;
  ids_of : list Val;
  in_loop : Loop;
  on_error : Val -> Prog
}.

Definition batch_size (b : Batch) : nat := length (ids_of b).
Definition result_promise (b : Batch) : PId := length (promises (in_loop b)).
Definition idAt (b : Batch) (i : nat) : Val := default VUndefined (ids_of b !! i).
Definition valueAt (b : Batch) (i : nat) : Val := value_of b (idAt b i).
Definition slot (b : Batch) (i : nat) : PId := (S (result_promise b) + i)%nat.
Definition all_promise (b : Batch) : PId := slot b (batch_size b).
Definition values_cell (b : Batch) : Ref := length (heap (in_loop b)).
Definition count_cell (b : Batch) : Ref := S (length (heap (in_loop b))).

Definition timer_of (b : Batch) (i : nat) : Z * Prog :=
  (now (in_loop b) + Z.max 0 (delay_of b (idAt b i)),
   Console Log [VStr "data"; idAt b i] (Resolve (slot b i) (valueAt b i) Done)).

Definition element (b : Batch) (i : nat) : Reaction :=
  (resolveElement (all_promise b) (values_cell b) (count_cell b) i,
   fun e => Reject (all_promise b) e Done).

Definition collect (b : Batch) : Val -> Prog :=
  fun users => Resolve (result_promise b) users Done.

(** The first [j] fetches are issued; [todo] lists their indices in the
    order their timers are queued in. *)
Record Issued (b : Batch) (j : nat) (u : Loop) : Prop := {
  iss_now : now u = now (in_loop b);
  iss_jobs : jobs u = [];
  iss_heap : heap u = heap (in_loop b);
  iss_len : length (promises u) = slot b j;
  iss_result : awaited (result_promise b) u;
  iss_slots : forall i, (i < j)%nat -> awaited (slot b i) u;
  iss_timers : exists todo, timers u = map (timer_of b) todo /\ NoDup todo /\
                 forall i, i ∈ todo <-> (i < j)%nat
}.

(** [Promise.all] has subscribed to the first [j] fetch promises. *)
Record Registered (b : Batch) (j : nat) (cnt : Z) (todo : list nat) (u : Loop) : Prop := {
  reg_timers : timers u = map (timer_of b) todo;
  reg_jobs : jobs u = [];
  reg_values : heap u !! values_cell b = Some (VArr (replicate j VUndefined));
  reg_count : heap u !! count_cell b = Some (VNum cnt);
  reg_result : awaited (result_promise b) u;
  reg_all : awaited (all_promise b) u;
  reg_done : forall i, (i < j)%nat -> promises u !! slot b i = Some (Pending [element b i]);
  reg_rest : forall i, (j <= i < batch_size b)%nat -> awaited (slot b i) u
}.

(** The body awaits the promise of [Promise.all]; the fetches of the
    indices in [todo] are outstanding, their timers queued in this order,
    and every other index holds its value in the shared list. *)
Record Waiting (b : Batch) (todo : list nat) (u : Loop) : Prop := {
  w_timers : timers u = map (timer_of b) todo;
  w_jobs : jobs u = [];
  w_nodup : NoDup todo;
  w_bound : forall i, i ∈ todo -> (i < batch_size b)%nat;
  w_values : exists V, heap u !! values_cell b = Some (VArr V) /\ length V = batch_size b /\
               forall i, (i < batch_size b)%nat -> i ∉ todo -> V !! i = Some (valueAt b i);
  w_count : heap u !! count_cell b = Some (VNum (Z.of_nat (length todo)));
  w_result : awaited (result_promise b) u;
  w_all : promises u !! all_promise b = Some (Pending [(collect b, on_error b)]);
  w_slots : forall i, i ∈ todo -> promises u !! slot b i = Some (Pending [element b i])
}.

(** Every fetch is in: the one job left resumes the body with the values
    in the order of the ids. *)
Record Collected (b : Batch) (u : Loop) : Prop := {
  c_timers : timers u = [];
  c_jobs : jobs u = [collect b (VArr (map (value_of b) (ids_of b)))];
  c_result : awaited (result_promise b) u
}.

(** ** More of the guide (Readme.md)

    The guide has three functions named [getUserData], one per style; each
    is in the module of its style. *)

(** The time a list of fetches takes one after the other: the sum of
    their delays, a negative delay counting as none. *)
Definition elapsed (delay : Val -> Z) (ids : list Z) : Z :=
  foldr (fun n acc => Z.max 0 (delay (VNum n)) + acc) 0 ids.

Module AsyncAwait.
Section AsyncAwait.
Variables dbDelay postsDelay commentsDelay : Val -> Z.
Variables dbAnswer postsAnswer commentsAnswer : Val -> Val + Val.

(** Readme.md, "Same operation using async/await". *)
Definition getUserData (userId : Val) : M PId :=
  async (
    try_catch (
      user <- await (fetchFromDatabase dbDelay dbAnswer userId) ;;
      id <- eval (get_prop user "id") ;;
      posts <- await (fetchUserPosts postsDelay postsAnswer id) ;;
      post <- eval (get_index posts 0) ;;
      id' <- eval (get_prop post "id") ;;
      comments <- await (fetchPostComments commentsDelay commentsAnswer id') ;;

      Return (VObj [("user", user); ("posts", posts); ("comments", comments)])
    ) (fun error =>
      console_error [VStr "Error:"; error] ;;
      throw error)
  ).
End AsyncAwait.
End AsyncAwait.

(** ** Parallel fetches that may be rejected

    [getMultipleUsers] called in the loop state [fan_loop] on the ids
    [fan_ids], the fetch of an id taking [fan_delay] of it and settling
    with [fan_answer] of it.  The names follow those of [Batch]. *)

Record Fan : Type := mkFan {
  fan_delay : Val -> Z;
  fan_answer : Val -> Val + Val;
  fan_ids : list Val;
  fan_loop : Loop
}.

Definition fan_size (f : Fan) : nat := length (fan_ids f).
Definition fan_result (f : Fan) : PId := length (promises (fan_loop f)).
Definition fan_id (f : Fan) (i : nat) : Val := default VUndefined (fan_ids f !! i).
Definition fan_slot (f : Fan) (i : nat) : PId := (S (fan_result f) + i)%nat.
Definition fan_all (f : Fan) : PId := fan_slot f (fan_size f).
Definition fan_values (f : Fan) : Ref := length (heap (fan_loop f)).
Definition fan_count (f : Fan) : Ref := S (length (heap (fan_loop f))).

(** When the timer of the fetch of index [i] is due. *)
Definition fan_due (f : Fan) (i : nat) : Z :=
  now (fan_loop f) + Z.max 0 (fan_delay f (fan_id f i)).

Definition fan_settled (f : Fan) (i : nat) : PState :=
  settled (fan_answer f) (fan_id f i).

Definition fan_value (f : Fan) (i : nat) : Val :=
  match fan_answer f (fan_id f i) with inl v => v | inr _ => VUndefined end.

Definition fan_timer (f : Fan) (i : nat) : Z * Prog :=
  (fan_due f i,
   callback (console_log [VStr "data"; fan_id f i] ;;
             match fan_answer f (fan_id f i) with
             | inl v => fun k' _ _ => Resolve (fan_slot f i) v (k' tt)
             | inr e => fun k' _ _ => Reject (fan_slot f i) e (k' tt)
             end)).

Definition fan_element (f : Fan) (i : nat) : Reaction :=
  (resolveElement (fan_all f) (fan_values f) (fan_count f) i,
   fun e => Reject (fan_all f) e Done).

Definition fan_collect (f : Fan) : Val -> Prog :=
  fun users => Resolve (fan_result f) users Done.

Definition fan_on_error (f : Fan) : Val -> Prog :=
  fun e => Console Error [VStr "Error:"; e] (Reject (fan_result f) e Done).

(** The order the timers are queued in, as [insert_timer] makes it: the
    index [j] goes behind every index that is due no later. *)
Fixpoint queue_after (due : nat -> Z) (j : nat) (order : list nat) : list nat :=
  match order with
  | [] => [j]
  | i :: rest => if due i <=? due j then i :: queue_after due j rest else j :: order
  end.

Fixpoint firing_order (due : nat -> Z) (n : nat) : list nat :=
  match n with
  | O => []
  | S m => queue_after due m (firing_order due m)
  end.

Definition fan_order (f : Fan) : list nat := firing_order (fan_due f) (fan_size f).

(** [i] fires before [j]: it is due earlier, or at the same time and was
    issued first. *)
Definition fires_before (due : nat -> Z) (i j : nat) : Prop :=
  due i < due j \/ (due i = due j /\ (i < j)%nat).

(** The error of the first fetch, in the order [order], that is rejected. *)
Fixpoint first_rejection (f : Fan) (order : list nat) : option Val :=
  match order with
  | [] => None
  | i :: rest =>
      match fan_answer f (fan_id f i) with
      | inr e => Some e
      | inl _ => first_rejection f rest
      end
  end.

Definition fan_values_list (f : Fan) : list Val :=
  map (fun id => match fan_answer f id with inl v => v | inr _ => VUndefined end) (fan_ids f).

Definition fan_outcome (f : Fan) : PState :=
  match first_rejection f (fan_order f) with
  | Some e => Rejected e
  | None => Fulfilled (VArr (fan_values_list f))
  end.

(** The clock after the timers of [fired] have fired. *)
Definition clock_after (f : Fan) (fired : list nat) : Z :=
  fold_left (fun t i => Z.max t (fan_due f i)) fired (now (fan_loop f)).

(** What was logged with [console.error]. *)
Definition errors (t : list Event) : list (list Val) :=
  omap (fun ev => match ev with Printed Error args => Some args | _ => None end) t.

(** The longest of the delays of a list of ids, a negative delay counting
    as none and an empty list as no time at all. *)
Definition longest (delay : Val -> Z) (ids : list Val) : Z :=
  foldr (fun id acc => Z.max (Z.max 0 (delay id)) acc) 0 ids.

(** The first [j] fetches are issued. *)
Record FanIssued (f : Fan) (j : nat) (u : Loop) : Prop := {
  fi_now : now u = now (fan_loop f);
  fi_jobs : jobs u = [];
  fi_heap : heap u = heap (fan_loop f);
  fi_len : length (promises u) = fan_slot f j;
  fi_result : awaited (fan_result f) u;
  fi_slots : forall i, (i < j)%nat -> awaited (fan_slot f i) u;
  fi_timers : timers u = map (fan_timer f) (firing_order (fan_due f) j);
  fi_set : timers_set (trace u) = (timers_set (trace (fan_loop f)) + j)%nat;
  fi_printed : printed (trace u) = printed (trace (fan_loop f))
}.

(** [Promise.all] has subscribed to the first [j] fetch promises. *)
Record FanRegistered (f : Fan) (j : nat) (u : Loop) : Prop := {
  fr_now : now u = now (fan_loop f);
  fr_timers : timers u = map (fan_timer f) (fan_order f);
  fr_jobs : jobs u = [];
  fr_values : heap u !! fan_values f = Some (VArr (replicate j VUndefined));
  fr_count : heap u !! fan_count f = Some (VNum (1 + Z.of_nat j));
  fr_result : awaited (fan_result f) u;
  fr_all : awaited (fan_all f) u;
  fr_done : forall i, (i < j)%nat -> promises u !! fan_slot f i = Some (Pending [fan_element f i]);
  fr_rest : forall i, (j <= i < fan_size f)%nat -> awaited (fan_slot f i) u;
  fr_set : timers_set (trace u) = (timers_set (trace (fan_loop f)) + fan_size f)%nat;
  fr_printed : printed (trace u) = printed (trace (fan_loop f))
}.

(** The timers of [fired] have fired, those of [todo] are queued in this
    order, and no fetch has been rejected: the body awaits the promise of
    [Promise.all], the shared list holds the values of [fired]. *)
Record Flying (f : Fan) (fired todo : list nat) (u : Loop) : Prop := {
  fl_order : fired ++ todo = fan_order f;
  fl_none : first_rejection f fired = None;
  fl_now : now u = clock_after f fired;
  fl_timers : timers u = map (fan_timer f) todo;
  fl_jobs : jobs u = [];
  fl_values : exists V, heap u !! fan_values f = Some (VArr V) /\ length V = fan_size f /\
                forall i, i ∈ fired -> V !! i = Some (fan_value f i);
  fl_count : heap u !! fan_count f = Some (VNum (Z.of_nat (length todo)));
  fl_result : awaited (fan_result f) u;
  fl_all : promises u !! fan_all f = Some (Pending [(fan_collect f, fan_on_error f)]);
  fl_todo : forall i, i ∈ todo -> promises u !! fan_slot f i = Some (Pending [fan_element f i]);
  fl_fired : forall i, i ∈ fired -> promises u !! fan_slot f i = Some (fan_settled f i);
  fl_set : timers_set (trace u) = (timers_set (trace (fan_loop f)) + fan_size f)%nat;
  fl_errors : errors (trace u) = errors (trace (fan_loop f))
}.

(** A fetch of [fired] was rejected, the first of them with [e]: the
    promise of [Promise.all] and the one of the call are rejected with
    [e], the error is logged, and the timers of [todo] are still queued. *)
Record Failed (f : Fan) (e : Val) (fired todo : list nat) (u : Loop) : Prop := {
  fa_order : fired ++ todo = fan_order f;
  fa_first : first_rejection f fired = Some e;
  fa_now : now u = clock_after f fired;
  fa_timers : timers u = map (fan_timer f) todo;
  fa_jobs : jobs u = [];
  fa_result : promises u !! fan_result f = Some (Rejected e);
  fa_all : promises u !! fan_all f = Some (Rejected e);
  fa_todo : forall i, i ∈ todo -> promises u !! fan_slot f i = Some (Pending [fan_element f i]);
  fa_fired : forall i, i ∈ fired -> promises u !! fan_slot f i = Some (fan_settled f i);
  fa_set : timers_set (trace u) = (timers_set (trace (fan_loop f)) + fan_size f)%nat;
  fa_errors : errors (trace u) = errors (trace (fan_loop f)) ++ [[VStr "Error:"; e]]
}.

(** Every timer has fired. *)
Record Landed (f : Fan) (u : Loop) : Prop := {
  la_quiet : quiet u;
  la_outcome : outcome (fan_result f) u = Some (fan_outcome f);
  la_slots : forall i, (i < fan_size f)%nat -> outcome (fan_slot f i) u = Some (fan_settled f i);
  la_now : now u = clock_after f (fan_order f);
  la_set : timers_set (trace u) = (timers_set (trace (fan_loop f)) + fan_size f)%nat;
  la_errors : errors (trace u) =
              errors (trace (fan_loop f)) ++
              match first_rejection f (fan_order f) with
              | Some e => [[VStr "Error:"; e]]
              | None => []
              end
}.

(** Every fetch is fulfilled: the one job left resumes the body with the
    values. *)
Record Arrived (f : Fan) (u : Loop) : Prop := {
  ar_none : first_rejection f (fan_order f) = None;
  ar_timers : timers u = [];
  ar_jobs : jobs u = [fan_collect f (VArr (fan_values_list f))];
  ar_result : awaited (fan_result f) u;
  ar_slots : forall i, (i < fan_size f)%nat -> promises u !! fan_slot f i = Some (fan_settled f i);
  ar_now : now u = clock_after f (fan_order f);
  ar_set : timers_set (trace u) = (timers_set (trace (fan_loop f)) + fan_size f)%nat;
  ar_errors : errors (trace u) = errors (trace (fan_loop f))
}.

(** The call has returned and the body awaits the promise of
    [Promise.all].  With no id that promise is fulfilled at once and the job that resumes the body is
    queued; otherwise every timer is queued and nothing has happened yet. *)
Definition Departed (f : Fan) (u : Loop) : Prop :=
  printed (trace u) = printed (trace (fan_loop f)) /\
  match fan_order f with
  | [] => Arrived f u
  | _ :: _ => Flying f [] (fan_order f) u
  end.


(** ** Promise chains (Readme.md, "Promises to the Rescue")

    The function handed to [then] or [catch] ends in one of three ways: it
    returns a promise (the value of its body), it returns another value
    ([Return]), or it throws. *)

(** A handler returned the promise [returned]: the promise [derived] of the
    [then] call follows it.  The engine does the subscription in a job of
    its own; the job is queued as a reaction of [source], the promise whose
    reaction is running, which is settled. *)
Definition adopt (source derived returned : PId) : Prog :=
  let job := fun _ : Val =>
    Then returned (fun v => Resolve derived v Done) (fun e => Reject derived e Done) Done in
  Then source job job Done.

(** The reaction job that calls a handler and settles [derived] with what
    comes of it. *)
Definition handle (source derived : PId) (handler : Val -> M PId) (x : Val) : Prog :=
  handler x (fun q => adopt source derived q)
            (fun e => Reject derived e Done)
            (fun v => Resolve derived v Done).

(** [p.then(onFulfilled)]: a rejection of [p] passes through. *)
Definition then_ (p : PId) (onFulfilled : Val -> M PId) : M PId :=
  fun k _ _ =>
    NewPromise (fun derived =>
      Then p (handle p derived onFulfilled) (fun e => Reject derived e Done) (k derived)).

(** [p.catch(onRejected)]: a value of [p] passes through. *)
Definition catch (p : PId) (onRejected : Val -> M PId) : M PId :=
  fun k _ _ =>
    NewPromise (fun derived =>
      Then p (fun v => Resolve derived v Done) (handle p derived onRejected) (k derived)).

(** [{}] bound to a variable that closures assign to: a cell of the heap. *)
Definition new_object : M Ref := fun k _ _ => NewRef (VObj []) k.

Fixpoint set_field (k : string) (v : Val) (fs : list (string * Val)) : list (string * Val) :=
  match fs with
  | [] => [(k, v)]
  | (k', v') :: fs' =>
      if String.eqb k' k then (k, v) :: fs' else (k', v') :: set_field k v fs'
  end.

(** [o.k = v]: the property is added behind the others, or replaced where
    it is. *)
Definition with_field (obj : Val) (k : string) (v : Val) : Val :=
  match obj with
  | VObj fs => VObj (set_field k v fs)
  | _ => obj
  end.

(** [o.k = v] for the object in the cell [o]. *)
Definition assign (o : Ref) (k : string) (v : Val) : M unit :=
  fun cont _ _ => GetRef o (fun obj => SetRef o (with_field obj k v) (cont tt)).

(** Reading the variable: the object as it is now. *)
Definition read (o : Ref) : M Val := fun k _ _ => GetRef o k.

Module Promises.
Section Promises.
Variables dbDelay postsDelay commentsDelay : Val -> Z.
Variables dbAnswer postsAnswer commentsAnswer : Val -> Val + Val.

(** Readme.md, "Same operation using Promises". *)
Definition getUserData (userId : Val) : M PId :=
  p <- fetchFromDatabase dbDelay dbAnswer userId ;;
  then_ p (fun user =>
    id <- eval (get_prop user "id") ;;
    p' <- fetchUserPosts postsDelay postsAnswer id ;;
    then_ p' (fun posts =>
      post <- eval (get_index posts 0) ;;
      id' <- eval (get_prop post "id") ;;
      p'' <- fetchPostComments commentsDelay commentsAnswer id' ;;
      then_ p'' (fun comments =>
        Return (VObj [("user", user); ("posts", posts); ("comments", comments)])))).

(** Readme.md, "Improved Promise Chaining". *)
Definition getUserDataBetter (userId : Val) : M PId :=
  userData <- new_object ;;
  p <- fetchFromDatabase dbDelay dbAnswer userId ;;
  p1 <- then_ p (fun user =>
    assign userData "user" user ;;
    id <- eval (get_prop user "id") ;;
    fetchUserPosts postsDelay postsAnswer id) ;;
  p2 <- then_ p1 (fun posts =>
    assign userData "posts" posts ;;
    post <- eval (get_index posts 0) ;;
    id' <- eval (get_prop post "id") ;;
    fetchPostComments commentsDelay commentsAnswer id') ;;
  p3 <- then_ p2 (fun comments =>
    assign userData "comments" comments ;;
    result <- read userData ;;
    Return result) ;;
  catch p3 (fun error =>
    console_error [VStr "Error:"; error] ;;
    throw error).
End Promises.
End Promises.

(** ** What the styles have in common

    The three fetches of a [getUserData], as far as they get: the ids
    fetched, in this order, each with the delay of its fetch, and the
    object the three results make, or the error that ended the chain (of a
    rejected fetch, or thrown by reading [user.id] or [posts[0].id]). *)
Section Journey.
Variables dbDelay postsDelay commentsDelay : Val -> Z.
Variables dbAnswer postsAnswer commentsAnswer : Val -> Val + Val.

Definition journey (userId : Val) : list (Val * Z) * (Val + Val) :=
  let stop1 := (userId, dbDelay userId) in
  match dbAnswer userId with
  | inr e => ([stop1], inr e)
  | inl user =>
  match get_prop user "id" with
  | inr e => ([stop1], inr e)
  | inl id =>
  let stop2 := (id, postsDelay id) in
  match postsAnswer id with
  | inr e => ([stop1; stop2], inr e)
  | inl posts =>
  match get_index posts 0 with
  | inr e => ([stop1; stop2], inr e)
  | inl post =>
  match get_prop post "id" with
  | inr e => ([stop1; stop2], inr e)
  | inl id' =>
  let stop3 := (id', commentsDelay id') in
  match commentsAnswer id' with
  | inr e => ([stop1; stop2; stop3], inr e)
  | inl comments =>
      ([stop1; stop2; stop3],
       inl (VObj [("user", user); ("posts", posts); ("comments", comments)]))
  end end end end end end.
End Journey.

(** The lines the fetches print, the time they take one after the other,
    and the state a promise ends in. *)
Definition journey_lines (stops : list (Val * Z)) : list (Level * list Val) :=
  map (fun stop => (Log, [VStr "data"; fst stop])) stops.

Definition journey_clock (start : Z) (stops : list (Val * Z)) : Z :=
  fold_left (fun t stop => t + Z.max 0 (snd stop)) stops start.

Definition journey_end (result : Val + Val) : PState :=
  match result with inl v => Fulfilled v | inr e => Rejected e end.

(** The line a [catch] handler logs. *)
Definition journey_complaint (result : Val + Val) : list (Level * list Val) :=
  match result with
  | inl _ => []
  | inr e => [(Error, [VStr "Error:"; e])]
  end.

(** ** Statements *)

(** What [if (v)] takes for true. *)
Definition truthy (v : Val) : bool :=
  match v with
  | VUndefined | VNull => false
  | VBool b => b
  | VNum n => negb (n =? 0)
  | VStr s => negb (String.eqb s "")
  | VArr _ | VObj _ => true
  end.

(** A call of a function in statement position: where the function
    returns, the caller goes on. *)
Definition invoke (f : M unit) : M unit :=
  fun k kthrow _ => f k kthrow (fun _ => k tt).

(** [if (c) { body }] *)
Definition when (c : bool) (body : M unit) : M unit :=
  if c then body else ret tt.

(** ** Callbacks (Readme.md, "Callback Pattern") *)

Module Callbacks.
Section Callbacks.
Variables dbDelay postsDelay commentsDelay : Val -> Z.
Variables dbAnswer postsAnswer commentsAnswer : Val -> Val * Val.

(** Modelled from the spec: a fetch in callback style is simulated like
    [getData], with a timer and a console line; when the timer fires the
    callback is called with what [answer] gives for the id, an error and a
    value. *)
Definition fetchWith (delay : Val -> Z) (answer : Val -> Val * Val)
    (id : Val) (callback : Val -> Val -> M unit) : M unit :=
  setTimeout (
    console_log [VStr "data"; id] ;;
    invoke (callback (fst (answer id)) (snd (answer id)))
  ) (delay id).

Definition fetchFromDatabase := fetchWith dbDelay dbAnswer.
Definition fetchUserPosts := fetchWith postsDelay postsAnswer.
Definition fetchPostComments := fetchWith commentsDelay commentsAnswer.

(** Readme.md, "Traditional callback pattern". *)
Definition getUserData (userId : Val) (callback : Val -> Val -> M unit) : M unit :=
  fetchFromDatabase userId (fun error user =>
    when (truthy error) (
      invoke (callback error VNull) ;;
      Return VUndefined) ;;
    id <- eval (get_prop user "id") ;;
    fetchUserPosts id (fun error posts =>
      when (truthy error) (
        invoke (callback error VNull) ;;
        Return VUndefined) ;;
      post <- eval (get_index posts 0) ;;
      id' <- eval (get_prop post "id") ;;
      fetchPostComments id' (fun error comments =>
        when (truthy error) (
          invoke (callback error VNull) ;;
          Return VUndefined) ;;
        invoke (callback VNull
                  (VObj [("user", user); ("posts", posts); ("comments", comments)]))))).
End Callbacks.
End Callbacks.

(** The loop after the fetches of [stops] were made one after the other
    from the quiet state [s], by code that keeps no promise: the clock has
    moved on, and each fetch has left its timer and its line in the
    trace. *)
Fixpoint fetch_events (start : Z) (stops : list (Val * Z)) : list Event :=
  match stops with
  | [] => []
  | stop :: rest =>
      TimerSet start (snd stop) :: Printed Log [VStr "data"; fst stop]
        :: fetch_events (start + Z.max 0 (snd stop)) rest
  end.

Definition after_fetches (s : Loop) (stops : list (Val * Z)) : Loop :=
  mkLoop (journey_clock (now s) stops) [] [] (promises s) (heap s)
         (trace s ++ fetch_events (now s) stops).

(** ** An API call (Readme.md, "API Calls with Fetch")

    [fetch] and [response.json()] belong to the platform, not to the
    repository.  Each is taken as a request the platform answers later: a
    promise settled [delay x] after the call with [answer x], with nothing
    printed. *)
Definition request (delay : Val -> Z) (answer : Val -> Val + Val) (x : Val) : M PId :=
  new_Promise (fun resolve reject =>
    setTimeout (
      match answer x with
      | inl v => resolve v
      | inr e => reject e
      end
    ) (delay x)).

(** [new Error(message)] *)
Definition new_Error (message : string) : Val :=
  VObj [("name", VStr "Error"); ("message", VStr message)].

Section Profile.
Variables fetchDelay jsonDelay : Val -> Z.
Variables fetchAnswer jsonAnswer : Val -> Val + Val.
(** What a template literal makes of a value. *)
Variable to_string : Val -> string.

Definition fetch := request fetchDelay fetchAnswer.

(** [response.json()], by the response it is called on. *)
Definition json := request jsonDelay jsonAnswer.

Definition fetchUserProfile (userId : Val) : M PId :=
  async (
    try_catch (
      response <- await (fetch (VStr ("/api/users/" ++ to_string userId))) ;;
      ok <- eval (get_prop response "ok") ;;
      when (negb (truthy ok)) (
        status <- eval (get_prop response "status") ;;
        throw (new_Error ("HTTP error! status: " ++ to_string status))) ;;
      data <- await (json response) ;;
      Return data
    ) (fun error =>
      console_error [VStr "Error fetching user profile:"; error] ;;
      throw error)
  ).
End Profile.

(** * Properties *)

(** ** The model at work *)

Example getAllData_boot :
  let s := run 6 (call getAllData boot) in
  (now s, outcome 0%nat s, printed (trace s), tick s) =
  (9000, Some (Fulfilled VUndefined),
   [(Log, [VStr "getting data 1"]); (Log, [VStr "data"; VNum 1]);
    (Log, [VStr "getting data 2"]); (Log, [VStr "data"; VNum 2]);
    (Log, [VStr "getting data 3"]); (Log, [VStr "data"; VNum 3])], None).
Proof. vm_compute. reflexivity. Qed.

(** Three fetches that complete in the order 2, 3, 1. *)
Example getMultipleUsers_boot :
  let delay := fun id => match id with VNum 1 => 50 | VNum 2 => 10 | _ => 30 end in
  let s := run 7 (call (getMultipleUsers delay (fun id => inl (VObj [("id", id)]))
                          [VNum 1; VNum 2; VNum 3]) boot) in
  (now s, outcome 0%nat s, printed (trace s), tick s) =
  (50, Some (Fulfilled (VArr [VObj [("id", VNum 1)]; VObj [("id", VNum 2)];
                              VObj [("id", VNum 3)]])),
   [(Log, [VStr "data"; VNum 2]); (Log, [VStr "data"; VNum 3]);
    (Log, [VStr "data"; VNum 1])], None).
Proof. vm_compute. reflexivity. Qed.

Example robustGetUserData_boot :
  let user := VObj [("id", VNum 7)] in
  let s := run 6 (call (robustGetUserData (fun _ => 5) (fun _ => 5) (fun _ => 5)
                          (fun _ => inl user) (fun _ => inr (VStr "no posts"))
                          (fun _ => inl (VArr [VStr "c"])) (fun _ => false)
                          (VNum 7)) boot) in
  (now s, outcome 0%nat s, printed (trace s), timers_set (trace s), tick s) =
  (10, Some (Fulfilled (VObj [("user", user); ("posts", VArr []); ("comments", VArr [])])),
   [(Log, [VStr "data"; VNum 7]); (Log, [VStr "data"; VNum 7]);
    (Warn, [VStr "Failed to fetch posts, continuing with empty array"])], 2%nat, None).
Proof. vm_compute. reflexivity. Qed.

Lemma getData_source :
  getData = delayedSource (fun _ => 3000) (fun _ => inl (VNum 200)).
Proof. reflexivity. Qed.

Lemma getAllData_chain : getAllData = getAllDataOf getData [1; 2; 3].
Proof. reflexivity. Qed.

(** ** Laws of the loop *)

Lemma exec_andThen (a b : Prog) : forall s, exec (andThen a b) s = exec b (exec a s).
Proof.
  induction a as [ | lvl args k IH | cb _ ms k IH | k IH | p v k IH | p e k IH
                 | p f r k IH | v k IH | r k IH | r v k IH ];
    intros s; simpl; auto.
Qed.

Lemma run_quiet (n : nat) (s : Loop) : quiet s -> run n s = s.
Proof.
  intros [Ht Hj]. destruct n as [ | n]; [reflexivity | ].
  simpl. unfold tick. now rewrite Hj, Ht.
Qed.

Lemma run_add (n m : nat) : forall s, run (n + m) s = run m (run n s).
Proof.
  induction n as [ | n IH]; intros s; simpl; [reflexivity | ].
  destruct (tick s) as [s' | ] eqn:E; [apply IH | ].
  destruct m as [ | m]; [reflexivity | ]. simpl. now rewrite E.
Qed.

Lemma max_due (t ms : Z) : Z.max t (t + Z.max 0 ms) = t + Z.max 0 ms.
Proof. lia. Qed.

Lemma lookup_fresh {A} (l : list A) (x : A) : (l ++ [x]) !! length l = Some x.
Proof. induction l; simpl; auto. Qed.

Lemma insert_fresh {A} (l : list A) (x y : A) : <[length l := y]> (l ++ [x]) = l ++ [y].
Proof. induction l; simpl; [reflexivity | ]. now f_equal. Qed.

(** Calling an async function runs its body up to the first [await] in the
    caller's job, with the three exits of the body settling the promise. *)
Lemma call_async (body : M unit) (s : Loop) :
  call (async body) s =
  exec (body (fun _ => Resolve (length (promises s)) VUndefined Done)
             (fun e => Reject (length (promises s)) e Done)
             (fun v => Resolve (length (promises s)) v Done))
       (alloc s).
Proof. unfold call, async. cbn [exec]. now rewrite exec_andThen. Qed.

Lemma printed_app (t1 t2 : list Event) : printed (t1 ++ t2) = printed t1 ++ printed t2.
Proof. apply omap_app. Qed.

Lemma resolved_app (t1 t2 : list Event) : resolved (t1 ++ t2) = resolved t1 ++ resolved t2.
Proof. apply omap_app. Qed.

Lemma rejected_app (t1 t2 : list Event) : rejected (t1 ++ t2) = rejected t1 ++ rejected t2.
Proof. apply omap_app. Qed.

Lemma timers_set_app (t1 t2 : list Event) :
  timers_set (t1 ++ t2) = (timers_set t1 + timers_set t2)%nat.
Proof. unfold timers_set. now rewrite List.filter_app, length_app. Qed.

Lemma one_at_a_time_app (t1 : list Event) : forall (b : bool) (t2 : list Event),
  one_at_a_time b t1 = true ->
  (forall b', one_at_a_time b' t2 = true) ->
  one_at_a_time b (t1 ++ t2) = true.
Proof.
  induction t1 as [ | ev t1 IH]; intros b t2 H1 H2; [apply H2 | ].
  destruct ev; cbn [app one_at_a_time] in *; auto.
  apply andb_true_iff in H1 as [Hb H1]. rewrite Hb. cbn. auto.
Qed.

(** ** A single fetch *)

(** Issuing a fetch and awaiting it takes two turns of the loop: the timer
    callback, then the reaction job that resumes the body. *)
Lemma fetch_await delay answer (id : Val) (k : Val -> Prog) (kthrow kret : Val -> Prog)
    (s : Loop) :
  quiet s ->
  run 2 (exec (await (delayedSource delay answer id) k kthrow kret) s) =
  match answer id with
  | inl v => exec (k v) (fetched delay answer id s)
  | inr e => exec (kthrow e) (fetched delay answer id s)
  end.
Proof.
  intros [Ht Hj]. destruct s as [t ts js ps h tr]. simpl in Ht, Hj. subst ts js.
  unfold await, delayedSource, fetched, settled, settle_event, bind, new_Promise,
    setTimeout, await_promise, callback, console_log.
  simpl exec. unfold alloc, schedule, subscribe. simpl.
  rewrite lookup_fresh, insert_fresh. simpl.
  rewrite max_due.
  destruct (answer id) as [v | e]; simpl; unfold settle, emit; simpl;
    rewrite lookup_fresh, insert_fresh; simpl; unfold tick; simpl;
    rewrite <- !app_assoc; reflexivity.
Qed.

Lemma source_call delay answer (id : Val) (s : Loop) :
  quiet s ->
  call (delayedSource delay answer id) s =
  mkLoop (now s)
    [(now s + Z.max 0 (delay id),
      callback (console_log [VStr "data"; id] ;;
                match answer id with
                | inl v => fun k' _ _ => Resolve (length (promises s)) v (k' tt)
                | inr e => fun k' _ _ => Reject (length (promises s)) e (k' tt)
                end))]
    [] (promises s ++ [Pending []]) (heap s)
    (trace s ++ [TimerSet (now s) (delay id)]).
Proof.
  intros [Ht Hj]. destruct s as [t ts js ps h tr]. simpl in Ht, Hj. subst ts js.
  reflexivity.
Qed.

Lemma source_run delay answer (id : Val) (s : Loop) (fuel : nat) :
  quiet s ->
  run (S fuel) (call (delayedSource delay answer id) s) = fetched delay answer id s.
Proof.
  intros Hq. rewrite (source_call _ _ _ _ Hq).
  change (S fuel) with (1 + fuel)%nat. rewrite run_add.
  assert (E : run 1 (mkLoop (now s)
    [(now s + Z.max 0 (delay id),
      callback (console_log [VStr "data"; id] ;;
                match answer id with
                | inl v => fun k' _ _ => Resolve (length (promises s)) v (k' tt)
                | inr e => fun k' _ _ => Reject (length (promises s)) e (k' tt)
                end))]
    [] (promises s ++ [Pending []]) (heap s)
    (trace s ++ [TimerSet (now s) (delay id)])) = fetched delay answer id s).
  { unfold fetched, settled, settle_event, callback, bind, console_log.
    simpl. rewrite max_due.
    destruct (answer id); simpl; unfold settle, emit; simpl;
      rewrite lookup_fresh, insert_fresh; simpl;
      rewrite <- !app_assoc; reflexivity. }
  rewrite E. apply run_quiet. split; reflexivity.
Qed.

Lemma settle_event_not_timer answer t p id :
  is_timer_set (settle_event answer t p id) = false.
Proof. unfold settle_event. now destruct (answer id). Qed.

Lemma settle_event_not_printed answer t p id : printed [settle_event answer t p id] = [].
Proof. unfold settle_event. now destruct (answer id). Qed.

(** ** Quiet states and pending results *)

Create HintDb loop.

Lemma alloc_quiet s : quiet s -> quiet (alloc s).
Proof. intros [? ?]; split; assumption. Qed.

Lemma emit_quiet ev s : quiet s -> quiet (emit ev s).
Proof. intros [? ?]; split; assumption. Qed.

Lemma fetched_quiet delay answer id s : quiet (fetched delay answer id s).
Proof. split; reflexivity. Qed.

Lemma alloc_awaited s : awaited (length (promises s)) (alloc s).
Proof. apply lookup_fresh. Qed.

Lemma emit_awaited r ev s : awaited r s -> awaited r (emit ev s).
Proof. exact (fun H => H). Qed.

Lemma fetched_awaited r delay answer id s :
  awaited r s -> awaited r (fetched delay answer id s).
Proof. intros H. apply lookup_app_l_Some, H. Qed.

#[local] Hint Resolve alloc_quiet emit_quiet fetched_quiet alloc_awaited emit_awaited
  fetched_awaited : loop.

Lemma timers_set_alloc s : timers_set (trace (alloc s)) = timers_set (trace s).
Proof. reflexivity. Qed.

Lemma timers_set_printed lvl args s :
  timers_set (trace (emit (Printed lvl args) s)) = timers_set (trace s).
Proof. cbn [emit trace]. rewrite timers_set_app. cbn. lia. Qed.

Lemma timers_set_fetched delay answer id s :
  timers_set (trace (fetched delay answer id s)) = S (timers_set (trace s)).
Proof.
  unfold fetched. cbn [trace]. rewrite timers_set_app. unfold timers_set at 2.
  cbn [List.filter is_timer_set]. rewrite settle_event_not_timer. cbn. lia.
Qed.

(** The last step of an async body: settling its own promise. *)
Lemma finish_resolve (n : nat) (r : PId) (v : Val) (s : Loop) :
  quiet s -> awaited r s ->
  let s' := run n (settle r (Fulfilled v) (emit (ResolveCalled (now s) r v) s)) in
  quiet s' /\ outcome r s' = Some (Fulfilled v) /\
  timers_set (trace s') = timers_set (trace s).
Proof.
  intros [Ht Hj] Ha s'. subst s'. destruct s as [t ts js ps h tr].
  unfold awaited in Ha. cbn [timers jobs promises] in Ht, Hj, Ha. subst ts js.
  unfold settle, emit. cbn [promises]. rewrite Ha. cbn.
  rewrite run_quiet by (split; reflexivity).
  split; [split; reflexivity | ]. split.
  - unfold outcome. cbn [promises]. apply list_lookup_insert_eq.
    apply lookup_lt_Some in Ha. exact Ha.
  - cbn [trace]. rewrite timers_set_app. unfold timers_set.
    cbn [List.filter is_timer_set length]. lia.
Qed.

Lemma finish_reject (n : nat) (r : PId) (e : Val) (s : Loop) :
  quiet s -> awaited r s ->
  let s' := run n (settle r (Rejected e) (emit (RejectCalled (now s) r e) s)) in
  quiet s' /\ outcome r s' = Some (Rejected e) /\
  timers_set (trace s') = timers_set (trace s).
Proof.
  intros [Ht Hj] Ha s'. subst s'. destruct s as [t ts js ps h tr].
  unfold awaited in Ha. cbn [timers jobs promises] in Ht, Hj, Ha. subst ts js.
  unfold settle, emit. cbn [promises]. rewrite Ha. cbn.
  rewrite run_quiet by (split; reflexivity).
  split; [split; reflexivity | ]. split.
  - unfold outcome. cbn [promises]. apply list_lookup_insert_eq.
    apply lookup_lt_Some in Ha. exact Ha.
  - cbn [trace]. rewrite timers_set_app. unfold timers_set.
    cbn [List.filter is_timer_set length]. lia.
Qed.

(** Symbolic execution of a body: [js_step] runs the synchronous
    statements, [fetch_step] an awaited fetch, [finish] the settling of
    the body's own promise. *)
Ltac js_step :=
  unfold eval, ret, throw, Return, console_warn, console_error, console_log;
  cbv beta iota; cbn [exec].

Ltac fetch_step :=
  match goal with
  | |- context [run (S (S ?n)) (exec (await (delayedSource _ _ _) _ _ _) _)] =>
      change (S (S n)) with (2 + n)%nat;
      rewrite run_add, fetch_await by auto with loop
  end.

Ltac finish :=
  match goal with
  | |- context [run ?n (settle ?r (Fulfilled ?v) (emit (ResolveCalled _ ?r ?v) ?s))] =>
      let H := fresh in
      destruct (finish_resolve n r v s) as (? & ? & H); [auto 10 with loop .. | ];
      rewrite ?timers_set_printed, ?timers_set_fetched, ?timers_set_alloc in H
  | |- context [run ?n (settle ?r (Rejected ?e) (emit (RejectCalled _ ?r ?e) ?s))] =>
      let H := fresh in
      destruct (finish_reject n r e s) as (? & ? & H); [auto 10 with loop .. | ];
      rewrite ?timers_set_printed, ?timers_set_fetched, ?timers_set_alloc in H
  end.

(** ** The await chain *)

Section ChainLaws.
Variable delay : Val -> Z.
Variable answer : Val -> Val + Val.

Lemma chain_step_quiet n s : quiet (chain_step delay answer n s).
Proof. split; reflexivity. Qed.

Lemma awaitEach_run (ids : list Z) :
  forall (k : unit -> Prog) (kthrow kret : Val -> Prog) s,
  quiet s ->
  run (2 * length (reached answer ids))
      (exec (awaitEach (delayedSource delay answer) ids k kthrow kret) s) =
  exec (match first_failure answer ids with None => k tt | Some e => kthrow e end)
       (chained delay answer ids s).
Proof.
  induction ids as [ | n rest IH]; intros k kthrow kret s Hq; [reflexivity | ].
  replace (2 * length (reached answer (n :: rest)))%nat
    with (2 + 2 * length (match answer (VNum n) with
                          | inl _ => reached answer rest | inr _ => [] end))%nat
    by (simpl; lia).
  rewrite run_add.
  change (exec (awaitEach (delayedSource delay answer) (n :: rest) k kthrow kret) s)
    with (exec (await (delayedSource delay answer (VNum n))
                  (fun _ => awaitEach (delayedSource delay answer) rest k kthrow kret)
                  kthrow kret)
               (emit (Printed Log [announce n]) s)).
  rewrite fetch_await by (destruct Hq; split; assumption).
  simpl first_failure. simpl chained. fold (chain_step delay answer n s).
  destruct (answer (VNum n)) as [v | e].
  - apply IH, chain_step_quiet.
  - reflexivity.
Qed.

Lemma chained_quiet ids : forall s, quiet s -> quiet (chained delay answer ids s).
Proof.
  induction ids as [ | n rest IH]; intros s Hq; simpl; [assumption | ].
  destruct (answer (VNum n)); [apply IH | ]; apply chain_step_quiet.
Qed.

Lemma chained_now ids : forall s,
  now (chained delay answer ids s) = chain_end delay answer (now s) ids.
Proof.
  induction ids as [ | n rest IH]; intros s; simpl; [reflexivity | ].
  destruct (answer (VNum n)); [rewrite IH | ]; reflexivity.
Qed.

Lemma chained_heap ids : forall s, heap (chained delay answer ids s) = heap s.
Proof.
  induction ids as [ | n rest IH]; intros s; simpl; [reflexivity | ].
  destruct (answer (VNum n)); [rewrite IH | ]; reflexivity.
Qed.

Lemma chained_promises ids : forall s,
  promises (chained delay answer ids s) =
  promises s ++ map (fun n => settled answer (VNum n)) (reached answer ids).
Proof.
  induction ids as [ | n rest IH]; intros s; simpl; [now rewrite app_nil_r | ].
  destruct (answer (VNum n)) eqn:E; [rewrite IH | ]; simpl;
    rewrite <- ?app_assoc; reflexivity.
Qed.

Lemma chained_trace ids : forall s,
  trace (chained delay answer ids s) =
  trace s ++ chain_trace delay answer (now s) (length (promises s)) ids.
Proof.
  induction ids as [ | n rest IH]; intros s; simpl; [now rewrite app_nil_r | ].
  destruct (answer (VNum n)) eqn:E.
  - rewrite IH. simpl. rewrite length_app, Nat.add_1_r, <- !app_assoc. reflexivity.
  - simpl. rewrite <- ?app_assoc. reflexivity.
Qed.

Lemma chained_eq ids s :
  quiet s ->
  chained delay answer ids s =
  mkLoop (chain_end delay answer (now s) ids) [] []
    (promises s ++ map (fun n => settled answer (VNum n)) (reached answer ids))
    (heap s)
    (trace s ++ chain_trace delay answer (now s) (length (promises s)) ids).
Proof.
  intros Hq.
  pose proof (chained_quiet ids s Hq) as [Ht Hj].
  pose proof (chained_now ids s) as Hn.
  pose proof (chained_heap ids s) as Hh.
  pose proof (chained_promises ids s) as Hp.
  pose proof (chained_trace ids s) as Htr.
  destruct (chained delay answer ids s); simpl in *; congruence.
Qed.

(** A call of the chain in a quiet state, run to its end. *)
Lemma getAllDataOf_run ids s :
  quiet s ->
  run (2 * length (reached answer ids))
      (call (getAllDataOf (delayedSource delay answer) ids) s) =
  chain_final delay answer ids s.
Proof.
  intros Hq. unfold getAllDataOf. rewrite call_async.
  rewrite awaitEach_run by (apply alloc_quiet, Hq).
  rewrite (chained_eq ids (alloc s) (alloc_quiet s Hq)).
  unfold chain_final, chain_result, chain_result_event.
  simpl now. simpl promises. simpl heap. simpl trace.
  rewrite length_app, Nat.add_1_r.
  destruct (first_failure answer ids) as [e | ]; simpl exec;
    unfold settle, emit; simpl;
    rewrite <- app_assoc, lookup_app_r by lia;
    rewrite Nat.sub_diag; simpl;
    rewrite insert_app_r_alt by lia;
    rewrite Nat.sub_diag; simpl;
    rewrite <- !app_assoc; reflexivity.
Qed.

Lemma chain_final_quiet ids s : quiet (chain_final delay answer ids s).
Proof. split; reflexivity. Qed.

Lemma chain_final_outcome ids s :
  outcome (length (promises s)) (chain_final delay answer ids s) =
  Some (chain_result answer ids).
Proof.
  unfold outcome, chain_final. simpl.
  rewrite lookup_app_r by lia. now rewrite Nat.sub_diag.
Qed.

Lemma chain_trace_printed ids : forall t p,
  printed (chain_trace delay answer t p ids) = flat_map chain_lines (reached answer ids).
Proof.
  induction ids as [ | n rest IH]; intros t p; [reflexivity | ].
  cbn [chain_trace reached flat_map].
  change [Printed Log [announce n]; TimerSet t (delay (VNum n));
          Printed Log [VStr "data"; VNum n];
          settle_event answer (t + Z.max 0 (delay (VNum n))) p (VNum n)]
    with ([Printed Log [announce n]; TimerSet t (delay (VNum n));
           Printed Log [VStr "data"; VNum n]]
          ++ [settle_event answer (t + Z.max 0 (delay (VNum n))) p (VNum n)]).
  rewrite !printed_app, settle_event_not_printed.
  destruct (answer (VNum n)); [rewrite IH | ]; reflexivity.
Qed.

Lemma chain_trace_timers ids : forall t p,
  timers_set (chain_trace delay answer t p ids) = length (reached answer ids).
Proof.
  induction ids as [ | n rest IH]; intros t p; [reflexivity | ].
  cbn [chain_trace reached]. rewrite timers_set_app.
  unfold timers_set at 1. cbn [List.filter is_timer_set].
  rewrite settle_event_not_timer. cbn [length].
  destruct (answer (VNum n)); [rewrite IH | ]; reflexivity.
Qed.

Lemma chain_trace_serial ids : forall t p,
  one_at_a_time false (chain_trace delay answer t p ids) = true.
Proof.
  induction ids as [ | n rest IH]; intros t p; [reflexivity | ].
  cbn [chain_trace app one_at_a_time negb andb]. unfold settle_event.
  destruct (answer (VNum n)); cbn [one_at_a_time]; [apply IH | reflexivity].
Qed.

(** A chain that stops at a rejected fetch. *)
Lemma reached_stops pre bad post e :
  (forall n, In n pre -> exists v, answer (VNum n) = inl v) ->
  answer (VNum bad) = inr e ->
  reached answer (pre ++ bad :: post) = pre ++ [bad] /\
  first_failure answer (pre ++ bad :: post) = Some e.
Proof.
  intros Hpre Hbad. induction pre as [ | n pre IH]; cbn [app reached first_failure].
  - now rewrite Hbad.
  - destruct (Hpre n (or_introl eq_refl)) as [v Hv]. rewrite Hv.
    destruct IH as [IH1 IH2]; [intros m Hm; apply Hpre; now right | ].
    now rewrite IH1, IH2.
Qed.

Lemma chain_trace_rejected_at pre bad post e :
  (forall n, In n pre -> exists v, answer (VNum n) = inl v) ->
  answer (VNum bad) = inr e ->
  forall (p : PId) (t : Z),
  rejected (chain_trace delay answer t p (pre ++ bad :: post)) = [((length pre + p)%nat, e)].
Proof.
  intros Hpre Hbad. induction pre as [ | n pre IH]; intros p t.
  - cbn [app chain_trace]. unfold settle_event. rewrite Hbad. reflexivity.
  - destruct (Hpre n (or_introl eq_refl)) as [v Hv].
    change ((n :: pre) ++ bad :: post) with (n :: (pre ++ bad :: post)).
    cbn [chain_trace].
    rewrite rejected_app. unfold settle_event at 1. rewrite Hv.
    rewrite IH by (intros m Hm; apply Hpre; now right).
    cbn. repeat f_equal. lia.
Qed.
End ChainLaws.

(** A chain none of whose fetches is rejected reaches every id. *)
Lemma reached_no_failure (answer : Val -> Val + Val) ids :
  first_failure answer ids = None -> reached answer ids = ids.
Proof.
  induction ids as [ | n rest IH]; cbn [first_failure reached]; [reflexivity | ].
  destruct (answer (VNum n)); [intros H; now rewrite IH | discriminate].
Qed.

Lemma reached_all (value : Val -> Val) ids :
  reached (fun id => inl (value id)) ids = ids /\
  first_failure (fun id => inl (value id)) ids = None.
Proof. induction ids as [ | n rest [IH1 IH2]]; cbn; [ | rewrite IH1]; auto. Qed.

Lemma chain_trace_resolved delay (value : Val -> Val) ids : forall t p,
  resolved (chain_trace delay (fun id => inl (value id)) t p ids) =
  imap (fun i n => ((p + i)%nat, value (VNum n))) ids.
Proof.
  induction ids as [ | n rest IH]; intros t p; [reflexivity | ].
  cbn [chain_trace imap]. rewrite resolved_app, IH, Nat.add_0_r.
  cbn [resolved omap settle_event app]. f_equal.
  apply imap_ext. intros i m _. cbn. f_equal. lia.
Qed.

(** The fetch promises of a chain are made after the chain's own. *)
Lemma later_ids_filtered {A} (g : A -> Val) (l : list A) : forall (q r : nat),
  (r < q)%nat ->
  List.filter (fun pv : nat * Val => Nat.eqb (fst pv) r)
    (imap (fun i n => ((q + i)%nat, g n)) l) = [].
Proof.
  induction l as [ | n rest IH]; intros q r Hlt; [reflexivity | ].
  cbn [imap List.filter fst]. rewrite Nat.add_0_r.
  destruct (Nat.eqb_spec q r) as [-> | _]; [lia | ].
  rewrite <- (IH (S q) r) by lia. f_equal. apply imap_ext. intros i m _. cbn.
  f_equal. lia.
Qed.

(** The script's own chain from a fresh loop: at every point of the run its
    promise is pending or fulfilled with [undefined]. *)
Lemma getAllData_boot_outcomes (fuel : nat) :
  outcome 0%nat (run fuel (call getAllData boot)) = Some (Pending []) \/
  outcome 0%nat (run fuel (call getAllData boot)) = Some (Fulfilled VUndefined).
Proof.
  do 6 (destruct fuel as [ | fuel]; [left; vm_compute; reflexivity | ]).
  right. change (S (S (S (S (S (S fuel)))))) with (6 + fuel)%nat.
  rewrite run_add, run_quiet; [ | split]; vm_compute; reflexivity.
Qed.

(** ** The script's claims *)

(** C1, as stated, fails on the script: the chain never produces a sequence
    of values; at no point of the run is its promise fulfilled with an
    array. *)
Lemma C1_no_sequence_result :
  ~ exists (fuel : nat) (vals : list Val),
      outcome 0%nat (run fuel (call getAllData boot)) = Some (Fulfilled (VArr vals)).
Proof.
  intros (fuel & vals & H).
  destruct (getAllData_boot_outcomes fuel) as [E | E]; rewrite E in H; discriminate.
Qed.

(** C1, amended: for every list of ids the await chain issues the fetches
    in input order, each one settled before the next is issued; the fetch
    promises, in the order of the ids, hold the fetched values, and the
    values were resolved in that order.  The chain's own promise is
    fulfilled with [undefined]. *)
Theorem C1_chain_fetches_in_input_order
    (delay : Val -> Z) (value : Val -> Val) (ids : list Z) (s : Loop) :
  quiet s ->
  let r := length (promises s) in
  let s' := run (2 * length ids)
                (call (getAllDataOf (delayedSource delay (fun id => inl (value id))) ids) s) in
  quiet s' /\
  promises s' =
    promises s ++ Fulfilled VUndefined :: map (fun n => Fulfilled (value (VNum n))) ids /\
  exists added,
    trace s' = trace s ++ added /\
    one_at_a_time false added = true /\
    resolved added =
      imap (fun i n => ((S r + i)%nat, value (VNum n))) ids ++ [(r, VUndefined)].
Proof.
  intros Hq r s'.
  destruct (reached_all value ids) as [Hr Hf].
  assert (E : s' = chain_final delay (fun id => inl (value id)) ids s).
  { subst s'. rewrite <- Hr at 1. apply getAllDataOf_run, Hq. }
  rewrite E. clear E s'.
  unfold chain_final, chain_result, chain_result_event. rewrite Hf, Hr.
  split; [split; reflexivity | ]. split; [reflexivity | ].
  eexists. split; [reflexivity | ]. split.
  - apply one_at_a_time_app; [apply chain_trace_serial | reflexivity].
  - rewrite resolved_app, chain_trace_resolved. reflexivity.
Qed.

Lemma C1_chain_fetches_in_input_order_witness :
  quiet boot /\
  promises (run 6 (call getAllData boot)) =
    [Fulfilled VUndefined; Fulfilled (VNum 200); Fulfilled (VNum 200); Fulfilled (VNum 200)].
Proof.
  split; [split; reflexivity | ].
  exact (proj1 (proj2 (C1_chain_fetches_in_input_order
                         (fun _ => 3000) (fun _ => VNum 200) [1; 2; 3] boot
                         (conj eq_refl eq_refl)))).
Defined.

(** C2, as stated, fails on the script: the composed result of the run over
    the ids 1, 2, 3 is never [[200, 200, 200]]. *)
Lemma C2_result_is_not_the_values :
  ~ exists fuel : nat,
      outcome 0%nat (run fuel (call getAllData boot)) =
      Some (Fulfilled (VArr [VNum 200; VNum 200; VNum 200])).
Proof.
  intros (fuel & H).
  destruct (getAllData_boot_outcomes fuel) as [E | E]; rewrite E in H; discriminate.
Qed.

(** C2, amended: the script's run over the ids 1, 2, 3 (3000 ms per fetch,
    no timeout cap) ends after 9000 ms; the three fetches were resolved
    with 200, 200, 200 in this order and the chain itself with
    [undefined]; and a fetch resolves with 200 whatever its id. *)
Theorem C2_script_run :
  let s := run 6 (call getAllData boot) in
  tick s = None /\
  now s = 9000 /\
  resolved (trace s) =
    [(1%nat, VNum 200); (2%nat, VNum 200); (3%nat, VNum 200); (0%nat, VUndefined)] /\
  outcome 0%nat s = Some (Fulfilled VUndefined) /\
  forall dataID : Val,
    outcome 0%nat (run 1 (call (getData dataID) boot)) = Some (Fulfilled (VNum 200)).
Proof.
  repeat split; try (vm_compute; reflexivity).
Qed.

(** C3, as stated, fails on the script: with a cap of 1000 ms, below the
    fetch's 3000 ms, the fetch of id 1 is never rejected. *)
Lemma C3_no_timeout_failure : ~ timeout_contract 1000 (VNum 1).
Proof.
  intros H. specialize (H 3000 (or_introl eq_refl)).
  change (exists (fuel : nat) (e : Val),
            outcome 0%nat (run fuel (call (getData (VNum 1)) boot)) = Some (Rejected e)) in H.
  destruct H as (fuel & e & H).
  destruct fuel as [ | fuel].
  - vm_compute in H. discriminate.
  - rewrite getData_source, source_run in H by (split; reflexivity).
    vm_compute in H. discriminate.
Qed.

(** C3, amended: there is no timeout cap in the script; for every id the
    fetch sets one timer of 3000 ms and, when it fires, is fulfilled with
    200, so no fetch fails with a TimeoutError. *)
Theorem C3_fetch_fulfils_after_3000 (dataID : Val) (s : Loop) :
  quiet s ->
  let p := length (promises s) in
  let s' := run 1 (call (getData dataID) s) in
  quiet s' /\
  now s' = now s + 3000 /\
  outcome p s' = Some (Fulfilled (VNum 200)) /\
  trace s' = trace s ++ [TimerSet (now s) 3000; Printed Log [VStr "data"; dataID];
                         ResolveCalled (now s + 3000) p (VNum 200)].
Proof.
  intros Hq p s'. subst p s'. rewrite getData_source, source_run by exact Hq.
  unfold fetched, outcome. cbn.
  repeat split. apply lookup_fresh.
Qed.

Lemma C3_fetch_fulfils_after_3000_witness :
  quiet boot /\
  outcome 0%nat (run 1 (call (getData (VNum 1)) boot)) = Some (Fulfilled (VNum 200)).
Proof.
  split; [split; reflexivity | ].
  exact (proj1 (proj2 (proj2 (C3_fetch_fulfils_after_3000 (VNum 1) boot
                                (conj eq_refl eq_refl))))).
Defined.

(** C4: in the await chain, when the fetch at position [k] (counted from 1;
    [pre] holds the [k - 1] ids before it) is the first to be rejected, the
    run issues exactly [k] fetches ([k] timers set, [k] fetch promises
    made), none for the ids after it, and the chain's promise is rejected
    with that fetch's error: the caller gets the failure and no values. *)
Theorem C4_chain_stops_at_first_failure
    (delay : Val -> Z) (answer : Val -> Val + Val)
    (pre : list Z) (bad : Z) (post : list Z) (e : Val) (s : Loop) :
  quiet s ->
  (forall n, In n pre -> exists v, answer (VNum n) = inl v) ->
  answer (VNum bad) = inr e ->
  let k := S (length pre) in
  let r := length (promises s) in
  let s' := run (2 * k)
                (call (getAllDataOf (delayedSource delay answer) (pre ++ bad :: post)) s) in
  quiet s' /\
  timers_set (trace s') = (timers_set (trace s) + k)%nat /\
  length (promises s') = (length (promises s) + 1 + k)%nat /\
  outcome r s' = Some (Rejected e) /\
  rejected (trace s') = rejected (trace s) ++ [(S (length pre + r), e); (r, e)].
Proof.
  intros Hq Hpre Hbad k r s'.
  destruct (reached_stops answer pre bad post e Hpre Hbad) as [Hr Hf].
  assert (Hk : k = length (reached answer (pre ++ bad :: post))).
  { rewrite Hr, length_app. subst k. simpl. lia. }
  assert (E : s' = chain_final delay answer (pre ++ bad :: post) s).
  { subst s'. rewrite Hk. apply getAllDataOf_run, Hq. }
  rewrite E. clear E s'.
  split; [apply chain_final_quiet | ].
  split; [ | split; [ | split]].
  - unfold chain_final. cbn [trace]. rewrite !timers_set_app, chain_trace_timers, <- Hk.
    unfold chain_result_event. rewrite Hf. cbn. lia.
  - unfold chain_final. cbn [promises].
    rewrite length_app. cbn [length]. rewrite length_map, <- Hk. lia.
  - unfold r. rewrite chain_final_outcome. unfold chain_result. now rewrite Hf.
  - unfold chain_final. cbn [trace]. rewrite !rejected_app. f_equal.
    unfold chain_result_event. rewrite Hf.
    change (rejected [RejectCalled (chain_end delay answer (now s) (pre ++ bad :: post))
                        (length (promises s)) e]) with [(length (promises s), e)].
    fold r.
    change [(S (length pre + r), e); (r, e)] with ([(S (length pre + r), e)] ++ [(r, e)]).
    f_equal.
    rewrite (chain_trace_rejected_at delay answer pre bad post e Hpre Hbad).
    repeat f_equal. lia.
Qed.

Lemma C4_chain_stops_at_first_failure_witness :
  let answer := fun id => match id with VNum 2 => inr (VStr "down") | _ => inl (VNum 200) end in
  let s' := run 4 (call (getAllDataOf (delayedSource (fun _ => 3000) answer) [1; 2; 3]) boot) in
  timers_set (trace s') = 2%nat /\ outcome 0%nat s' = Some (Rejected (VStr "down")).
Proof.
  intros answer s'.
  assert (Hpre : forall n, In n [1] -> exists v, answer (VNum n) = inl v).
  { intros n [<- | []]. eexists. reflexivity. }
  pose proof (C4_chain_stops_at_first_failure (fun _ => 3000) answer [1] 2 [3]
                (VStr "down") boot (conj eq_refl eq_refl) Hpre eq_refl) as H.
  split; [exact (proj1 (proj2 H)) | exact (proj1 (proj2 (proj2 (proj2 H))))].
Defined.

(** The await chain is deterministic in its arguments.  Two calls with
    the same fetch behaviour and the same ids, made in any two quiet loop
    states (another clock, other promises and earlier output), end with
    the same result, the same fetched outcomes in the same order and the
    same printed lines; only the time stamps may differ. *)
Lemma chain_deterministic
    (delay : Val -> Z) (answer : Val -> Val + Val) (ids : list Z) (s1 s2 : Loop) :
  quiet s1 ->
  quiet s2 ->
  let f := getAllDataOf (delayedSource delay answer) ids in
  let fuel := (2 * length (reached answer ids))%nat in
  let s1' := run fuel (call f s1) in
  let s2' := run fuel (call f s2) in
  outcome (length (promises s1)) s1' = outcome (length (promises s2)) s2' /\
  drop (length (promises s1)) (promises s1') = drop (length (promises s2)) (promises s2') /\
  drop (length (printed (trace s1))) (printed (trace s1')) =
  drop (length (printed (trace s2))) (printed (trace s2')).
Proof.
  intros Hq1 Hq2 f fuel s1' s2'.
  assert (E1 : s1' = chain_final delay answer ids s1) by apply getAllDataOf_run, Hq1.
  assert (E2 : s2' = chain_final delay answer ids s2) by apply getAllDataOf_run, Hq2.
  rewrite E1, E2. clear E1 E2 s1' s2'.
  split; [now rewrite !chain_final_outcome | ].
  unfold chain_final. cbn [promises trace].
  rewrite !drop_app_length, !printed_app, !drop_app_length, !chain_trace_printed.
  split; [reflexivity | ].
  unfold chain_result_event. destruct (first_failure answer ids); reflexivity.
Qed.

(** C8: the lines the await chain prints are, for each id whose fetch is
    issued, in input order, the announcement of the id followed by the
    completion line of that id; no line of a later id comes before the
    completion line of an earlier one.  When no fetch is rejected, as with
    [getData], these are the lines of all the ids. *)
Theorem C8_chain_lines_in_request_order
    (delay : Val -> Z) (answer : Val -> Val + Val) (ids : list Z) (s : Loop) :
  quiet s ->
  let lines := printed (trace (run (2 * length (reached answer ids))
                                   (call (getAllDataOf (delayedSource delay answer) ids) s))) in
  lines = printed (trace s) ++ flat_map chain_lines (reached answer ids) /\
  (first_failure answer ids = None ->
   lines = printed (trace s) ++ flat_map chain_lines ids).
Proof.
  intros Hq lines.
  assert (E : lines = printed (trace s) ++ flat_map chain_lines (reached answer ids)).
  { subst lines. rewrite getAllDataOf_run by exact Hq.
    unfold chain_final. cbn [trace].
    rewrite !printed_app, chain_trace_printed.
    unfold chain_result_event.
    destruct (first_failure answer ids); cbn; now rewrite app_nil_r. }
  split; [exact E | ].
  intros Hnone. rewrite E. now rewrite (reached_no_failure answer ids Hnone).
Qed.

Lemma C8_chain_lines_in_request_order_witness :
  quiet boot /\
  printed (trace (run 6 (call getAllData boot))) =
  [(Log, [VStr "getting data 1"]); (Log, [VStr "data"; VNum 1]);
   (Log, [VStr "getting data 2"]); (Log, [VStr "data"; VNum 2]);
   (Log, [VStr "getting data 3"]); (Log, [VStr "data"; VNum 3])].
Proof.
  split; [split; reflexivity | ].
  exact (proj2 (C8_chain_lines_in_request_order (fun _ => 3000) (fun _ => inl (VNum 200))
                  [1; 2; 3] boot (conj eq_refl eq_refl)) eq_refl).
Defined.

(** C9: for every [dataID], at every point of the run the promise made by
    [getData] is pending or fulfilled, never rejected: no call of [reject]
    is ever recorded, after the first turn of the loop the promise is
    fulfilled with 200, and a caller that awaits it resumes on its normal
    path, whatever its error path [kthrow] is. *)
Theorem C9_getData_always_fulfils (dataID : Val) (s : Loop) (fuel : nat) :
  quiet s ->
  let p := length (promises s) in
  let s' := run fuel (call (getData dataID) s) in
  rejected (trace s') = rejected (trace s) /\
  (forall e, outcome p s' <> Some (Rejected e)) /\
  ((1 <= fuel)%nat -> outcome p s' = Some (Fulfilled (VNum 200))) /\
  forall (k kthrow kret : Val -> Prog),
    run 2 (exec (await (getData dataID) k kthrow kret) s) =
    exec (k (VNum 200)) (fetched (fun _ => 3000) (fun _ => inl (VNum 200)) dataID s).
Proof.
  intros Hq p s'. subst p s'. rewrite getData_source.
  split; [ | split; [ | split]].
  - destruct fuel as [ | fuel].
    + cbn [run]. rewrite source_call by exact Hq. cbn [trace].
      rewrite rejected_app. cbn. now rewrite app_nil_r.
    + rewrite source_run by exact Hq. unfold fetched. cbn [trace].
      rewrite rejected_app. cbn. now rewrite app_nil_r.
  - intros e. destruct fuel as [ | fuel].
    + cbn [run]. rewrite source_call by exact Hq. unfold outcome. cbn [promises].
      rewrite lookup_fresh. discriminate.
    + rewrite source_run by exact Hq. unfold outcome, fetched. cbn [promises].
      rewrite lookup_fresh. discriminate.
  - intros Hf. destruct fuel as [ | fuel]; [lia | ].
    rewrite source_run by exact Hq. unfold outcome, fetched. cbn [promises].
    now rewrite lookup_fresh.
  - intros k kthrow kret. now rewrite fetch_await by exact Hq.
Qed.

Lemma C9_getData_always_fulfils_witness :
  quiet boot /\
  forall e, outcome 0%nat (run 1 (call (getData (VNum 1)) boot)) <> Some (Rejected e).
Proof.
  split; [split; reflexivity | ].
  exact (proj1 (proj2 (C9_getData_always_fulfils (VNum 1) boot 1 (conj eq_refl eq_refl)))).
Defined.

(** C10: the await chain discards what its fetches resolve with.  Whatever
    values (and after whatever delays) the fetches yield, the promise of
    the chain is fulfilled with [undefined] and [resolve] is called on it
    once, with [undefined]; this holds of [getAllData], the chain on the
    ids 1, 2, 3 with [getData]. *)
Theorem C10_chain_resolves_with_undefined
    (delay : Val -> Z) (value : Val -> Val) (ids : list Z) (s : Loop) :
  quiet s ->
  let r := length (promises s) in
  let s' := run (2 * length ids)
                (call (getAllDataOf (delayedSource delay (fun id => inl (value id))) ids) s) in
  outcome r s' = Some (Fulfilled VUndefined) /\
  List.filter (fun pv => Nat.eqb (fst pv) r) (resolved (trace s')) =
  List.filter (fun pv => Nat.eqb (fst pv) r) (resolved (trace s)) ++ [(r, VUndefined)].
Proof.
  intros Hq r s'.
  destruct (reached_all value ids) as [Hr Hf].
  assert (E : s' = chain_final delay (fun id => inl (value id)) ids s).
  { subst s'. rewrite <- Hr at 1. apply getAllDataOf_run, Hq. }
  rewrite E. clear E s'. split.
  - unfold r. rewrite chain_final_outcome. unfold chain_result. now rewrite Hf.
  - unfold chain_final, chain_result_event. rewrite Hf. cbn [trace].
    rewrite !resolved_app, chain_trace_resolved, !List.filter_app. fold r.
    f_equal.
    rewrite later_ids_filtered by lia. cbn. now rewrite Nat.eqb_refl.
Qed.

Lemma C10_chain_resolves_with_undefined_witness :
  quiet boot /\ outcome 0%nat (run 6 (call getAllData boot)) = Some (Fulfilled VUndefined).
Proof.
  split; [split; reflexivity | ].
  exact (proj1 (C10_chain_resolves_with_undefined (fun _ => 3000) (fun _ => VNum 200)
                  [1; 2; 3] boot (conj eq_refl eq_refl))).
Defined.


(** ** The tolerant chain of the guide *)

Section Tolerant.
Variables dbDelay postsDelay commentsDelay : Val -> Z.
Variables dbAnswer postsAnswer commentsAnswer : Val -> Val + Val.
Variable coerced : Val -> bool.
Variable userId : Val.
Variable s : Loop.

(** The first stage is rejected: the error is logged and thrown again. *)
Lemma robust_first_stage_fails (e : Val) :
  quiet s ->
  dbAnswer userId = inr e ->
  let s' := run 6 (call (robustGetUserData dbDelay postsDelay commentsDelay
                           dbAnswer postsAnswer commentsAnswer coerced userId) s) in
  quiet s' /\ outcome (length (promises s)) s' = Some (Rejected e).
Proof.
  intros Hq H1 s'. subst s'.
  unfold robustGetUserData. rewrite call_async.
  unfold try_catch, bind, fetchFromDatabase, fetchUserPosts, fetchPostComments. cbv beta.
  fetch_step. rewrite H1. js_step.
  finish. split; assumption.
Qed.

(** The second stage fails: posts and comments are the empty defaults and
    no third fetch is issued. *)
Lemma robust_second_stage_fails (user : Val) :
  quiet s ->
  dbAnswer userId = inl user ->
  second_stage_fails postsAnswer user ->
  let s' := run 6 (call (robustGetUserData dbDelay postsDelay commentsDelay
                           dbAnswer postsAnswer commentsAnswer coerced userId) s) in
  quiet s' /\
  outcome (length (promises s)) s' =
    Some (Fulfilled (VObj [("user", user); ("posts", VArr []); ("comments", VArr [])])) /\
  (timers_set (trace s') <= timers_set (trace s) + 2)%nat.
Proof.
  intros Hq H1 H2 s'. subst s'. unfold second_stage_fails in H2.
  unfold robustGetUserData. rewrite call_async.
  unfold try_catch, bind, fetchFromDatabase, fetchUserPosts, fetchPostComments. cbv beta.
  fetch_step. rewrite H1.
  destruct (get_prop user "id") as [id | err].
  - destruct H2 as [e H2]. js_step. fetch_step. rewrite H2.
    js_step. change (get_prop (VArr []) "length") with (@inl Val Val (VNum 0)).
    js_step. change (gt_zero coerced (VNum 0)) with false. js_step.
    finish. split; [assumption | split; [assumption | lia]].
  - js_step. change (get_prop (VArr []) "length") with (@inl Val Val (VNum 0)).
    js_step. change (gt_zero coerced (VNum 0)) with false. js_step.
    finish. split; [assumption | split; [assumption | lia]].
Qed.

(** The first stage is fulfilled: whatever the later stages do, the
    function returns an object with the user in it. *)
Lemma robust_first_stage_ok (user : Val) :
  quiet s ->
  dbAnswer userId = inl user ->
  let s' := run 6 (call (robustGetUserData dbDelay postsDelay commentsDelay
                           dbAnswer postsAnswer commentsAnswer coerced userId) s) in
  quiet s' /\
  exists posts comments,
    outcome (length (promises s)) s' =
    Some (Fulfilled (VObj [("user", user); ("posts", posts); ("comments", comments)])).
Proof.
  intros Hq H1 s'. subst s'.
  unfold robustGetUserData. rewrite call_async.
  unfold try_catch, bind, fetchFromDatabase, fetchUserPosts, fetchPostComments. cbv beta.
  fetch_step. rewrite H1.
  destruct (get_prop user "id") as [id | err]; js_step;
    [fetch_step; destruct (postsAnswer id) as [posts | e]; js_step | ].
  all: match goal with |- context [get_prop ?p "length"] =>
         destruct (get_prop p "length") as [len | err']; js_step;
         [destruct (gt_zero coerced len); js_step;
          [destruct (get_index p 0) as [post | err'']; js_step;
           [destruct (get_prop post "id") as [pid | err3]; js_step;
            [fetch_step; destruct (commentsAnswer pid); js_step | ] | ] | ] | ] end.
  all: finish; split; [assumption | eauto].
Qed.
End Tolerant.

(** C5: in [robustGetUserData] only the first stage is mandatory.  If it
    is rejected, the function rejects with its error.  If it is fulfilled,
    the function is fulfilled with an object that holds the user, whatever
    the later stages do; and when the second stage fails, the posts are the
    empty default, the third stage is skipped (at most the two fetches of
    the first stages are issued) and the comments are the empty default. *)
Theorem C5_tolerant_chain_survives_second_stage
    (dbDelay postsDelay commentsDelay : Val -> Z)
    (dbAnswer postsAnswer commentsAnswer : Val -> Val + Val)
    (coerced : Val -> bool) (userId : Val) (s : Loop) :
  quiet s ->
  let r := length (promises s) in
  let s' := run 6 (call (robustGetUserData dbDelay postsDelay commentsDelay
                           dbAnswer postsAnswer commentsAnswer coerced userId) s) in
  quiet s' /\
  match dbAnswer userId with
  | inr e => outcome r s' = Some (Rejected e)
  | inl user =>
      (exists posts comments,
         outcome r s' =
         Some (Fulfilled (VObj [("user", user); ("posts", posts); ("comments", comments)]))) /\
      (second_stage_fails postsAnswer user ->
         outcome r s' =
         Some (Fulfilled (VObj [("user", user); ("posts", VArr []); ("comments", VArr [])])) /\
         (timers_set (trace s') <= timers_set (trace s) + 2)%nat)
  end.
Proof.
  intros Hq r s'. subst r s'.
  destruct (dbAnswer userId) as [user | e] eqn:H1.
  - destruct (robust_first_stage_ok dbDelay postsDelay commentsDelay dbAnswer postsAnswer
                commentsAnswer coerced userId s user Hq H1) as [Hquiet Hok].
    split; [exact Hquiet | ]. split; [exact Hok | ].
    intros H2.
    exact (proj2 (robust_second_stage_fails dbDelay postsDelay commentsDelay dbAnswer
                    postsAnswer commentsAnswer coerced userId s user Hq H1 H2)).
  - exact (robust_first_stage_fails dbDelay postsDelay commentsDelay dbAnswer postsAnswer
             commentsAnswer coerced userId s e Hq H1).
Qed.

Lemma C5_tolerant_chain_survives_second_stage_witness :
  let user := VObj [("id", VNum 7)] in
  quiet boot /\
  second_stage_fails (fun _ => inr (VStr "no posts")) user /\
  outcome 0%nat
    (run 6 (call (robustGetUserData (fun _ => 5) (fun _ => 5) (fun _ => 5)
                    (fun _ => inl user) (fun _ => inr (VStr "no posts"))
                    (fun _ => inl (VArr [VStr "c"])) (fun _ => false) (VNum 7)) boot)) =
  Some (Fulfilled (VObj [("user", user); ("posts", VArr []); ("comments", VArr [])])).
Proof.
  intros user.
  assert (H2 : second_stage_fails (fun _ => inr (VStr "no posts")) user)
    by (exists (VStr "no posts"); reflexivity).
  split; [split; reflexivity | ]. split; [exact H2 | ].
  exact (proj1 (proj2 (proj2 (C5_tolerant_chain_survives_second_stage
                                (fun _ => 5) (fun _ => 5) (fun _ => 5)
                                (fun _ => inl user) (fun _ => inr (VStr "no posts"))
                                (fun _ => inl (VArr [VStr "c"])) (fun _ => false)
                                (VNum 7) boot (conj eq_refl eq_refl))) H2)).
Defined.

(** ** The parallel fetches of the guide *)

Lemma is_zero_of_nat (k : nat) : is_zero (VNum (Z.of_nat k)) = Nat.eqb k 0.
Proof. now destruct k. Qed.

Lemma all_in_length (todo : list nat) (k : nat) :
  NoDup todo -> (forall i, i ∈ todo <-> (i < k)%nat) -> length todo = k.
Proof.
  intros Hnd Hin.
  assert (P : todo ≡ₚ List.seq 0 k).
  { apply NoDup_Permutation; [exact Hnd | apply NoDup_seq | ].
    intros i. rewrite Hin, elem_of_seq. lia. }
  rewrite P. apply length_seq.
Qed.

(** A list that holds at every index the value of the id at that index is
    the list of the values in the order of the ids. *)
Lemma values_complete (b : Batch) (V : list Val) :
  length V = batch_size b ->
  (forall i, (i < batch_size b)%nat -> V !! i = Some (valueAt b i)) ->
  V = map (value_of b) (ids_of b).
Proof.
  intros Hl HV. apply list_eq. intros i. unfold batch_size in *.
  destruct (decide (i < length (ids_of b))%nat) as [Hi | Hi].
  - rewrite (HV i Hi), list_lookup_fmap. unfold valueAt, idAt.
    destruct (lookup_lt_is_Some_2 (ids_of b) i Hi) as [x Hx]. now rewrite Hx.
  - rewrite !lookup_ge_None_2; [reflexivity | rewrite length_map; lia | lia].
Qed.

(** Phase 1: [map] issues the fetches, one timer each; a new timer goes
    somewhere into the queue. *)
Lemma insert_timer_of (b : Batch) (j : nat) (todo : list nat) :
  exists l1 l2, todo = l1 ++ l2 /\
    insert_timer (fst (timer_of b j)) (snd (timer_of b j)) (map (timer_of b) todo) =
    map (timer_of b) (l1 ++ j :: l2).
Proof.
  induction todo as [ | i todo (l1 & l2 & E & IH)].
  - exists [], []. split; reflexivity.
  - cbn [map insert_timer].
    destruct (timer_of b i) as [d c] eqn:Ei.
    destruct (d <=? fst (timer_of b j)).
    + exists (i :: l1), l2. split; [now rewrite E | ].
      rewrite IH. cbn [app map]. now rewrite Ei.
    + exists [], (i :: todo). split; [reflexivity | ].
      cbn [app map]. rewrite Ei. now destruct (timer_of b j).
Qed.

Lemma issued_start (b : Batch) : quiet (in_loop b) -> Issued b 0 (alloc (in_loop b)).
Proof.
  intros [Ht Hj]. split; try reflexivity; try assumption.
  - unfold slot, result_promise. cbn [alloc promises]. rewrite length_app. cbn. lia.
  - apply alloc_awaited.
  - intros i Hi. lia.
  - exists []. cbn [alloc timers]. rewrite Ht. split; [reflexivity | ].
    split; [constructor | ]. intros i. split; [intros H; inversion H | lia].
Qed.

Lemma issue_one (b : Batch) (j : nat) (id : Val) (u : Loop) :
  Issued b j u -> ids_of b !! j = Some id ->
  Issued b (S j)
    (schedule (Console Log [VStr "data"; id]
                 (Resolve (length (promises u)) (value_of b id) Done))
              (delay_of b id) (alloc u)).
Proof.
  intros [Hn Hj Hh Hl Hr Hs (todo & Ht & Hnd & Hin)] Hid.
  assert (Eid : idAt b j = id) by (unfold idAt; now rewrite Hid).
  split; cbn [schedule alloc now timers jobs promises heap]; try assumption.
  - rewrite length_app, Hl. unfold slot. cbn. lia.
  - apply lookup_app_l_Some, Hr.
  - intros i Hi. unfold awaited. cbn [promises].
    destruct (decide (i = j)) as [-> | Hne].
    + rewrite <- Hl. apply lookup_fresh.
    + apply lookup_app_l_Some, Hs. lia.
  - destruct (insert_timer_of b j todo) as (l1 & l2 & E & Hins).
    exists (l1 ++ j :: l2). split; [ | split].
    + rewrite Ht, Hn, Hl. rewrite <- Eid. exact Hins.
    + subst todo. apply NoDup_app in Hnd as (N1 & N2 & N3).
      apply NoDup_app. split; [exact N1 | ]. split.
      * intros x Hx [-> | Hx2]%elem_of_cons; [ | now apply (N2 x)].
        assert (j < j)%nat by (apply Hin, elem_of_app; now left). lia.
      * constructor; [ | exact N3].
        intros Hj2. assert (j < j)%nat by (apply Hin, elem_of_app; now right). lia.
    + intros i. subst todo. rewrite elem_of_app, elem_of_cons.
      specialize (Hin i). rewrite elem_of_app in Hin. split.
      * intros [H | [-> | H]]; [ | lia | ]; (assert (i < j)%nat by tauto; lia).
      * intros Hi. destruct (decide (i = j)) as [-> | Hne]; [tauto | ].
        assert (i < j)%nat as Hlt by lia. apply Hin in Hlt. tauto.
Qed.

Lemma mapM_issue (b : Batch) (rest : list Val) :
  forall (j : nat) (u : Loop) (K : list PId -> Prog) (kthrow kret : Val -> Prog),
  Issued b j u -> drop j (ids_of b) = rest ->
  exists u', Issued b (j + length rest) u' /\
    exec (mapM (fun id => fetchFromDatabase (delay_of b) (fun id => inl (value_of b id)) id)
            rest K kthrow kret) u =
    exec (K (List.seq (slot b j) (length rest))) u'.
Proof.
  induction rest as [ | id rest IH]; intros j u K kthrow kret HI Hd.
  - exists u. split; [now rewrite Nat.add_0_r | reflexivity].
  - assert (Hid : ids_of b !! j = Some id).
    { rewrite <- (Nat.add_0_r j), <- lookup_drop, Hd. reflexivity. }
    assert (Hd' : drop (S j) (ids_of b) = rest).
    { rewrite (drop_S _ _ _ Hid) in Hd. now inversion Hd. }
    destruct (IH (S j) _ (fun ys => K (length (promises u) :: ys)) kthrow kret
                (issue_one b j id u HI Hid) Hd') as (u' & HI' & E).
    exists u'. split.
    + cbn [length]. now rewrite Nat.add_succ_r.
    + cbn [mapM]. unfold bind at 1. unfold fetchFromDatabase at 1.
      unfold delayedSource, new_Promise, setTimeout, callback, bind, console_log.
      cbn [exec]. unfold ret at 1.
      etransitivity; [exact E | ].
      rewrite (iss_len _ _ _ HI). cbn [length List.seq].
      replace (slot b (S j)) with (S (slot b j)) by (unfold slot; lia). reflexivity.
Qed.

(** Phase 2: [Promise.all] subscribes to every fetch promise. *)
Lemma promise_all_start (b : Batch) (u : Loop) (todo : list nat) :
  Issued b (batch_size b) u ->
  timers u = map (timer_of b) todo ->
  Registered b 0 1 todo (new_cell (VNum 1) (new_cell (VArr []) (alloc u))).
Proof.
  intros [Hn Hj Hh Hl Hr Hs _] Ht.
  split; cbn [new_cell alloc now timers jobs promises heap trace]; try assumption.
  - rewrite Hh. unfold values_cell. rewrite <- app_assoc.
    apply list_lookup_middle. reflexivity.
  - rewrite Hh. unfold count_cell. apply list_lookup_middle. rewrite length_app. cbn. lia.
  - apply lookup_app_l_Some, Hr.
  - unfold awaited, all_promise. cbn [promises]. rewrite <- Hl. apply lookup_fresh.
  - intros i Hi. lia.
  - intros i Hi. apply lookup_app_l_Some, Hs. lia.
Qed.

Lemma register_all (b : Batch) (ps : list PId) :
  forall (j : nat) (u : Loop) (todo : list nat) (K : Prog),
  Registered b j (1 + Z.of_nat j) todo u ->
  ps = List.seq (slot b j) (length ps) ->
  (j + length ps = batch_size b)%nat ->
  exists u', Registered b (batch_size b) (1 + Z.of_nat (batch_size b)) todo u' /\
    exec (all_elements (all_promise b) (values_cell b) (count_cell b) j ps K) u = exec K u'.
Proof.
  induction ps as [ | p ps IH]; intros j u todo K HR Hps Hlen.
  - exists u. cbn [length] in Hlen. rewrite Nat.add_0_r in Hlen. subst j.
    split; [exact HR | reflexivity].
  - cbn [length List.seq] in Hps. injection Hps as -> Hps.
    destruct HR as [Ht Hj Hv Hc Hr Ha Hd Hrest].
    cbn [all_elements exec]. rewrite Hv. cbn [default from_option id arr_push].
    assert (Hc' : heap (write_cell (values_cell b)
                          (VArr (replicate j VUndefined ++ [VUndefined])) u)
                  !! count_cell b = Some (VNum (1 + Z.of_nat j))).
    { cbn [write_cell heap].
      rewrite list_lookup_insert_ne by (unfold values_cell, count_cell; lia). exact Hc. }
    rewrite Hc'. cbn [default from_option id num_add].
    assert (Hp : awaited (slot b j) u) by (apply Hrest; cbn [length] in Hlen; lia).
    unfold subscribe at 1. cbn [write_cell promises]. unfold awaited in Hp. rewrite Hp.
    cbn [write_cell now timers jobs heap trace promises app].
    apply IH.
    + split; cbn [timers jobs heap promises]; try assumption.
      * rewrite list_lookup_insert_ne by (unfold values_cell, count_cell; lia).
        rewrite list_lookup_insert_eq by (apply lookup_lt_Some in Hv; exact Hv).
        f_equal. f_equal. change (S j) with (1 + j)%nat.
        rewrite replicate_add. cbn.
        clear. induction j; cbn; [reflexivity | now f_equal].
      * rewrite list_lookup_insert_eq.
        -- f_equal. f_equal. lia.
        -- rewrite length_insert. apply lookup_lt_Some in Hc. exact Hc.
      * unfold awaited. cbn [promises].
        rewrite list_lookup_insert_ne by (unfold slot; lia). exact Hr.
      * unfold awaited. cbn [promises].
        rewrite list_lookup_insert_ne
          by (unfold all_promise, slot; cbn [length] in Hlen; lia).
        exact Ha.
      * intros i Hi. destruct (decide (i = j)) as [-> | Hne].
        -- rewrite list_lookup_insert_eq by (apply lookup_lt_Some in Hp; exact Hp).
           reflexivity.
        -- rewrite list_lookup_insert_ne by (unfold slot; lia). apply Hd. lia.
      * intros i Hi. unfold awaited. cbn [promises].
        rewrite list_lookup_insert_ne by (unfold slot; lia). apply Hrest. lia.
    + replace (slot b (S j)) with (S (slot b j)) by (unfold slot; lia). exact Hps.
    + cbn [length] in Hlen. lia.
Qed.

(** Phase 3: the timers fire in whatever order they are queued in.  One
    fetch takes two turns: its timer callback resolves its promise, the
    element function stores the value at the index of the fetch. *)
Lemma fire (b : Batch) (i : nat) (todo : list nat) (u : Loop) :
  Waiting b (i :: todo) u ->
  match todo with
  | [] => Collected b (run 2 u)
  | _ :: _ => Waiting b todo (run 2 u)
  end.
Proof.
  intros [Ht Hj Hnd Hb (V & HV & HlV & Hdone) Hc Hr Ha Hs].
  assert (Hi : (i < batch_size b)%nat) by (apply Hb; left).
  assert (Hsi := Hs i (list_elem_of_here _ _)).
  apply NoDup_cons in Hnd as [Hni Hnd].
  change 2%nat with (1 + 1)%nat. rewrite run_add.
  assert (E1 : run 1 u =
    mkLoop (Z.max (now u) (fst (timer_of b i))) (map (timer_of b) todo)
      [resolveElement (all_promise b) (values_cell b) (count_cell b) i (valueAt b i)]
      (<[slot b i := Fulfilled (valueAt b i)]> (promises u)) (heap u)
      (trace u ++ [Printed Log [VStr "data"; idAt b i];
                   ResolveCalled (Z.max (now u) (fst (timer_of b i))) (slot b i)
                     (valueAt b i)])).
  { cbn [run]. unfold tick. rewrite Hj, Ht. cbn [map timer_of fst exec].
    unfold settle, emit. cbn [promises now timers jobs heap trace].
    rewrite Hsi. cbn [map react element fst app]. now rewrite <- app_assoc. }
  rewrite E1. clear E1. cbn [run]. unfold tick. cbn [jobs resolveElement exec heap].
  rewrite HV. cbn [default from_option id arr_set write_cell heap].
  rewrite list_lookup_insert_ne by (unfold values_cell, count_cell; lia).
  rewrite Hc. cbn [default from_option id num_add].
  replace (Z.of_nat (length (i :: todo)) + -1) with (Z.of_nat (length todo))
    by (cbn [length]; lia).
  rewrite is_zero_of_nat.
  assert (Hvals : forall j, (j < batch_size b)%nat -> j ∉ todo ->
                    <[i := valueAt b i]> V !! j = Some (valueAt b j)).
  { intros j Hj' Hnj. destruct (decide (j = i)) as [-> | Hne].
    - apply list_lookup_insert_eq. lia.
    - rewrite list_lookup_insert_ne by congruence. apply Hdone; [exact Hj' | ].
      intros [-> | H]%elem_of_cons; [congruence | contradiction]. }
  destruct todo as [ | i' todo'].
  - cbn [length Nat.eqb exec write_cell map now timers jobs promises heap trace].
    rewrite list_lookup_insert_ne by (unfold values_cell, count_cell; lia).
    rewrite list_lookup_insert_eq by (apply lookup_lt_Some in HV; exact HV).
    cbn [default from_option id].
    unfold settle, emit. cbn [write_cell promises now timers jobs heap trace].
    rewrite list_lookup_insert_ne by (unfold all_promise, slot; lia).
    rewrite Ha. cbn [map react fst app].
    rewrite (values_complete b (<[i := valueAt b i]> V)).
    + split; cbn [timers jobs]; try reflexivity.
      unfold awaited. cbn [write_cell promises].
      rewrite !list_lookup_insert_ne by (unfold all_promise, slot; lia). exact Hr.
    + now rewrite length_insert.
    + intros j Hj'. apply Hvals; [exact Hj' | ]. intros H. inversion H.
  - cbn [length Nat.eqb exec write_cell].
    split; cbn [write_cell now timers jobs promises heap trace];
      try reflexivity; try assumption.
    + intros j Hj'. apply Hb. now right.
    + exists (<[i := valueAt b i]> V). split; [ | split].
      * rewrite list_lookup_insert_ne by (unfold values_cell, count_cell; lia).
        apply list_lookup_insert_eq. apply lookup_lt_Some in HV. exact HV.
      * now rewrite length_insert.
      * exact Hvals.
    + apply list_lookup_insert_eq. rewrite length_insert.
      apply lookup_lt_Some in Hc. exact Hc.
    + unfold awaited. cbn [write_cell promises].
      rewrite list_lookup_insert_ne by (unfold slot; lia). exact Hr.
    + rewrite list_lookup_insert_ne by (unfold all_promise, slot; lia). exact Ha.
    + intros j Hj'. rewrite list_lookup_insert_ne.
      * apply Hs. now right.
      * unfold slot. intros E. assert (i = j) by lia. subst j. contradiction.
Qed.

Lemma fire_all (b : Batch) (todo : list nat) : forall u,
  todo <> [] -> Waiting b todo u -> Collected b (run (2 * length todo) u).
Proof.
  induction todo as [ | i todo IH]; intros u Hne HW; [congruence | ].
  replace (2 * length (i :: todo))%nat with (2 + 2 * length todo)%nat by (cbn; lia).
  rewrite run_add. pose proof (fire b i todo u HW) as HF.
  destruct todo as [ | i' todo'].
  - exact HF.
  - apply IH; [discriminate | exact HF].
Qed.

(** After [Promise.all] has subscribed, the body awaits its promise. *)
Lemma await_all (b : Batch) (u : Loop) (todo : list nat) :
  Registered b (batch_size b) (1 + Z.of_nat (batch_size b)) todo u ->
  NoDup todo -> (forall i, i ∈ todo <-> (i < batch_size b)%nat) ->
  Collected b
    (run (2 * batch_size b)
       (exec (GetRef (count_cell b) (fun n =>
              SetRef (count_cell b) (num_add n (-1)) (
              if is_zero (num_add n (-1))
              then GetRef (values_cell b) (fun vs =>
                     Resolve (all_promise b) vs
                       (Then (all_promise b) (collect b) (on_error b) Done))
              else Then (all_promise b) (collect b) (on_error b) Done))) u)).
Proof.
  intros [Ht Hj Hv Hc Hr Ha Hd _] Hnd Hin.
  pose proof (all_in_length todo _ Hnd Hin) as Hlen.
  cbn [exec]. rewrite Hc. cbn [default from_option id num_add].
  replace (1 + Z.of_nat (batch_size b) + -1) with (Z.of_nat (batch_size b)) by lia.
  rewrite is_zero_of_nat.
  destruct (Nat.eqb_spec (batch_size b) 0) as [En | Hpos].
  - assert (E0 : ids_of b = []) by (unfold batch_size in En; now destruct (ids_of b)).
    rewrite En in Hlen. destruct todo; [ | discriminate].
    rewrite En. cbn [exec write_cell heap Nat.mul Nat.add run].
    rewrite list_lookup_insert_ne by (unfold values_cell, count_cell; lia).
    rewrite Hv, En. cbn [default from_option id replicate].
    unfold settle, emit. cbn [write_cell promises now timers jobs heap trace].
    unfold awaited in Ha. rewrite Ha. cbn [map app].
    unfold subscribe. cbn [write_cell promises now timers jobs heap trace].
    rewrite list_lookup_insert_eq by (apply lookup_lt_Some in Ha; exact Ha).
    cbn [react fst]. split; cbn [timers jobs]; auto.
    + now rewrite Hj, E0.
    + unfold awaited. cbn [write_cell promises].
      rewrite list_lookup_insert_ne by (unfold all_promise, slot; lia). exact Hr.
  - cbn [exec write_cell]. rewrite <- Hlen at 1.
    apply fire_all; [intros ->; cbn in Hlen; lia | ].
    unfold subscribe. cbn [write_cell promises]. unfold awaited in Ha. rewrite Ha.
    split; cbn [write_cell now timers jobs promises heap trace app]; try assumption.
    + intros i Hi. now apply Hin.
    + exists (replicate (batch_size b) VUndefined). split; [ | split].
      * rewrite list_lookup_insert_ne by (unfold values_cell, count_cell; lia). exact Hv.
      * apply length_replicate.
      * intros i Hi Hni. exfalso. apply Hni, Hin. lia.
    + rewrite Hlen. apply list_lookup_insert_eq. apply lookup_lt_Some in Hc. exact Hc.
    + unfold awaited. cbn [write_cell promises].
      rewrite list_lookup_insert_ne by (unfold all_promise, slot; lia). exact Hr.
    + apply list_lookup_insert_eq. apply lookup_lt_Some in Ha. exact Ha.
    + intros i Hi. rewrite list_lookup_insert_ne.
      * apply Hd. now apply Hin.
      * apply Hin in Hi. unfold all_promise, slot. lia.
Qed.

Lemma collected_finish (b : Batch) (u : Loop) :
  Collected b u ->
  quiet (run 1 u) /\
  outcome (result_promise b) (run 1 u) =
  Some (Fulfilled (VArr (map (value_of b) (ids_of b)))).
Proof.
  intros [Ht Hj Hr]. cbn [run]. unfold tick. rewrite Hj. unfold collect. cbn [exec].
  unfold settle, emit. cbn [promises now timers jobs heap trace].
  unfold awaited in Hr. rewrite Hr. cbn [map app]. rewrite Ht.
  split; [split; reflexivity | ].
  unfold outcome. cbn [promises]. apply list_lookup_insert_eq.
  apply lookup_lt_Some in Hr. exact Hr.
Qed.

(** The three phases together: once every timer has fired, one job is left
    that hands the values, in the order of the ids, to the body. *)
Lemma getMultipleUsers_collected (delay : Val -> Z) (value : Val -> Val) (ids : list Val)
    (s : Loop) :
  quiet s ->
  Collected
    (mkBatch delay value ids s
       (fun e => Console Error [VStr "Error:"; e] (Reject (length (promises s)) e Done)))
    (run (2 * length ids)
         (call (getMultipleUsers delay (fun id => inl (value id)) ids) s)).
Proof.
  intros Hq.
  set (b := mkBatch delay value ids s
              (fun e => Console Error [VStr "Error:"; e]
                          (Reject (length (promises s)) e Done))).
  unfold getMultipleUsers. rewrite call_async.
  unfold try_catch, bind at 1. cbv beta.
  edestruct (mapM_issue b ids 0) as (u1 & HI & E);
    [apply (issued_start b), Hq | reflexivity | ].
  cbn [delay_of value_of b] in E. rewrite E. clear E.
  cbn [Nat.add] in HI.
  destruct (iss_timers _ _ _ HI) as (todo & Ht & Hnd & Hin).
  unfold bind, await, bind, await_promise, Return, Promise_all. cbn [exec].
  pose proof (iss_len _ _ _ HI) as Hl. pose proof (iss_heap _ _ _ HI) as Hh.
  replace (length (promises u1)) with (all_promise b) by (symmetry; exact Hl).
  replace (length (heap (alloc u1))) with (values_cell b)
    by (unfold values_cell; cbn [alloc heap]; now rewrite Hh).
  replace (length (heap (new_cell (VArr []) (alloc u1)))) with (count_cell b)
    by (unfold count_cell; cbn [new_cell alloc heap]; rewrite length_app, Hh; cbn; lia).
  edestruct (register_all b (List.seq (slot b 0) (length ids)) 0) as (u3 & HR & E);
    [ apply (promise_all_start b u1 todo HI Ht)
    | now rewrite length_seq
    | now rewrite length_seq
    | ].
  rewrite E. clear E.
  exact (await_all b u3 todo HR Hnd Hin).
Qed.

(** C6: [getMultipleUsers] puts every result at the index of the id it was
    fetched for.  Whatever the delays are, and so in whatever order the
    fetches complete, when no fetch is rejected the function is fulfilled
    with an array as long as the list of ids that holds at each index the
    value fetched for the id at that index: the values in the order of the
    ids. *)
Theorem C6_parallel_results_in_input_order
    (delay : Val -> Z) (value : Val -> Val) (ids : list Val) (s : Loop) :
  quiet s ->
  let r := length (promises s) in
  let s' := run (2 * length ids + 1)
                (call (getMultipleUsers delay (fun id => inl (value id)) ids) s) in
  quiet s' /\
  exists users : list Val,
    outcome r s' = Some (Fulfilled (VArr users)) /\
    length users = length ids /\
    (forall (i : nat) (id : Val), ids !! i = Some id -> users !! i = Some (value id)) /\
    users = map value ids.
Proof.
  intros Hq r s'. subst r s'. rewrite run_add.
  destruct (collected_finish _ _ (getMultipleUsers_collected delay value ids s Hq))
    as [Hquiet Hout].
  split; [exact Hquiet | ]. exists (map value ids).
  split; [exact Hout | ]. split; [apply length_map | ]. split; [ | reflexivity].
  intros i id Hid. now rewrite list_lookup_fmap, Hid.
Qed.

Lemma C6_parallel_results_in_input_order_witness :
  let delay := fun id => match id with VNum 1 => 50 | VNum 2 => 10 | _ => 30 end in
  let value := fun id => VObj [("id", id)] in
  quiet boot /\
  exists users : list Val,
    outcome 0%nat
      (run 7 (call (getMultipleUsers delay (fun id => inl (value id))
                      [VNum 1; VNum 2; VNum 3]) boot)) =
    Some (Fulfilled (VArr users)) /\
    users = [value (VNum 1); value (VNum 2); value (VNum 3)].
Proof.
  intros delay value.
  split; [split; reflexivity | ].
  destruct (C6_parallel_results_in_input_order delay value
              [VNum 1; VNum 2; VNum 3] boot (conj eq_refl eq_refl))
    as (_ & users & Hout & _ & _ & Husers).
  exists users. split; [exact Hout | exact Husers].
Defined.

(** * More properties *)

(** ** The time of the await chain *)

Lemma chain_end_elapsed delay answer ids : forall t,
  chain_end delay answer t ids = t + elapsed delay (reached answer ids).
Proof.
  induction ids as [ | n rest IH]; intros t; cbn [chain_end reached elapsed foldr].
  - lia.
  - destruct (answer (VNum n)).
    + rewrite IH. unfold elapsed. lia.
    + cbn [foldr]. lia.
Qed.

(** The await chain takes the sum of the delays of the fetches it issues:
    called in a quiet loop it leaves the loop quiet, with the clock moved
    on by that sum and the heap as it was. *)
Theorem chain_takes_the_sum_of_delays
    (delay : Val -> Z) (answer : Val -> Val + Val) (ids : list Z) (s : Loop) :
  quiet s ->
  let s' := run (2 * length (reached answer ids))
                (call (getAllDataOf (delayedSource delay answer) ids) s) in
  quiet s' /\
  now s' = now s + elapsed delay (reached answer ids) /\
  heap s' = heap s.
Proof.
  intros Hq s'. subst s'. rewrite getAllDataOf_run by exact Hq.
  split; [apply chain_final_quiet | ].
  split; [ | reflexivity].
  unfold chain_final. cbn [now]. apply chain_end_elapsed.
Qed.

Lemma chain_takes_the_sum_of_delays_witness :
  quiet (mkLoop 500 [] [] [] [] []) /\
  now (run 6 (call getAllData (mkLoop 500 [] [] [] [] []))) = 9500.
Proof.
  split; [split; reflexivity | ].
  exact (proj1 (proj2 (chain_takes_the_sum_of_delays
                         (fun _ => 3000) (fun _ => inl (VNum 200)) [1; 2; 3]
                         (mkLoop 500 [] [] [] [] []) (conj eq_refl eq_refl)))).
Defined.

(** ** The chain's promise while the chain runs *)

(** The two states inside an awaited fetch: the timer is queued; then the
    timer has fired and the job that resumes the body is queued. *)
Lemma await_issued delay answer (id : Val) (k kthrow kret : Val -> Prog) (s : Loop) :
  quiet s ->
  exists cb,
    exec (await (delayedSource delay answer id) k kthrow kret) s =
    mkLoop (now s) [(now s + Z.max 0 (delay id), cb)] []
      (promises s ++ [Pending [(k, kthrow)]]) (heap s)
      (trace s ++ [TimerSet (now s) (delay id)]).
Proof.
  intros [Ht Hj]. destruct s as [t ts js ps h tr]. simpl in Ht, Hj. subst ts js.
  eexists.
  unfold await, delayedSource, bind, new_Promise, setTimeout, await_promise.
  simpl exec. unfold alloc, schedule, subscribe. simpl.
  rewrite lookup_fresh, insert_fresh. reflexivity.
Qed.

Lemma await_fired delay answer (id : Val) (k kthrow kret : Val -> Prog) (s : Loop) :
  quiet s ->
  run 1 (exec (await (delayedSource delay answer id) k kthrow kret) s) =
  mkLoop (now s + Z.max 0 (delay id)) []
    [match answer id with inl v => k v | inr e => kthrow e end]
    (promises s ++ [settled answer id]) (heap s)
    (trace (fetched delay answer id s)).
Proof.
  intros [Ht Hj]. destruct s as [t ts js ps h tr]. simpl in Ht, Hj. subst ts js.
  unfold await, delayedSource, fetched, settled, settle_event, bind, new_Promise,
    setTimeout, await_promise, callback, console_log.
  simpl exec. unfold alloc, schedule, subscribe. simpl.
  rewrite lookup_fresh, insert_fresh. simpl.
  rewrite max_due.
  destruct (answer id) as [v | e]; simpl; unfold settle, emit; simpl;
    rewrite lookup_fresh, insert_fresh; simpl;
    rewrite <- !app_assoc; reflexivity.
Qed.

Lemma awaitEach_pending delay answer (ids : list Z) :
  forall (k : unit -> Prog) (kthrow kret : Val -> Prog) (s : Loop) (r : PId) (fuel : nat),
  quiet s -> awaited r s ->
  (fuel < 2 * length (reached answer ids))%nat ->
  awaited r (run fuel (exec (awaitEach (delayedSource delay answer) ids k kthrow kret) s)).
Proof.
  induction ids as [ | n rest IH]; intros k kthrow kret s r fuel Hq Ha Hf;
    [cbn in Hf; lia | ].
  change (exec (awaitEach (delayedSource delay answer) (n :: rest) k kthrow kret) s)
    with (exec (await (delayedSource delay answer (VNum n))
                  (fun _ => awaitEach (delayedSource delay answer) rest k kthrow kret)
                  kthrow kret)
               (emit (Printed Log [announce n]) s)).
  assert (Hq' : quiet (emit (Printed Log [announce n]) s)) by (apply emit_quiet, Hq).
  destruct fuel as [ | [ | fuel]].
  - cbn [run]. destruct (await_issued delay answer (VNum n)
                           (fun _ => awaitEach (delayedSource delay answer) rest k kthrow kret)
                           kthrow kret _ Hq') as [cb E].
    rewrite E. apply lookup_app_l_Some. exact Ha.
  - rewrite await_fired by exact Hq'. apply lookup_app_l_Some. exact Ha.
  - change (S (S fuel)) with (2 + fuel)%nat. rewrite run_add.
    rewrite fetch_await by exact Hq'.
    cbn [reached length] in Hf.
    destruct (answer (VNum n)) as [v | e].
    + apply IH.
      * apply fetched_quiet.
      * apply fetched_awaited, emit_awaited, Ha.
      * lia.
    + cbn [length] in Hf. lia.
Qed.

(** The promise of the await chain is settled by the last fetch and not
    before.  At every turn of the loop before the last issued fetch has
    been awaited it is pending, and nothing waits on it; from that turn on
    it is settled for good: rejected with the error of the first rejected
    fetch, or fulfilled with [undefined] when none is rejected. *)
Theorem chain_pending_until_last_fetch
    (delay : Val -> Z) (answer : Val -> Val + Val) (ids : list Z) (s : Loop) (fuel : nat) :
  quiet s ->
  outcome (length (promises s))
          (run fuel (call (getAllDataOf (delayedSource delay answer) ids) s)) =
  Some (if (fuel <? 2 * length (reached answer ids))%nat
        then Pending []
        else chain_result answer ids).
Proof.
  intros Hq.
  destruct (Nat.ltb_spec fuel (2 * length (reached answer ids))) as [Hf | Hf].
  - unfold getAllDataOf. rewrite call_async.
    apply (awaitEach_pending delay answer ids); [apply alloc_quiet, Hq | | exact Hf].
    apply alloc_awaited.
  - replace fuel with (2 * length (reached answer ids)
                       + (fuel - 2 * length (reached answer ids)))%nat by lia.
    rewrite run_add, getAllDataOf_run by exact Hq.
    rewrite run_quiet by apply chain_final_quiet.
    apply chain_final_outcome.
Qed.

Lemma chain_pending_until_last_fetch_witness :
  quiet boot /\
  outcome 0%nat (run 5 (call getAllData boot)) = Some (Pending []) /\
  outcome 0%nat (run 6 (call getAllData boot)) = Some (Fulfilled VUndefined).
Proof.
  split; [split; reflexivity | ]. split.
  - exact (chain_pending_until_last_fetch (fun _ => 3000) (fun _ => inl (VNum 200))
             [1; 2; 3] boot 5 (conj eq_refl eq_refl)).
  - exact (chain_pending_until_last_fetch (fun _ => 3000) (fun _ => inl (VNum 200))
             [1; 2; 3] boot 6 (conj eq_refl eq_refl)).
Defined.

(** ** What a finished body leaves behind *)

Lemma finish_full (n : nat) (r : PId) (o : PState) (ev : Event) (s : Loop) :
  quiet s -> awaited r s ->
  let s' := run n (settle r o (emit ev s)) in
  quiet s' /\ outcome r s' = Some o /\ now s' = now s /\
  trace s' = trace s ++ [ev] /\ heap s' = heap s.
Proof.
  intros [Ht Hj] Ha s'. subst s'. destruct s as [t ts js ps h tr].
  unfold awaited in Ha. cbn [timers jobs promises] in Ht, Hj, Ha. subst ts js.
  unfold settle, emit. cbn [promises]. rewrite Ha. cbn.
  rewrite run_quiet by (split; reflexivity).
  split; [split; reflexivity | ]. split; [ | repeat split].
  unfold outcome. cbn [promises]. apply list_lookup_insert_eq.
  apply lookup_lt_Some in Ha. exact Ha.
Qed.

Lemma printed_alloc s : printed (trace (alloc s)) = printed (trace s).
Proof. reflexivity. Qed.

Lemma printed_emit lvl args s :
  printed (trace (emit (Printed lvl args) s)) = printed (trace s) ++ [(lvl, args)].
Proof. cbn [emit trace]. now rewrite printed_app. Qed.

Lemma printed_fetched delay answer id s :
  printed (trace (fetched delay answer id s)) =
  printed (trace s) ++ [(Log, [VStr "data"; id])].
Proof.
  unfold fetched. cbn [trace]. rewrite printed_app. f_equal.
  unfold settle_event. now destruct (answer id).
Qed.

Lemma printed_settled (t : list Event) (ev : Event) :
  match ev with Printed _ _ => False | _ => True end ->
  printed (t ++ [ev]) = printed t.
Proof. intros H. rewrite printed_app. destruct ev; [contradiction | ..]; apply app_nil_r. Qed.

Lemma timers_set_settled (t : list Event) (ev : Event) :
  is_timer_set ev = false -> timers_set (t ++ [ev]) = timers_set t.
Proof.
  intros H. rewrite timers_set_app. unfold timers_set at 2. cbn [List.filter].
  rewrite H. cbn. lia.
Qed.

Lemma now_alloc s : now (alloc s) = now s.
Proof. reflexivity. Qed.

Lemma now_emit ev s : now (emit ev s) = now s.
Proof. reflexivity. Qed.

Lemma now_fetched delay answer id s :
  now (fetched delay answer id s) = now s + Z.max 0 (delay id).
Proof. reflexivity. Qed.

(** [finish_all]: the facts about the loop once the body has settled its
    own promise, in terms of the loop at the call. *)
Ltac finish_with n r o ev s :=
  let Hquiet := fresh "Hquiet" in
  let Hout := fresh "Hout" in
  let Hnow := fresh "Hnow" in
  let Htrace := fresh "Htrace" in
  let Hheap := fresh "Hheap" in
  destruct (finish_full n r o ev s) as (Hquiet & Hout & Hnow & Htrace & Hheap);
  [auto 10 with loop .. | ];
  rewrite ?Hnow, ?Htrace;
  rewrite ?printed_settled, ?timers_set_settled by exact I || reflexivity;
  rewrite ?printed_emit, ?printed_fetched, ?printed_alloc,
    ?timers_set_printed, ?timers_set_fetched, ?timers_set_alloc,
    ?now_emit, ?now_fetched, ?now_alloc.

Ltac finish_all :=
  match goal with
  | |- context [run ?n (settle ?r ?o (emit ?ev ?s))] => finish_with n r o ev s
  | |- context [settle ?r ?o (emit ?ev ?s)] =>
      change (settle r o (emit ev s)) with (run 0 (settle r o (emit ev s)));
      finish_with 0%nat r o ev s
  end.

Ltac close :=
  repeat match goal with
         | |- _ /\ _ => split; [first [assumption | reflexivity | lia] | ]
         end;
  first [assumption | reflexivity | lia].

Section RobustMore.
Variables dbDelay postsDelay commentsDelay : Val -> Z.
Variables dbAnswer postsAnswer commentsAnswer : Val -> Val + Val.
Variable coerced : Val -> bool.
Variable userId : Val.
Variable s : Loop.

(** In [robustGetUserData] a rejected first fetch is the end: the one
    fetch is all that is issued, the error is logged as critical after the
    fetch's own line, and the call rejects with it. *)
Theorem robust_first_failure_is_critical (e : Val) :
  quiet s ->
  dbAnswer userId = inr e ->
  let s' := run 2 (call (robustGetUserData dbDelay postsDelay commentsDelay
                           dbAnswer postsAnswer commentsAnswer coerced userId) s) in
  quiet s' /\
  outcome (length (promises s)) s' = Some (Rejected e) /\
  timers_set (trace s') = S (timers_set (trace s)) /\
  printed (trace s') =
    printed (trace s) ++ [(Log, [VStr "data"; userId]);
                          (Error, [VStr "Critical error:"; e])] /\
  now s' = now s + Z.max 0 (dbDelay userId).
Proof.
  intros Hq H1 s'. subst s'.
  unfold robustGetUserData. rewrite call_async.
  unfold try_catch, bind, fetchFromDatabase, fetchUserPosts, fetchPostComments. cbv beta.
  rewrite fetch_await by auto with loop. rewrite H1. js_step.
  finish_all. rewrite <- !app_assoc. close.
Qed.

Lemma length_positive (l : list Val) (x : Val) :
  gt_zero coerced (VNum (Z.of_nat (length (x :: l)))) = true.
Proof. cbn [gt_zero length]. apply Z.ltb_lt. lia. Qed.

(** A failing second stage of [robustGetUserData] is reported by one
    warning and nothing else: the call goes on with empty posts, does not
    issue the third fetch and prints no second warning. *)
Theorem robust_second_failure_warns_once (user : Val) :
  quiet s ->
  dbAnswer userId = inl user ->
  second_stage_fails postsAnswer user ->
  let s' := run 4 (call (robustGetUserData dbDelay postsDelay commentsDelay
                           dbAnswer postsAnswer commentsAnswer coerced userId) s) in
  quiet s' /\
  printed (trace s') =
    printed (trace s) ++ (Log, [VStr "data"; userId])
      :: match get_prop user "id" with
         | inl id => [(Log, [VStr "data"; id])]
         | inr _ => []
         end
      ++ [(Warn, [VStr "Failed to fetch posts, continuing with empty array"])].
Proof.
  intros Hq H1 H2 s'. subst s'. unfold second_stage_fails in H2.
  unfold robustGetUserData. rewrite call_async.
  unfold try_catch, bind, fetchFromDatabase, fetchUserPosts, fetchPostComments. cbv beta.
  fetch_step. rewrite H1.
  destruct (get_prop user "id") as [id | err].
  - destruct H2 as [e H2]. js_step. fetch_step. rewrite H2.
    js_step. change (get_prop (VArr []) "length") with (@inl Val Val (VNum 0)).
    js_step. change (gt_zero coerced (VNum 0)) with false. js_step.
    finish_all. rewrite <- !app_assoc. close.
  - js_step. change (get_prop (VArr []) "length") with (@inl Val Val (VNum 0)).
    js_step. change (gt_zero coerced (VNum 0)) with false. js_step.
    finish_all. rewrite <- !app_assoc. close.
Qed.

(** With a user and a non-empty array of posts, a failing third stage of
    [robustGetUserData] (reading [posts[0].id] throws, or the comments
    fetch is rejected) costs the comments only: the call is fulfilled with
    the user, the posts and empty comments, and the failure is reported by
    one warning. *)
Theorem robust_third_failure_keeps_posts (user id post : Val) (more : list Val) :
  quiet s ->
  dbAnswer userId = inl user ->
  get_prop user "id" = inl id ->
  postsAnswer id = inl (VArr (post :: more)) ->
  match get_prop post "id" with
  | inl id' => exists e, commentsAnswer id' = inr e
  | inr _ => True
  end ->
  let s' := run 6 (call (robustGetUserData dbDelay postsDelay commentsDelay
                           dbAnswer postsAnswer commentsAnswer coerced userId) s) in
  quiet s' /\
  outcome (length (promises s)) s' =
    Some (Fulfilled (VObj [("user", user); ("posts", VArr (post :: more));
                           ("comments", VArr [])])) /\
  printed (trace s') =
    printed (trace s) ++ [(Log, [VStr "data"; userId]); (Log, [VStr "data"; id])]
      ++ match get_prop post "id" with
         | inl id' => [(Log, [VStr "data"; id'])]
         | inr _ => []
         end
      ++ [(Warn, [VStr "Failed to fetch comments, continuing with empty array"])].
Proof.
  intros Hq H1 Hid H2 H3 s'. subst s'.
  unfold robustGetUserData. rewrite call_async.
  unfold try_catch, bind, fetchFromDatabase, fetchUserPosts, fetchPostComments. cbv beta.
  fetch_step. rewrite H1, Hid. js_step. fetch_step. rewrite H2. js_step.
  change (get_prop (VArr (post :: more)) "length")
    with (@inl Val Val (VNum (Z.of_nat (length (post :: more))))).
  js_step. rewrite length_positive. js_step.
  change (get_index (VArr (post :: more)) 0) with (@inl Val Val post). js_step.
  destruct (get_prop post "id") as [id' | err]; js_step.
  - destruct H3 as [e H3]. fetch_step. rewrite H3. js_step.
    finish_all. rewrite <- !app_assoc. close.
  - finish_all. rewrite <- !app_assoc. close.
Qed.

(** When all three stages of [robustGetUserData] succeed, with a
    non-empty array of posts, the call is fulfilled with the user, the
    posts and the comments fetched for the id of the first post; three
    fetches are issued, one after the other, and no warning is printed. *)
Theorem robust_success_returns_all_three (user id post id' comments : Val) (more : list Val) :
  quiet s ->
  dbAnswer userId = inl user ->
  get_prop user "id" = inl id ->
  postsAnswer id = inl (VArr (post :: more)) ->
  get_prop post "id" = inl id' ->
  commentsAnswer id' = inl comments ->
  let s' := run 6 (call (robustGetUserData dbDelay postsDelay commentsDelay
                           dbAnswer postsAnswer commentsAnswer coerced userId) s) in
  quiet s' /\
  outcome (length (promises s)) s' =
    Some (Fulfilled (VObj [("user", user); ("posts", VArr (post :: more));
                           ("comments", comments)])) /\
  timers_set (trace s') = (timers_set (trace s) + 3)%nat /\
  printed (trace s') =
    printed (trace s) ++ [(Log, [VStr "data"; userId]); (Log, [VStr "data"; id]);
                          (Log, [VStr "data"; id'])] /\
  now s' = now s + Z.max 0 (dbDelay userId) + Z.max 0 (postsDelay id)
           + Z.max 0 (commentsDelay id').
Proof.
  intros Hq H1 Hid H2 Hid' H3 s'. subst s'.
  unfold robustGetUserData. rewrite call_async.
  unfold try_catch, bind, fetchFromDatabase, fetchUserPosts, fetchPostComments. cbv beta.
  fetch_step. rewrite H1, Hid. js_step. fetch_step. rewrite H2. js_step.
  change (get_prop (VArr (post :: more)) "length")
    with (@inl Val Val (VNum (Z.of_nat (length (post :: more))))).
  js_step. rewrite length_positive. js_step.
  change (get_index (VArr (post :: more)) 0) with (@inl Val Val post). js_step.
  rewrite Hid'. js_step. rewrite fetch_await by auto with loop. rewrite H3. js_step.
  finish_all. rewrite <- !app_assoc. close.
Qed.

(** A user without posts: when the posts fetch of [robustGetUserData] is
    fulfilled with an empty array, the third fetch is not issued and the
    comments are empty, and, unlike after a failure, nothing is warned. *)
Theorem robust_no_posts_skips_comments_silently (user id : Val) :
  quiet s ->
  dbAnswer userId = inl user ->
  get_prop user "id" = inl id ->
  postsAnswer id = inl (VArr []) ->
  let s' := run 4 (call (robustGetUserData dbDelay postsDelay commentsDelay
                           dbAnswer postsAnswer commentsAnswer coerced userId) s) in
  quiet s' /\
  outcome (length (promises s)) s' =
    Some (Fulfilled (VObj [("user", user); ("posts", VArr []); ("comments", VArr [])])) /\
  timers_set (trace s') = (timers_set (trace s) + 2)%nat /\
  printed (trace s') =
    printed (trace s) ++ [(Log, [VStr "data"; userId]); (Log, [VStr "data"; id])].
Proof.
  intros Hq H1 Hid H2 s'. subst s'.
  unfold robustGetUserData. rewrite call_async.
  unfold try_catch, bind, fetchFromDatabase, fetchUserPosts, fetchPostComments. cbv beta.
  fetch_step. rewrite H1, Hid. js_step.
  rewrite fetch_await by auto with loop. rewrite H2. js_step.
  change (get_prop (VArr []) "length") with (@inl Val Val (VNum 0)).
  js_step. change (gt_zero coerced (VNum 0)) with false. js_step.
  finish_all. rewrite <- !app_assoc. close.
Qed.
End RobustMore.

Lemma robust_first_failure_is_critical_witness :
  quiet boot /\
  printed (trace (run 2 (call (robustGetUserData (fun _ => 5) (fun _ => 5) (fun _ => 5)
                                 (fun _ => inr (VStr "no user")) (fun _ => inl (VArr []))
                                 (fun _ => inl (VArr [])) (fun _ => false) (VNum 7)) boot))) =
  [(Log, [VStr "data"; VNum 7]); (Error, [VStr "Critical error:"; VStr "no user"])].
Proof.
  split; [split; reflexivity | ].
  exact (proj1 (proj2 (proj2 (proj2 (robust_first_failure_is_critical
           (fun _ => 5) (fun _ => 5) (fun _ => 5)
           (fun _ => inr (VStr "no user")) (fun _ => inl (VArr []))
           (fun _ => inl (VArr [])) (fun _ => false) (VNum 7) boot (VStr "no user")
           (conj eq_refl eq_refl) eq_refl))))).
Defined.

Lemma robust_second_failure_warns_once_witness :
  let user := VObj [("id", VNum 7)] in
  second_stage_fails (fun _ => inr (VStr "no posts")) user /\
  printed (trace (run 4 (call (robustGetUserData (fun _ => 5) (fun _ => 5) (fun _ => 5)
                                 (fun _ => inl user) (fun _ => inr (VStr "no posts"))
                                 (fun _ => inl (VArr [VStr "c"])) (fun _ => false)
                                 (VNum 1)) boot))) =
  [(Log, [VStr "data"; VNum 1]); (Log, [VStr "data"; VNum 7]);
   (Warn, [VStr "Failed to fetch posts, continuing with empty array"])].
Proof.
  intros user.
  assert (H2 : second_stage_fails (fun _ => inr (VStr "no posts")) user)
    by (exists (VStr "no posts"); reflexivity).
  split; [exact H2 | ].
  exact (proj2 (robust_second_failure_warns_once
                  (fun _ => 5) (fun _ => 5) (fun _ => 5)
                  (fun _ => inl user) (fun _ => inr (VStr "no posts"))
                  (fun _ => inl (VArr [VStr "c"])) (fun _ => false)
                  (VNum 1) boot user (conj eq_refl eq_refl) eq_refl H2)).
Defined.

Lemma robust_third_failure_keeps_posts_witness :
  let user := VObj [("id", VNum 7)] in
  let post := VObj [("id", VNum 70)] in
  outcome 0%nat
    (run 6 (call (robustGetUserData (fun _ => 5) (fun _ => 5) (fun _ => 5)
                    (fun _ => inl user) (fun _ => inl (VArr [post]))
                    (fun _ => inr (VStr "no comments")) (fun _ => false) (VNum 1)) boot)) =
  Some (Fulfilled (VObj [("user", user); ("posts", VArr [post]); ("comments", VArr [])])).
Proof.
  intros user post.
  refine (proj1 (proj2 (robust_third_failure_keeps_posts
                          (fun _ => 5) (fun _ => 5) (fun _ => 5)
                          (fun _ => inl user) (fun _ => inl (VArr [post]))
                          (fun _ => inr (VStr "no comments")) (fun _ => false)
                          (VNum 1) boot user (VNum 7) post []
                          (conj eq_refl eq_refl) eq_refl eq_refl eq_refl _))).
  exists (VStr "no comments"). reflexivity.
Defined.

Lemma robust_success_returns_all_three_witness :
  let user := VObj [("id", VNum 7)] in
  let post := VObj [("id", VNum 70)] in
  outcome 0%nat
    (run 6 (call (robustGetUserData (fun _ => 5) (fun _ => 5) (fun _ => 5)
                    (fun _ => inl user) (fun _ => inl (VArr [post]))
                    (fun _ => inl (VArr [VStr "c"])) (fun _ => false) (VNum 1)) boot)) =
  Some (Fulfilled (VObj [("user", user); ("posts", VArr [post]);
                         ("comments", VArr [VStr "c"])])).
Proof.
  intros user post.
  exact (proj1 (proj2 (robust_success_returns_all_three
                         (fun _ => 5) (fun _ => 5) (fun _ => 5)
                         (fun _ => inl user) (fun _ => inl (VArr [post]))
                         (fun _ => inl (VArr [VStr "c"])) (fun _ => false)
                         (VNum 1) boot user (VNum 7) post (VNum 70) (VArr [VStr "c"]) []
                         (conj eq_refl eq_refl) eq_refl eq_refl eq_refl eq_refl eq_refl))).
Defined.

Lemma robust_no_posts_skips_comments_silently_witness :
  let user := VObj [("id", VNum 7)] in
  printed (trace (run 4 (call (robustGetUserData (fun _ => 5) (fun _ => 5) (fun _ => 5)
                                 (fun _ => inl user) (fun _ => inl (VArr []))
                                 (fun _ => inl (VArr [VStr "c"])) (fun _ => false)
                                 (VNum 1)) boot))) =
  [(Log, [VStr "data"; VNum 1]); (Log, [VStr "data"; VNum 7])].
Proof.
  intros user.
  exact (proj2 (proj2 (proj2 (robust_no_posts_skips_comments_silently
                         (fun _ => 5) (fun _ => 5) (fun _ => 5)
                         (fun _ => inl user) (fun _ => inl (VArr []))
                         (fun _ => inl (VArr [VStr "c"])) (fun _ => false)
                         (VNum 1) boot user (VNum 7)
                         (conj eq_refl eq_refl) eq_refl eq_refl eq_refl)))).
Defined.

(** ** [getUserData], async/await style *)

Section AsyncAwaitLaws.
Variables dbDelay postsDelay commentsDelay : Val -> Z.
Variables dbAnswer postsAnswer commentsAnswer : Val -> Val + Val.
Variable userId : Val.
Variable s : Loop.

(** [getUserData] stops at the first rejected fetch: the call rejects with
    the error of that fetch, logs it once, after the lines of the fetches
    made so far, and issues no fetch after it. *)
Theorem getUserData_stops_at_first_rejection :
  quiet s ->
  let f := AsyncAwait.getUserData dbDelay postsDelay commentsDelay
             dbAnswer postsAnswer commentsAnswer userId in
  let r := length (promises s) in
  (forall e, dbAnswer userId = inr e ->
     let s' := run 2 (call f s) in
     quiet s' /\ outcome r s' = Some (Rejected e) /\
     timers_set (trace s') = (timers_set (trace s) + 1)%nat /\
     printed (trace s') =
       printed (trace s) ++ [(Log, [VStr "data"; userId]); (Error, [VStr "Error:"; e])]) /\
  (forall user id e,
     dbAnswer userId = inl user -> get_prop user "id" = inl id ->
     postsAnswer id = inr e ->
     let s' := run 4 (call f s) in
     quiet s' /\ outcome r s' = Some (Rejected e) /\
     timers_set (trace s') = (timers_set (trace s) + 2)%nat /\
     printed (trace s') =
       printed (trace s) ++ [(Log, [VStr "data"; userId]); (Log, [VStr "data"; id]);
                             (Error, [VStr "Error:"; e])]) /\
  (forall user id posts post id' e,
     dbAnswer userId = inl user -> get_prop user "id" = inl id ->
     postsAnswer id = inl posts ->
     get_index posts 0 = inl post -> get_prop post "id" = inl id' ->
     commentsAnswer id' = inr e ->
     let s' := run 6 (call f s) in
     quiet s' /\ outcome r s' = Some (Rejected e) /\
     timers_set (trace s') = (timers_set (trace s) + 3)%nat /\
     printed (trace s') =
       printed (trace s) ++ [(Log, [VStr "data"; userId]); (Log, [VStr "data"; id]);
                             (Log, [VStr "data"; id']); (Error, [VStr "Error:"; e])]).
Proof.
  intros Hq f r. subst f r. split; [ | split].
  - intros e H1 s'. subst s'.
    unfold AsyncAwait.getUserData. rewrite call_async.
    unfold try_catch, bind, fetchFromDatabase, fetchUserPosts, fetchPostComments. cbv beta.
    rewrite fetch_await by auto with loop. rewrite H1. js_step.
    finish_all. rewrite <- !app_assoc. close.
  - intros user id e H1 Hid H2 s'. subst s'.
    unfold AsyncAwait.getUserData. rewrite call_async.
    unfold try_catch, bind, fetchFromDatabase, fetchUserPosts, fetchPostComments. cbv beta.
    fetch_step. rewrite H1, Hid. js_step.
    rewrite fetch_await by auto with loop. rewrite H2. js_step.
    finish_all. rewrite <- !app_assoc. close.
  - intros user id posts post id' e H1 Hid H2 Hpost Hid' H3 s'. subst s'.
    unfold AsyncAwait.getUserData. rewrite call_async.
    unfold try_catch, bind, fetchFromDatabase, fetchUserPosts, fetchPostComments. cbv beta.
    fetch_step. rewrite H1, Hid. js_step. fetch_step. rewrite H2, Hpost. js_step.
    rewrite Hid'. js_step.
    rewrite fetch_await by auto with loop. rewrite H3. js_step.
    finish_all. rewrite <- !app_assoc. close.
Qed.

(** A user without posts: [getUserData] reads [posts[0].id] without
    looking at the length, so on an empty array of posts it rejects with a
    TypeError and issues no comments fetch, where [robustGetUserData], on
    the same fetches, is fulfilled with empty comments. *)
Theorem getUserData_rejects_a_user_without_posts (coerced : Val -> bool) (user id : Val) :
  quiet s ->
  dbAnswer userId = inl user ->
  get_prop user "id" = inl id ->
  postsAnswer id = inl (VArr []) ->
  let r := length (promises s) in
  let plain := run 4 (call (AsyncAwait.getUserData dbDelay postsDelay commentsDelay
                              dbAnswer postsAnswer commentsAnswer userId) s) in
  let robust := run 4 (call (robustGetUserData dbDelay postsDelay commentsDelay
                               dbAnswer postsAnswer commentsAnswer coerced userId) s) in
  quiet plain /\
  outcome r plain = Some (Rejected (TypeError "Cannot read properties of undefined")) /\
  timers_set (trace plain) = (timers_set (trace s) + 2)%nat /\
  outcome r robust =
    Some (Fulfilled (VObj [("user", user); ("posts", VArr []); ("comments", VArr [])])).
Proof.
  intros Hq H1 Hid H2 r plain robust. subst r.
  assert (E1 : quiet plain /\
               outcome (length (promises s)) plain =
                 Some (Rejected (TypeError "Cannot read properties of undefined")) /\
               timers_set (trace plain) = (timers_set (trace s) + 2)%nat).
  { subst plain.
    unfold AsyncAwait.getUserData. rewrite call_async.
    unfold try_catch, bind, fetchFromDatabase, fetchUserPosts, fetchPostComments. cbv beta.
    fetch_step. rewrite H1, Hid. js_step.
    rewrite fetch_await by auto with loop. rewrite H2.
    change (get_index (VArr []) 0) with (@inl Val Val VUndefined). js_step.
    change (get_prop VUndefined "id")
      with (@inr Val Val (TypeError "Cannot read properties of undefined")).
    js_step. finish_all. close. }
  destruct E1 as (Q1 & O1 & T1).
  split; [exact Q1 | ]. split; [exact O1 | ]. split; [exact T1 | ].
  subst robust.
  unfold robustGetUserData. rewrite call_async.
  unfold try_catch, bind, fetchFromDatabase, fetchUserPosts, fetchPostComments. cbv beta.
  fetch_step. rewrite H1, Hid. js_step.
  rewrite fetch_await by auto with loop. rewrite H2. js_step.
  change (get_prop (VArr []) "length") with (@inl Val Val (VNum 0)).
  js_step. change (gt_zero coerced (VNum 0)) with false. js_step.
  finish_all. close.
Qed.

(** When all three fetches succeed and the posts are a non-empty array,
    [getUserData] and [robustGetUserData] do the same: the same three
    fetches, the same printed lines, the same time, and the same object
    with the user, the posts and the comments of the first post. *)
Theorem getUserData_agrees_with_robust_on_success
    (coerced : Val -> bool) (user id post id' comments : Val) (more : list Val) :
  quiet s ->
  dbAnswer userId = inl user ->
  get_prop user "id" = inl id ->
  postsAnswer id = inl (VArr (post :: more)) ->
  get_prop post "id" = inl id' ->
  commentsAnswer id' = inl comments ->
  let r := length (promises s) in
  let plain := run 6 (call (AsyncAwait.getUserData dbDelay postsDelay commentsDelay
                              dbAnswer postsAnswer commentsAnswer userId) s) in
  let robust := run 6 (call (robustGetUserData dbDelay postsDelay commentsDelay
                               dbAnswer postsAnswer commentsAnswer coerced userId) s) in
  quiet plain /\
  outcome r plain =
    Some (Fulfilled (VObj [("user", user); ("posts", VArr (post :: more));
                           ("comments", comments)])) /\
  outcome r plain = outcome r robust /\
  printed (trace plain) = printed (trace robust) /\
  timers_set (trace plain) = timers_set (trace robust) /\
  now plain = now robust.
Proof.
  intros Hq H1 Hid H2 Hid' H3 r plain robust. subst r.
  assert (E1 : quiet plain /\
               outcome (length (promises s)) plain =
                 Some (Fulfilled (VObj [("user", user); ("posts", VArr (post :: more));
                                        ("comments", comments)])) /\
               timers_set (trace plain) = (timers_set (trace s) + 3)%nat /\
               printed (trace plain) =
                 printed (trace s) ++ [(Log, [VStr "data"; userId]); (Log, [VStr "data"; id]);
                                       (Log, [VStr "data"; id'])] /\
               now plain = now s + Z.max 0 (dbDelay userId) + Z.max 0 (postsDelay id)
                           + Z.max 0 (commentsDelay id')).
  { subst plain.
    unfold AsyncAwait.getUserData. rewrite call_async.
    unfold try_catch, bind, fetchFromDatabase, fetchUserPosts, fetchPostComments. cbv beta.
    fetch_step. rewrite H1, Hid. js_step. fetch_step. rewrite H2.
    change (get_index (VArr (post :: more)) 0) with (@inl Val Val post). js_step.
    rewrite Hid'. js_step. rewrite fetch_await by auto with loop. rewrite H3. js_step.
    finish_all. rewrite <- !app_assoc. close. }
  assert (E2 : outcome (length (promises s)) robust =
                 Some (Fulfilled (VObj [("user", user); ("posts", VArr (post :: more));
                                        ("comments", comments)])) /\
               timers_set (trace robust) = (timers_set (trace s) + 3)%nat /\
               printed (trace robust) =
                 printed (trace s) ++ [(Log, [VStr "data"; userId]); (Log, [VStr "data"; id]);
                                       (Log, [VStr "data"; id'])] /\
               now robust = now s + Z.max 0 (dbDelay userId) + Z.max 0 (postsDelay id)
                            + Z.max 0 (commentsDelay id')).
  { subst robust.
    unfold robustGetUserData. rewrite call_async.
    unfold try_catch, bind, fetchFromDatabase, fetchUserPosts, fetchPostComments. cbv beta.
    fetch_step. rewrite H1, Hid. js_step. fetch_step. rewrite H2. js_step.
    change (get_prop (VArr (post :: more)) "length")
      with (@inl Val Val (VNum (Z.of_nat (length (post :: more))))).
    js_step. rewrite length_positive. js_step.
    change (get_index (VArr (post :: more)) 0) with (@inl Val Val post). js_step.
    rewrite Hid'. js_step. rewrite fetch_await by auto with loop. rewrite H3. js_step.
    finish_all. rewrite <- !app_assoc. close. }
  destruct E1 as (Q1 & O1 & T1 & P1 & N1). destruct E2 as (O2 & T2 & P2 & N2).
  split; [exact Q1 | ]. split; [exact O1 | ].
  rewrite O1, O2, T1, T2, P1, P2, N1, N2. repeat split.
Qed.
End AsyncAwaitLaws.

Lemma getUserData_stops_at_first_rejection_witness :
  let user := VObj [("id", VNum 7)] in
  quiet boot /\
  outcome 0%nat
    (run 4 (call (AsyncAwait.getUserData (fun _ => 5) (fun _ => 5) (fun _ => 5)
                    (fun _ => inl user) (fun _ => inr (VStr "no posts"))
                    (fun _ => inl (VArr [VStr "c"])) (VNum 1)) boot)) =
  Some (Rejected (VStr "no posts")).
Proof.
  intros user.
  split; [split; reflexivity | ].
  exact (proj1 (proj2 (proj1 (proj2 (getUserData_stops_at_first_rejection
                         (fun _ => 5) (fun _ => 5) (fun _ => 5)
                         (fun _ => inl user) (fun _ => inr (VStr "no posts"))
                         (fun _ => inl (VArr [VStr "c"])) (VNum 1) boot
                         (conj eq_refl eq_refl)))
                       user (VNum 7) (VStr "no posts") eq_refl eq_refl eq_refl))).
Defined.

Lemma getUserData_rejects_a_user_without_posts_witness :
  let user := VObj [("id", VNum 7)] in
  outcome 0%nat
    (run 4 (call (AsyncAwait.getUserData (fun _ => 5) (fun _ => 5) (fun _ => 5)
                    (fun _ => inl user) (fun _ => inl (VArr []))
                    (fun _ => inl (VArr [VStr "c"])) (VNum 1)) boot)) =
  Some (Rejected (TypeError "Cannot read properties of undefined")).
Proof.
  intros user.
  exact (proj1 (proj2 (getUserData_rejects_a_user_without_posts
                         (fun _ => 5) (fun _ => 5) (fun _ => 5)
                         (fun _ => inl user) (fun _ => inl (VArr []))
                         (fun _ => inl (VArr [VStr "c"])) (VNum 1) boot
                         (fun _ => false) user (VNum 7)
                         (conj eq_refl eq_refl) eq_refl eq_refl eq_refl))).
Defined.

Lemma getUserData_agrees_with_robust_on_success_witness :
  let user := VObj [("id", VNum 7)] in
  let post := VObj [("id", VNum 70)] in
  outcome 0%nat
    (run 6 (call (AsyncAwait.getUserData (fun _ => 5) (fun _ => 5) (fun _ => 5)
                    (fun _ => inl user) (fun _ => inl (VArr [post]))
                    (fun _ => inl (VArr [VStr "c"])) (VNum 1)) boot)) =
  outcome 0%nat
    (run 6 (call (robustGetUserData (fun _ => 5) (fun _ => 5) (fun _ => 5)
                    (fun _ => inl user) (fun _ => inl (VArr [post]))
                    (fun _ => inl (VArr [VStr "c"])) (fun _ => false) (VNum 1)) boot)).
Proof.
  intros user post.
  exact (proj1 (proj2 (proj2 (getUserData_agrees_with_robust_on_success
                         (fun _ => 5) (fun _ => 5) (fun _ => 5)
                         (fun _ => inl user) (fun _ => inl (VArr [post]))
                         (fun _ => inl (VArr [VStr "c"])) (VNum 1) boot
                         (fun _ => false) user (VNum 7) post (VNum 70) (VArr [VStr "c"]) []
                         (conj eq_refl eq_refl) eq_refl eq_refl eq_refl eq_refl eq_refl)))).
Defined.

(** ** Parallel fetches that may be rejected *)

Lemma queue_after_perm (due : nat -> Z) (j : nat) (order : list nat) :
  queue_after due j order ≡ₚ j :: order.
Proof.
  induction order as [ | i rest IH]; cbn [queue_after]; [reflexivity | ].
  destruct (due i <=? due j); [ | reflexivity].
  rewrite IH. apply Permutation_swap.
Qed.

Lemma firing_order_perm (due : nat -> Z) (n : nat) :
  firing_order due n ≡ₚ List.seq 0 n.
Proof.
  induction n as [ | n IH]; [reflexivity | ].
  cbn [firing_order]. rewrite queue_after_perm, IH.
  rewrite seq_S. cbn [Nat.add]. apply Permutation_cons_append.
Qed.

Lemma firing_order_elem (due : nat -> Z) (n i : nat) :
  i ∈ firing_order due n <-> (i < n)%nat.
Proof. rewrite firing_order_perm, elem_of_seq. lia. Qed.

Lemma firing_order_nodup (due : nat -> Z) (n : nat) : NoDup (firing_order due n).
Proof. rewrite firing_order_perm. apply NoDup_seq. Qed.

Lemma firing_order_length (due : nat -> Z) (n : nat) : length (firing_order due n) = n.
Proof. rewrite firing_order_perm. apply length_seq. Qed.

Lemma insert_timer_fan (f : Fan) (j : nat) (order : list nat) :
  insert_timer (fan_due f j) (snd (fan_timer f j)) (map (fan_timer f) order) =
  map (fan_timer f) (queue_after (fan_due f) j order).
Proof.
  induction order as [ | i rest IH]; [reflexivity | ].
  cbn [map insert_timer queue_after].
  change (fan_timer f i) with (fan_due f i, snd (fan_timer f i)) at 1.
  cbv beta iota.
  destruct (fan_due f i <=? fan_due f j); cbn [map]; [now rewrite IH | reflexivity].
Qed.

(** Phase 1: [map] issues the fetches; nothing is printed and the clock
    stands still. *)
Lemma fan_issued_start (f : Fan) : quiet (fan_loop f) -> FanIssued f 0 (alloc (fan_loop f)).
Proof.
  intros [Ht Hj]. split; try reflexivity; try assumption.
  - unfold fan_slot, fan_result. cbn [alloc promises]. rewrite length_app. cbn. lia.
  - apply alloc_awaited.
  - intros i Hi. lia.
  - cbn [alloc trace]. lia.
Qed.

Lemma fan_issue_one (f : Fan) (j : nat) (id : Val) (u : Loop) :
  FanIssued f j u -> fan_ids f !! j = Some id ->
  FanIssued f (S j)
    (schedule
       (callback (console_log [VStr "data"; id] ;;
                  match fan_answer f id with
                  | inl v => fun k' _ _ => Resolve (length (promises u)) v (k' tt)
                  | inr e => fun k' _ _ => Reject (length (promises u)) e (k' tt)
                  end))
       (fan_delay f id) (alloc u)).
Proof.
  intros [Hn Hj Hh Hl Hr Hs Ht Hset Hpr] Hid.
  assert (Eid : fan_id f j = id) by (unfold fan_id; now rewrite Hid).
  split; cbn [schedule alloc now timers jobs promises heap trace]; try assumption.
  - rewrite length_app, Hl. unfold fan_slot. cbn. lia.
  - apply lookup_app_l_Some, Hr.
  - intros i Hi. unfold awaited. cbn [promises].
    destruct (decide (i = j)) as [-> | Hne].
    + rewrite <- Hl. apply lookup_fresh.
    + apply lookup_app_l_Some, Hs. lia.
  - rewrite Ht, Hn, Hl, <- Eid. cbn [firing_order]. apply (insert_timer_fan f j).
  - rewrite timers_set_app, Hset. cbn. lia.
  - rewrite printed_app, Hpr. cbn. apply app_nil_r.
Qed.

Lemma fan_mapM_issue (f : Fan) (rest : list Val) :
  forall (j : nat) (u : Loop) (K : list PId -> Prog) (kthrow kret : Val -> Prog),
  FanIssued f j u -> drop j (fan_ids f) = rest ->
  exists u', FanIssued f (j + length rest) u' /\
    exec (mapM (fun id => fetchFromDatabase (fan_delay f) (fan_answer f) id)
            rest K kthrow kret) u =
    exec (K (List.seq (fan_slot f j) (length rest))) u'.
Proof.
  induction rest as [ | id rest IH]; intros j u K kthrow kret HI Hd.
  - exists u. split; [now rewrite Nat.add_0_r | reflexivity].
  - assert (Hid : fan_ids f !! j = Some id).
    { rewrite <- (Nat.add_0_r j), <- lookup_drop, Hd. reflexivity. }
    assert (Hd' : drop (S j) (fan_ids f) = rest).
    { rewrite (drop_S _ _ _ Hid) in Hd. now inversion Hd. }
    destruct (IH (S j) _ (fun ys => K (length (promises u) :: ys)) kthrow kret
                (fan_issue_one f j id u HI Hid) Hd') as (u' & HI' & E).
    exists u'. split.
    + cbn [length]. now rewrite Nat.add_succ_r.
    + cbn [mapM]. unfold bind at 1. unfold fetchFromDatabase at 1.
      unfold delayedSource, new_Promise, setTimeout.
      cbn [exec]. unfold ret at 1.
      etransitivity; [exact E | ].
      rewrite (fi_len _ _ _ HI). cbn [length List.seq].
      replace (fan_slot f (S j)) with (S (fan_slot f j)) by (unfold fan_slot; lia).
      reflexivity.
Qed.

(** Phase 2: [Promise.all] subscribes to every fetch promise. *)
Lemma fan_promise_all_start (f : Fan) (u : Loop) :
  FanIssued f (fan_size f) u ->
  FanRegistered f 0 (new_cell (VNum 1) (new_cell (VArr []) (alloc u))).
Proof.
  intros [Hn Hj Hh Hl Hr Hs Ht Hset Hpr].
  split; cbn [new_cell alloc now timers jobs promises heap trace]; try assumption.
  - rewrite Hh. unfold fan_values. rewrite <- app_assoc.
    apply list_lookup_middle. reflexivity.
  - rewrite Hh. unfold fan_count. apply list_lookup_middle. rewrite length_app. cbn. lia.
  - apply lookup_app_l_Some, Hr.
  - unfold awaited, fan_all. cbn [promises]. rewrite <- Hl. apply lookup_fresh.
  - intros i Hi. lia.
  - intros i Hi. apply lookup_app_l_Some, Hs. lia.
Qed.

Lemma fan_register_all (f : Fan) (ps : list PId) :
  forall (j : nat) (u : Loop) (K : Prog),
  FanRegistered f j u ->
  ps = List.seq (fan_slot f j) (length ps) ->
  (j + length ps = fan_size f)%nat ->
  exists u', FanRegistered f (fan_size f) u' /\
    exec (all_elements (fan_all f) (fan_values f) (fan_count f) j ps K) u = exec K u'.
Proof.
  induction ps as [ | p ps IH]; intros j u K HR Hps Hlen.
  - exists u. cbn [length] in Hlen. rewrite Nat.add_0_r in Hlen. subst j.
    split; [exact HR | reflexivity].
  - cbn [length List.seq] in Hps. injection Hps as -> Hps.
    destruct HR as [Hn Ht Hj Hv Hc Hr Ha Hd Hrest Hset Hpr].
    cbn [all_elements exec]. rewrite Hv. cbn [default from_option id arr_push].
    assert (Hc' : heap (write_cell (fan_values f)
                          (VArr (replicate j VUndefined ++ [VUndefined])) u)
                  !! fan_count f = Some (VNum (1 + Z.of_nat j))).
    { cbn [write_cell heap].
      rewrite list_lookup_insert_ne by (unfold fan_values, fan_count; lia). exact Hc. }
    rewrite Hc'. cbn [default from_option id num_add].
    assert (Hp : awaited (fan_slot f j) u) by (apply Hrest; cbn [length] in Hlen; lia).
    unfold subscribe at 1. cbn [write_cell promises]. unfold awaited in Hp. rewrite Hp.
    cbn [write_cell now timers jobs heap trace promises app].
    apply IH.
    + split; cbn [now timers jobs heap promises trace]; try assumption.
      * rewrite list_lookup_insert_ne by (unfold fan_values, fan_count; lia).
        rewrite list_lookup_insert_eq by (apply lookup_lt_Some in Hv; exact Hv).
        f_equal. f_equal. change (S j) with (1 + j)%nat.
        rewrite replicate_add. cbn.
        clear. induction j; cbn; [reflexivity | now f_equal].
      * rewrite list_lookup_insert_eq.
        -- f_equal. f_equal. lia.
        -- rewrite length_insert. apply lookup_lt_Some in Hc. exact Hc.
      * unfold awaited. cbn [promises].
        rewrite list_lookup_insert_ne by (unfold fan_slot; lia). exact Hr.
      * unfold awaited. cbn [promises].
        rewrite list_lookup_insert_ne
          by (unfold fan_all, fan_slot; cbn [length] in Hlen; lia).
        exact Ha.
      * intros i Hi. destruct (decide (i = j)) as [-> | Hne].
        -- rewrite list_lookup_insert_eq by (apply lookup_lt_Some in Hp; exact Hp).
           reflexivity.
        -- rewrite list_lookup_insert_ne by (unfold fan_slot; lia). apply Hd. lia.
      * intros i Hi. unfold awaited. cbn [promises].
        rewrite list_lookup_insert_ne by (unfold fan_slot; lia). apply Hrest. lia.
    + replace (fan_slot f (S j)) with (S (fan_slot f j)) by (unfold fan_slot; lia).
      exact Hps.
    + cbn [length] in Hlen. lia.
Qed.

Lemma errors_app (t1 t2 : list Event) : errors (t1 ++ t2) = errors t1 ++ errors t2.
Proof. apply omap_app. Qed.

Lemma settle_event_not_error answer t p id : errors [settle_event answer t p id] = [].
Proof. unfold settle_event. now destruct (answer id). Qed.

Lemma clock_after_snoc (f : Fan) (fired : list nat) (i : nat) :
  clock_after f (fired ++ [i]) = Z.max (clock_after f fired) (fan_due f i).
Proof. unfold clock_after. now rewrite fold_left_app. Qed.

Lemma first_rejection_app (f : Fan) (l1 l2 : list nat) :
  first_rejection f (l1 ++ l2) =
  match first_rejection f l1 with Some e => Some e | None => first_rejection f l2 end.
Proof.
  induction l1 as [ | i l1 IH]; cbn [app first_rejection]; [reflexivity | ].
  destruct (fan_answer f (fan_id f i)); [exact IH | reflexivity].
Qed.

Lemma fan_order_elem (f : Fan) (i : nat) : i ∈ fan_order f <-> (i < fan_size f)%nat.
Proof. apply firing_order_elem. Qed.

Lemma fan_values_complete (f : Fan) (V : list Val) :
  length V = fan_size f ->
  (forall i, (i < fan_size f)%nat -> V !! i = Some (fan_value f i)) ->
  V = fan_values_list f.
Proof.
  intros Hl HV. apply list_eq. intros i. unfold fan_size, fan_values_list in *.
  destruct (decide (i < length (fan_ids f))%nat) as [Hi | Hi].
  - rewrite (HV i Hi), list_lookup_fmap. unfold fan_value, fan_id.
    destruct (lookup_lt_is_Some_2 (fan_ids f) i Hi) as [x Hx]. now rewrite Hx.
  - rewrite !lookup_ge_None_2; [reflexivity | rewrite length_map; lia | lia].
Qed.

Lemma job_runs t ts (j : Prog) js ps h tr :
  run 1 (mkLoop t ts (j :: js) ps h tr) = exec j (mkLoop t ts js ps h tr).
Proof. reflexivity. Qed.

(** Phase 3, first turn of a fetch: its timer fires, prints the line of
    the fetch and settles its promise; the reaction of [Promise.all] is the
    next job. *)
Lemma timer_fires (f : Fan) (i : nat) (todo : list nat) (u : Loop) :
  timers u = map (fan_timer f) (i :: todo) ->
  jobs u = [] ->
  promises u !! fan_slot f i = Some (Pending [fan_element f i]) ->
  run 1 u =
  mkLoop (Z.max (now u) (fan_due f i)) (map (fan_timer f) todo)
    [react (fan_settled f i) (fan_element f i)]
    (<[fan_slot f i := fan_settled f i]> (promises u)) (heap u)
    (trace u ++ [Printed Log [VStr "data"; fan_id f i];
                 settle_event (fan_answer f) (Z.max (now u) (fan_due f i))
                   (fan_slot f i) (fan_id f i)]).
Proof.
  intros Ht Hj Hp. cbn [run]. unfold tick. rewrite Hj, Ht.
  cbn [map]. unfold fan_timer at 1. unfold callback, bind, console_log.
  cbn [exec]. unfold fan_settled, settled, settle_event.
  destruct (fan_answer f (fan_id f i)) as [v | e]; cbn [exec];
    unfold settle, emit; cbn [promises now timers jobs heap trace];
    rewrite Hp; cbn [map react app]; now rewrite <- app_assoc.
Qed.

(** After a rejection the reactions of [Promise.all] change nothing any
    more. *)
Lemma job_after_failure (f : Fan) (e : Val) (i : nat) (u : Loop) :
  promises u !! fan_all f = Some (Rejected e) ->
  let u' := exec (react (fan_settled f i) (fan_element f i)) u in
  now u' = now u /\ timers u' = timers u /\ jobs u' = jobs u /\
  promises u' = promises u /\
  timers_set (trace u') = timers_set (trace u) /\
  errors (trace u') = errors (trace u).
Proof.
  intros Ha u'. subst u'. unfold fan_settled, settled, fan_element.
  destruct (fan_answer f (fan_id f i)) as [v | e']; cbn [react fst snd].
  - unfold resolveElement. cbn [exec].
    destruct (is_zero _); cbn [exec].
    + unfold settle, emit. cbn [write_cell promises]. rewrite Ha.
      cbn [write_cell now timers jobs promises trace].
      rewrite timers_set_app, errors_app. cbn. rewrite Nat.add_0_r, app_nil_r.
      repeat split.
    + cbn [write_cell now timers jobs promises trace]. repeat split.
  - cbn [exec]. unfold settle, emit. cbn [promises]. rewrite Ha.
    cbn [now timers jobs promises trace].
    rewrite timers_set_app, errors_app. cbn. rewrite Nat.add_0_r, app_nil_r.
    repeat split.
Qed.

Lemma fired_and_todo (f : Fan) (fired : list nat) (i : nat) (todo : list nat) :
  fired ++ i :: todo = fan_order f ->
  (i < fan_size f)%nat /\ (i ∉ fired) /\ (i ∉ todo) /\
  (forall j, j ∈ todo -> j <> i) /\ (forall j, j ∈ fired -> j <> i).
Proof.
  intros E.
  assert (Hnd : NoDup (fired ++ i :: todo)) by (rewrite E; apply firing_order_nodup).
  assert (Hi : (i < fan_size f)%nat).
  { apply fan_order_elem. rewrite <- E. apply elem_of_app. right. left. }
  apply NoDup_app in Hnd as (_ & Hdisj & Hnd2).
  apply NoDup_cons in Hnd2 as [Hni _].
  assert (Hnf : i ∉ fired).
  { intros Hin. apply (Hdisj i Hin). left. }
  repeat split; auto.
  - intros j Hj ->. contradiction.
  - intros j Hj ->. contradiction.
Qed.

(** A fulfilled fetch while none has been rejected: the element function
    stores its value; the last one resolves the promise of [Promise.all]. *)
Lemma fly_fulfilled (f : Fan) (fired : list nat) (i : nat) (todo : list nat) (u : Loop)
    (v : Val) :
  Flying f fired (i :: todo) u ->
  fan_answer f (fan_id f i) = inl v ->
  match todo with
  | [] => Arrived f (run 2 u)
  | _ :: _ => Flying f (fired ++ [i]) todo (run 2 u)
  end.
Proof.
  intros [Ho Hnone Hn Ht Hj (V & HV & HlV & Hdone) Hc Hr Ha Hs Hf Hset Herr] Hv.
  destruct (fired_and_todo f fired i todo Ho) as (Hi & Hnf & Hnt & Htodo & Hfired).
  assert (Hsi := Hs i (list_elem_of_here _ _)).
  assert (Esettled : fan_settled f i = Fulfilled v)
    by (unfold fan_settled, settled; now rewrite Hv).
  assert (Evalue : fan_value f i = v) by (unfold fan_value; now rewrite Hv).
  assert (Enone : first_rejection f (fired ++ [i]) = None).
  { rewrite first_rejection_app, Hnone. cbn [first_rejection]. now rewrite Hv. }
  change 2%nat with (1 + 1)%nat. rewrite run_add.
  rewrite (timer_fires f i todo u Ht Hj Hsi). rewrite Esettled.
  unfold settle_event. rewrite Hv.
  cbn [run]. unfold tick. cbn [jobs react fan_element fst resolveElement exec heap].
  rewrite HV. cbn [default from_option id arr_set write_cell heap].
  rewrite list_lookup_insert_ne by (unfold fan_values, fan_count; lia).
  rewrite Hc. cbn [default from_option id num_add].
  replace (Z.of_nat (length (i :: todo)) + -1) with (Z.of_nat (length todo))
    by (cbn [length]; lia).
  rewrite is_zero_of_nat.
  assert (Hvals : forall j, j ∈ fired ++ [i] ->
                    <[i := v]> V !! j = Some (fan_value f j)).
  { intros j [Hj' | Hj']%elem_of_app.
    - rewrite list_lookup_insert_ne by (intros ->; contradiction). now apply Hdone.
    - apply list_elem_of_singleton in Hj'. subst j. rewrite Evalue.
      apply list_lookup_insert_eq. lia. }
  assert (Hset' : timers_set
                    (trace u ++ [Printed Log [VStr "data"; fan_id f i];
                                 ResolveCalled (Z.max (now u) (fan_due f i)) (fan_slot f i) v])
                  = (timers_set (trace (fan_loop f)) + fan_size f)%nat).
  { rewrite timers_set_app, Hset. cbn. lia. }
  assert (Herr' : errors
                    (trace u ++ [Printed Log [VStr "data"; fan_id f i];
                                 ResolveCalled (Z.max (now u) (fan_due f i)) (fan_slot f i) v])
                  = errors (trace (fan_loop f))).
  { rewrite errors_app, Herr. cbn. apply app_nil_r. }
  assert (Hslots : forall j, j ∈ fired ++ [i] ->
                     <[fan_slot f i := Fulfilled v]> (promises u) !! fan_slot f j
                     = Some (fan_settled f j)).
  { intros j [Hj' | Hj']%elem_of_app.
    - rewrite list_lookup_insert_ne
        by (unfold fan_slot; intros E; apply (Hfired j Hj'); lia).
      now apply Hf.
    - apply list_elem_of_singleton in Hj'. subst j. rewrite Esettled.
      apply list_lookup_insert_eq. apply lookup_lt_Some in Hsi. exact Hsi. }
  destruct todo as [ | i' todo'].
  - cbn [length Nat.eqb exec write_cell map now timers jobs promises heap trace].
    rewrite list_lookup_insert_ne by (unfold fan_values, fan_count; lia).
    rewrite list_lookup_insert_eq by (apply lookup_lt_Some in HV; exact HV).
    cbn [default from_option id].
    unfold settle, emit. cbn [write_cell promises now timers jobs heap trace].
    rewrite list_lookup_insert_ne by (unfold fan_all, fan_slot; lia).
    rewrite Ha. cbn [map react fst app].
    assert (Eall : fired ++ [i] = fan_order f) by exact Ho.
    rewrite (fan_values_complete f (<[i := v]> V)).
    + split; cbn [now timers jobs promises trace]; try reflexivity.
      * now rewrite <- Eall.
      * unfold awaited. cbn [write_cell promises].
        rewrite !list_lookup_insert_ne by (unfold fan_all, fan_slot; lia). exact Hr.
      * intros j Hj'. rewrite list_lookup_insert_ne by (unfold fan_all, fan_slot; lia).
        apply Hslots. rewrite Eall. now apply fan_order_elem.
      * rewrite <- Eall, clock_after_snoc, <- Hn. reflexivity.
      * rewrite timers_set_app, Hset'. cbn. lia.
      * rewrite errors_app, Herr'. cbn. apply app_nil_r.
    + now rewrite length_insert.
    + intros j Hj'. apply Hvals. rewrite Eall. now apply fan_order_elem.
  - cbn [length Nat.eqb exec write_cell].
    split; cbn [write_cell now timers jobs promises heap trace];
      try reflexivity; try assumption.
    + rewrite <- app_assoc. exact Ho.
    + rewrite clock_after_snoc, <- Hn. reflexivity.
    + exists (<[i := v]> V). split; [ | split].
      * rewrite list_lookup_insert_ne by (unfold fan_values, fan_count; lia).
        apply list_lookup_insert_eq. apply lookup_lt_Some in HV. exact HV.
      * now rewrite length_insert.
      * exact Hvals.
    + apply list_lookup_insert_eq. rewrite length_insert.
      apply lookup_lt_Some in Hc. exact Hc.
    + unfold awaited. cbn [write_cell promises].
      rewrite list_lookup_insert_ne by (unfold fan_slot; lia). exact Hr.
    + rewrite list_lookup_insert_ne by (unfold fan_all, fan_slot; lia). exact Ha.
    + intros j Hj'. rewrite list_lookup_insert_ne.
      * apply Hs. now right.
      * unfold fan_slot. intros E. apply (Htodo j Hj'). lia.
Qed.

(** The first rejected fetch takes three turns: its timer, the rejection
    of the promise of [Promise.all], and the [catch] of the body, which
    logs the error and rejects the call with it. *)
Lemma fly_rejected (f : Fan) (fired : list nat) (i : nat) (todo : list nat) (u : Loop)
    (e : Val) :
  Flying f fired (i :: todo) u ->
  fan_answer f (fan_id f i) = inr e ->
  Failed f e (fired ++ [i]) todo (run 3 u).
Proof.
  intros [Ho Hnone Hn Ht Hj _ _ Hr Ha Hs Hf Hset Herr] Hv.
  destruct (fired_and_todo f fired i todo Ho) as (Hi & Hnf & Hnt & Htodo & Hfired).
  assert (Hsi := Hs i (list_elem_of_here _ _)).
  assert (Esettled : fan_settled f i = Rejected e)
    by (unfold fan_settled, settled; now rewrite Hv).
  change 3%nat with (1 + (1 + 1))%nat. rewrite !run_add.
  rewrite (timer_fires f i todo u Ht Hj Hsi). rewrite Esettled.
  unfold settle_event. rewrite Hv.
  cbn [react fan_element snd]. rewrite job_runs. cbn [exec].
  unfold settle, emit. cbn [promises now timers jobs heap trace].
  rewrite list_lookup_insert_ne by (unfold fan_all, fan_slot; lia).
  rewrite Ha. cbn [map react snd app].
  rewrite job_runs. unfold fan_on_error. cbn [exec].
  unfold settle, emit. cbn [promises now timers jobs heap trace].
  rewrite !list_lookup_insert_ne by (unfold fan_all, fan_slot, fan_result; lia).
  unfold awaited in Hr. rewrite Hr. cbn [map app].
  split; cbn [now timers jobs promises heap trace]; try reflexivity.
  - rewrite <- app_assoc. exact Ho.
  - rewrite first_rejection_app, Hnone. cbn [first_rejection]. now rewrite Hv.
  - rewrite clock_after_snoc, <- Hn. reflexivity.
  - apply list_lookup_insert_eq. rewrite !length_insert.
    apply lookup_lt_Some in Hr. exact Hr.
  - rewrite list_lookup_insert_ne by (unfold fan_all, fan_slot, fan_result; lia).
    apply list_lookup_insert_eq. rewrite length_insert.
    apply lookup_lt_Some in Ha. exact Ha.
  - intros j Hj'.
    rewrite !list_lookup_insert_ne; [apply Hs; now right | .. ];
      unfold fan_all, fan_slot, fan_result; try lia.
    + intros E. apply (Htodo j Hj'). lia.
    + assert (j < fan_size f)%nat; [ | lia].
      apply fan_order_elem. rewrite <- Ho. apply elem_of_app. right. now right.
  - intros j [Hj' | Hj']%elem_of_app.
    + assert (j < fan_size f)%nat.
      { apply fan_order_elem. rewrite <- Ho. apply elem_of_app. now left. }
      rewrite !list_lookup_insert_ne; [now apply Hf | .. ];
        unfold fan_all, fan_slot, fan_result; try lia.
      intros E. apply (Hfired j Hj'). lia.
    + apply list_elem_of_singleton in Hj'. subst j. rewrite Esettled.
      rewrite !list_lookup_insert_ne by (unfold fan_all, fan_slot, fan_result; lia).
      apply list_lookup_insert_eq. apply lookup_lt_Some in Hsi. exact Hsi.
  - rewrite !timers_set_app, Hset. cbn. lia.
  - rewrite !errors_app, Herr. cbn. rewrite ?app_nil_r. reflexivity.
Qed.

(** A fetch that completes after the rejection: its promise is settled
    like any other, and nothing else changes. *)
Lemma fail_step (f : Fan) (e : Val) (fired : list nat) (i : nat) (todo : list nat)
    (u : Loop) :
  Failed f e fired (i :: todo) u ->
  Failed f e (fired ++ [i]) todo (run 2 u).
Proof.
  intros [Ho Hfirst Hn Ht Hj Hr Ha Hs Hf Hset Herr].
  destruct (fired_and_todo f fired i todo Ho) as (Hi & Hnf & Hnt & Htodo & Hfired).
  assert (Hsi := Hs i (list_elem_of_here _ _)).
  change 2%nat with (1 + 1)%nat. rewrite run_add.
  rewrite (timer_fires f i todo u Ht Hj Hsi).
  rewrite job_runs.
  match goal with
  | |- Failed _ _ _ _ (exec _ ?st) =>
      destruct (job_after_failure f e i st) as (En & Et & Ej & Ep & Es & Ee)
  end.
  { cbn [promises]. rewrite list_lookup_insert_ne by (unfold fan_all, fan_slot; lia).
    exact Ha. }
  cbn [now timers jobs promises trace] in En, Et, Ej, Ep, Es, Ee.
  split.
  - rewrite <- app_assoc. exact Ho.
  - rewrite first_rejection_app, Hfirst. reflexivity.
  - rewrite En, clock_after_snoc, <- Hn. reflexivity.
  - exact Et.
  - exact Ej.
  - rewrite Ep. rewrite list_lookup_insert_ne; [exact Hr | ].
    unfold fan_slot, fan_result. lia.
  - rewrite Ep. rewrite list_lookup_insert_ne by (unfold fan_all, fan_slot; lia). exact Ha.
  - intros j Hj'. rewrite Ep. rewrite list_lookup_insert_ne.
    + apply Hs. now right.
    + unfold fan_slot. intros E. apply (Htodo j Hj'). lia.
  - intros j [Hj' | Hj']%elem_of_app; rewrite Ep.
    + rewrite list_lookup_insert_ne; [now apply Hf | ].
      unfold fan_slot. intros E. apply (Hfired j Hj'). lia.
    + apply list_elem_of_singleton in Hj'. subst j.
      apply list_lookup_insert_eq. apply lookup_lt_Some in Hsi. exact Hsi.
  - rewrite Es, timers_set_app, Hset. cbn.
    rewrite settle_event_not_timer. cbn. lia.
  - rewrite Ee, errors_app, Herr.
    change [Printed Log [VStr "data"; fan_id f i];
            settle_event (fan_answer f) (Z.max (now u) (fan_due f i)) (fan_slot f i) (fan_id f i)]
      with ([Printed Log [VStr "data"; fan_id f i]]
            ++ [settle_event (fan_answer f) (Z.max (now u) (fan_due f i))
                  (fan_slot f i) (fan_id f i)]).
    rewrite errors_app, settle_event_not_error. cbn. now rewrite app_nil_r.
Qed.

Lemma failed_lands (f : Fan) (e : Val) (u : Loop) :
  Failed f e (fan_order f) [] u -> Landed f u.
Proof.
  intros [Ho Hfirst Hn Ht Hj Hr Ha Hs Hf Hset Herr].
  split.
  - split; [now rewrite Ht | exact Hj].
  - unfold outcome, fan_outcome. now rewrite Hfirst.
  - intros i Hi. apply Hf. now apply fan_order_elem.
  - exact Hn.
  - exact Hset.
  - now rewrite Hfirst.
Qed.

Lemma fail_all (f : Fan) (e : Val) (todo : list nat) : forall (fired : list nat) (u : Loop),
  Failed f e fired todo u -> Landed f (run (2 * length todo) u).
Proof.
  induction todo as [ | i todo IH]; intros fired u HF.
  - cbn [length Nat.mul run]. apply (failed_lands f e).
    pose proof (fa_order _ _ _ _ _ HF) as Ho. rewrite app_nil_r in Ho.
    now rewrite <- Ho.
  - replace (2 * length (i :: todo))%nat with (2 + 2 * length todo)%nat by (cbn; lia).
    rewrite run_add. apply (IH (fired ++ [i])). apply fail_step, HF.
Qed.

Lemma arrived_lands (f : Fan) (u : Loop) : Arrived f u -> Landed f (run 1 u).
Proof.
  intros [Hnone Ht Hj Hr Hs Hn Hset Herr].
  cbn [run]. unfold tick. rewrite Hj. unfold fan_collect. cbn [exec].
  unfold settle, emit. cbn [promises now timers jobs heap trace].
  unfold awaited in Hr. rewrite Hr. cbn [map app].
  split; cbn [now timers jobs promises heap trace].
  - split; [exact Ht | reflexivity].
  - unfold outcome, fan_outcome. rewrite Hnone. cbn [promises].
    apply list_lookup_insert_eq. apply lookup_lt_Some in Hr. exact Hr.
  - intros i Hi. unfold outcome. cbn [promises].
    rewrite list_lookup_insert_ne by (unfold fan_slot, fan_result; lia). now apply Hs.
  - exact Hn.
  - rewrite timers_set_app, Hset. cbn. lia.
  - rewrite errors_app, Herr, Hnone. cbn. reflexivity.
Qed.

(** Whatever the order the timers are queued in and whichever fetches are
    rejected, two turns per fetch and one more bring the loop to rest. *)
Lemma fly_all (f : Fan) (todo : list nat) : forall (fired : list nat) (u : Loop),
  todo <> [] -> Flying f fired todo u -> Landed f (run (2 * length todo + 1) u).
Proof.
  induction todo as [ | i todo IH]; intros fired u Hne HF; [congruence | ].
  destruct (fan_answer f (fan_id f i)) as [v | e] eqn:Hv.
  - replace (2 * length (i :: todo) + 1)%nat with (2 + (2 * length todo + 1))%nat
      by (cbn; lia).
    rewrite run_add. pose proof (fly_fulfilled f fired i todo u v HF Hv) as H.
    destruct todo as [ | i' todo'].
    + cbn [length Nat.mul Nat.add]. apply arrived_lands, H.
    + apply (IH (fired ++ [i])); [discriminate | exact H].
  - replace (2 * length (i :: todo) + 1)%nat with (3 + 2 * length todo)%nat
      by (cbn; lia).
    rewrite run_add. apply (fail_all f e todo (fired ++ [i])).
    apply fly_rejected; assumption.
Qed.

Lemma errors_of_printed (t : list Event) :
  errors t =
  omap (fun la : Level * list Val =>
          match fst la with Error => Some (snd la) | _ => None end) (printed t).
Proof.
  induction t as [ | ev t IH]; [reflexivity | ].
  change (ev :: t) with ([ev] ++ t). unfold printed. rewrite errors_app, omap_app, omap_app.
  fold (printed t). rewrite <- IH.
  destruct ev as [lvl args | | | ]; [destruct lvl | | | ]; reflexivity.
Qed.

Lemma first_rejection_nil_order (f : Fan) : fan_size f = 0%nat -> fan_order f = [].
Proof. intros E. unfold fan_order. now rewrite E. Qed.

(** Phase 3: the body awaits the promise of [Promise.all]. *)
Lemma fan_take_off (f : Fan) (u : Loop) :
  FanRegistered f (fan_size f) u ->
  Departed f
    (exec (GetRef (fan_count f) (fun n =>
           SetRef (fan_count f) (num_add n (-1)) (
           if is_zero (num_add n (-1))
           then GetRef (fan_values f) (fun vs =>
                  Resolve (fan_all f) vs
                    (Then (fan_all f) (fan_collect f) (fan_on_error f) Done))
           else Then (fan_all f) (fan_collect f) (fan_on_error f) Done))) u).
Proof.
  intros [Hn Ht Hj Hv Hc Hr Ha Hd _ Hset Hpr].
  assert (Herr : errors (trace u) = errors (trace (fan_loop f)))
    by (now rewrite !errors_of_printed, Hpr).
  unfold Departed.
  cbn [exec]. rewrite Hc. cbn [default from_option id num_add].
  replace (1 + Z.of_nat (fan_size f) + -1) with (Z.of_nat (fan_size f)) by lia.
  rewrite is_zero_of_nat.
  destruct (Nat.eqb_spec (fan_size f) 0) as [En | Hpos].
  - pose proof (first_rejection_nil_order f En) as Eo.
    assert (E0 : fan_ids f = []) by (unfold fan_size in En; now destruct (fan_ids f)).
    rewrite Eo.
    cbn [exec write_cell heap].
    rewrite list_lookup_insert_ne by (unfold fan_values, fan_count; lia).
    rewrite Hv, En. cbn [default from_option id replicate].
    unfold settle, emit. cbn [write_cell promises now timers jobs heap trace].
    unfold awaited in Ha. rewrite Ha. cbn [map app].
    unfold subscribe. cbn [write_cell promises now timers jobs heap trace].
    rewrite list_lookup_insert_eq by (apply lookup_lt_Some in Ha; exact Ha).
    cbn [react fst]. rewrite Hj. cbn [app].
    split; [cbn [trace]; rewrite printed_app, Hpr; cbn; apply app_nil_r | ].
    split; cbn [now timers jobs promises heap trace].
    + now rewrite Eo.
    + now rewrite Ht, Eo.
    + unfold fan_values_list. now rewrite E0.
    + unfold awaited. cbn [promises].
      rewrite list_lookup_insert_ne by (unfold fan_all, fan_slot, fan_result; lia). exact Hr.
    + intros i Hi. lia.
    + now rewrite Eo.
    + rewrite timers_set_app, Hset. cbn. lia.
    + rewrite errors_app, Herr. cbn. apply app_nil_r.
  - cbn [exec write_cell].
    assert (Hlen : length (fan_order f) = fan_size f) by apply firing_order_length.
    unfold subscribe. cbn [write_cell promises]. unfold awaited in Ha. rewrite Ha.
    cbn [write_cell now timers jobs promises heap trace app].
    split; [exact Hpr | ].
    destruct (fan_order f) as [ | i0 rest] eqn:Eo; [cbn in Hlen; lia | ].
    rewrite <- Eo in *.
    split; cbn [write_cell now timers jobs promises heap trace app]; try assumption;
      try reflexivity.
    + exists (replicate (fan_size f) VUndefined). split; [ | split].
      * rewrite list_lookup_insert_ne by (unfold fan_values, fan_count; lia). exact Hv.
      * apply length_replicate.
      * intros i Hi. inversion Hi.
    + rewrite Hlen.
      apply list_lookup_insert_eq. apply lookup_lt_Some in Hc. exact Hc.
    + unfold awaited. cbn [write_cell promises].
      rewrite list_lookup_insert_ne by (unfold fan_all, fan_slot, fan_result; lia). exact Hr.
    + apply list_lookup_insert_eq. apply lookup_lt_Some in Ha. exact Ha.
    + intros i Hi. rewrite list_lookup_insert_ne.
      * apply Hd. now apply fan_order_elem.
      * apply fan_order_elem in Hi. unfold fan_all, fan_slot. lia.
    + intros i Hi. inversion Hi.
Qed.

Lemma departed_lands (f : Fan) (u : Loop) :
  Departed f u -> Landed f (run (2 * fan_size f + 1) u).
Proof.
  intros [_ H].
  assert (Hlen : length (fan_order f) = fan_size f) by apply firing_order_length.
  destruct (fan_order f) as [ | i0 rest] eqn:Eo.
  - cbn [length] in Hlen. rewrite <- Hlen. cbn [Nat.mul Nat.add]. now apply arrived_lands.
  - rewrite <- Eo in *. rewrite <- Hlen.
    apply (fly_all f (fan_order f) []); [rewrite Eo; discriminate | exact H].
Qed.

(** The call of [getMultipleUsers] itself: every fetch is issued before the
    call returns. *)
Lemma getMultipleUsers_departs (delay : Val -> Z) (answer : Val -> Val + Val)
    (ids : list Val) (s : Loop) :
  quiet s ->
  Departed (mkFan delay answer ids s) (call (getMultipleUsers delay answer ids) s).
Proof.
  intros Hq.
  set (f := mkFan delay answer ids s).
  unfold getMultipleUsers. rewrite call_async.
  unfold try_catch, bind at 1. cbv beta.
  edestruct (fan_mapM_issue f ids 0) as (u1 & HI & E);
    [apply (fan_issued_start f), Hq | reflexivity | ].
  cbn [fan_delay fan_answer f] in E. rewrite E. clear E.
  cbn [Nat.add] in HI.
  unfold bind, await, bind, await_promise, Return, Promise_all. cbn [exec].
  pose proof (fi_len _ _ _ HI) as Hl. pose proof (fi_heap _ _ _ HI) as Hh.
  change (length ids) with (fan_size f) in *.
  replace (length (promises u1)) with (fan_all f)
    by (symmetry; unfold fan_all; exact Hl).
  replace (length (heap (alloc u1))) with (fan_values f)
    by (unfold fan_values; cbn [alloc heap]; now rewrite Hh).
  replace (length (heap (new_cell (VArr []) (alloc u1)))) with (fan_count f)
    by (unfold fan_count; cbn [new_cell alloc heap]; rewrite length_app, Hh; cbn; lia).
  edestruct (fan_register_all f (List.seq (fan_slot f 0) (fan_size f)) 0) as (u3 & HR & E);
    [ apply (fan_promise_all_start f u1 HI)
    | now rewrite length_seq
    | now rewrite length_seq
    | ].
  rewrite E. clear E.
  exact (fan_take_off f u3 HR).
Qed.

(** The whole run of [getMultipleUsers]: whatever the delays and whichever
    fetches are rejected, two turns of the loop per id and one more bring
    it to rest. *)
Lemma getMultipleUsers_lands (delay : Val -> Z) (answer : Val -> Val + Val)
    (ids : list Val) (s : Loop) :
  quiet s ->
  Landed (mkFan delay answer ids s)
    (run (2 * length ids + 1) (call (getMultipleUsers delay answer ids) s)).
Proof.
  intros Hq. apply (departed_lands (mkFan delay answer ids s)).
  now apply getMultipleUsers_departs.
Qed.

(** ** The order the timers fire in *)

Lemma fires_before_asym (due : nat -> Z) (i j : nat) :
  fires_before due i j -> fires_before due j i -> False.
Proof. unfold fires_before. lia. Qed.

Lemma queue_after_sorted (due : nat -> Z) (j : nat) (order : list nat) :
  StronglySorted (fires_before due) order ->
  Forall (fun i => (i < j)%nat) order ->
  StronglySorted (fires_before due) (queue_after due j order).
Proof.
  induction 1 as [ | i rest Hs IH Hi]; intros Hlt; cbn [queue_after].
  - repeat constructor.
  - apply Forall_cons in Hlt as [Hij Hlt].
    destruct (Z.leb_spec (due i) (due j)) as [Hle | Hgt].
    + constructor; [now apply IH | ].
      rewrite queue_after_perm. constructor; [ | exact Hi].
      unfold fires_before. lia.
    + constructor; [now constructor | ].
      constructor; [unfold fires_before; lia | ].
      eapply Forall_impl; [exact Hi | ].
      intros k Hk. unfold fires_before in *. cbv beta in *. lia.
Qed.

(** The timers fire by due time, those due at the same time in the order
    they were set in. *)
Lemma firing_order_sorted (due : nat -> Z) (n : nat) :
  StronglySorted (fires_before due) (firing_order due n).
Proof.
  induction n as [ | n IH]; cbn [firing_order]; [constructor | ].
  apply queue_after_sorted; [exact IH | ].
  apply Forall_forall. intros i Hi. now apply firing_order_elem in Hi.
Qed.

Lemma first_rejection_earliest (f : Fan) (i : nat) (e : Val) (order : list nat) :
  StronglySorted (fires_before (fan_due f)) order ->
  i ∈ order ->
  fan_answer f (fan_id f i) = inr e ->
  (forall j e', j ∈ order -> j <> i -> fan_answer f (fan_id f j) = inr e' ->
     fires_before (fan_due f) i j) ->
  first_rejection f order = Some e.
Proof.
  induction 1 as [ | a rest Hs IH Ha]; intros Hi He Hfirst.
  - inversion Hi.
  - cbn [first_rejection].
    destruct (decide (a = i)) as [-> | Hne]; [now rewrite He | ].
    apply elem_of_cons in Hi as [-> | Hi]; [congruence | ].
    destruct (fan_answer f (fan_id f a)) as [v | e'] eqn:Ea.
    + apply IH; [exact Hi | exact He | ].
      intros j e' Hj. apply Hfirst. now right.
    + exfalso. apply (fires_before_asym (fan_due f) i a).
      * apply (Hfirst a e'); [left | exact Hne | exact Ea].
      * rewrite Forall_forall in Ha. now apply Ha.
Qed.

Lemma first_rejection_some (f : Fan) (order : list nat) (e : Val) :
  first_rejection f order = Some e ->
  exists i, i ∈ order /\ fan_answer f (fan_id f i) = inr e.
Proof.
  induction order as [ | a rest IH]; cbn [first_rejection]; [discriminate | ].
  destruct (fan_answer f (fan_id f a)) as [v | e'] eqn:Ea.
  - intros H. destruct (IH H) as (i & Hi & Hie). exists i. split; [now right | exact Hie].
  - intros [= <-]. exists a. split; [left | exact Ea].
Qed.

Lemma first_rejection_none (f : Fan) (order : list nat) :
  first_rejection f order = None ->
  forall i, i ∈ order -> exists v, fan_answer f (fan_id f i) = inl v.
Proof.
  induction order as [ | a rest IH]; cbn [first_rejection]; intros H i Hi.
  - inversion Hi.
  - destruct (fan_answer f (fan_id f a)) as [v | e'] eqn:Ea; [ | discriminate].
    apply elem_of_cons in Hi as [-> | Hi]; [now exists v | now apply IH].
Qed.

(** ** The clock when the last timer has fired *)

Lemma clock_perm (f : Fan) (l l' : list nat) :
  l ≡ₚ l' -> clock_after f l = clock_after f l'.
Proof.
  unfold clock_after. generalize (now (fan_loop f)).
  intros t H. revert t.
  induction H as [ | a l l' _ IH | a b l | l l' l'' _ IH1 _ IH2]; intros t;
    cbn [fold_left].
  - reflexivity.
  - apply IH.
  - f_equal. lia.
  - now rewrite IH1.
Qed.

Lemma clock_seq (c : Z) (delay : Val -> Z) (rest : list Val) :
  forall (pre : list Val) (t : Z), c <= t ->
  fold_left (fun t i => Z.max t (c + Z.max 0 (delay (default VUndefined ((pre ++ rest) !! i)))))
    (List.seq (length pre) (length rest)) t =
  Z.max t (c + longest delay rest).
Proof.
  induction rest as [ | x rest IH]; intros pre t Ht; cbn [length List.seq fold_left longest foldr].
  - lia.
  - rewrite list_lookup_middle by reflexivity. cbn [default from_option id].
    specialize (IH (pre ++ [x]) (Z.max t (c + Z.max 0 (delay x)))).
    rewrite <- app_assoc, length_app in IH. cbn [app length] in IH.
    rewrite Nat.add_1_r in IH. rewrite IH by lia.
    fold (longest delay rest). lia.
Qed.

Lemma clock_longest (f : Fan) :
  clock_after f (fan_order f) = now (fan_loop f) + longest (fan_delay f) (fan_ids f).
Proof.
  unfold fan_order. rewrite (clock_perm f _ _ (firing_order_perm _ _)).
  unfold clock_after, fan_due, fan_id, fan_size.
  pose proof (clock_seq (now (fan_loop f)) (fan_delay f) (fan_ids f) [] _ (Z.le_refl _))
    as E.
  cbn [app length] in E. rewrite E. clear E.
  assert (0 <= longest (fan_delay f) (fan_ids f)).
  { unfold longest. induction (fan_ids f); cbn [foldr]; lia. }
  lia.
Qed.

Lemma fan_id_lookup (f : Fan) (i : nat) (id : Val) :
  fan_ids f !! i = Some id -> fan_id f i = id.
Proof. intros H. unfold fan_id. now rewrite H. Qed.

(** ** [getMultipleUsers] when fetches may be rejected *)

(** [getMultipleUsers] fails with the earliest failure.  When the fetch of
    the id at index [i] is rejected with [e], and every other rejected
    fetch has a longer delay, or the same delay and a later place in the
    list, the call is rejected with [e], whatever the other fetches do, and
    the error is logged once with [console.error]. *)
Theorem getMultipleUsers_rejects_with_the_earliest_failure
    (delay : Val -> Z) (answer : Val -> Val + Val) (ids : list Val) (s : Loop)
    (i : nat) (id e : Val) :
  quiet s ->
  ids !! i = Some id ->
  answer id = inr e ->
  (forall j id' e', ids !! j = Some id' -> j <> i -> answer id' = inr e' ->
     Z.max 0 (delay id) < Z.max 0 (delay id') \/
     (Z.max 0 (delay id) = Z.max 0 (delay id') /\ (i < j)%nat)) ->
  let s' := run (2 * length ids + 1) (call (getMultipleUsers delay answer ids) s) in
  quiet s' /\
  outcome (length (promises s)) s' = Some (Rejected e) /\
  errors (trace s') = errors (trace s) ++ [[VStr "Error:"; e]].
Proof.
  intros Hq Hi He Hfirst s'.
  pose proof (getMultipleUsers_lands delay answer ids s Hq) as [Lq Lo _ _ _ Le].
  fold s' in Lq, Lo, Le.
  set (f := mkFan delay answer ids s) in *.
  assert (E : first_rejection f (fan_order f) = Some e).
  { apply (first_rejection_earliest f i).
    - apply firing_order_sorted.
    - apply fan_order_elem. apply lookup_lt_Some in Hi. exact Hi.
    - rewrite (fan_id_lookup f i id Hi). exact He.
    - intros j e' Hj Hne Hje.
      apply fan_order_elem in Hj.
      destruct (lookup_lt_is_Some_2 ids j Hj) as [id' Hid'].
      rewrite (fan_id_lookup f j id' Hid') in Hje.
      unfold fires_before, fan_due.
      rewrite (fan_id_lookup f j id' Hid'), (fan_id_lookup f i id Hi).
      cbn [fan_loop fan_delay f].
      destruct (Hfirst j id' e' Hid' Hne Hje) as [H | [H1 H2]]; [left | right]; lia. }
  change (fan_result f) with (length (promises s)) in Lo.
  split; [exact Lq | ].
  split.
  - rewrite Lo. unfold fan_outcome. now rewrite E.
  - rewrite Le, E. reflexivity.
Qed.

Lemma getMultipleUsers_rejects_with_the_earliest_failure_witness :
  let delay := fun id => match id with VNum n => 400 - 100 * n | _ => 0 end in
  let s := mkLoop 0 [] [] [] [] [] in
  let s' := run 7 (call (getMultipleUsers delay
                           (fun id => match id with
                                      | VNum 1 => inr (VStr "slow failure")
                                      | VNum 2 => inl (VStr "user 2")
                                      | _ => inr (VStr "fast failure")
                                      end)
                           [VNum 1; VNum 2; VNum 3]) s) in
  outcome 0 s' = Some (Rejected (VStr "fast failure")) /\
  errors (trace s') = [[VStr "Error:"; VStr "fast failure"]].
Proof.
  intros delay s s'.
  refine (proj2 (getMultipleUsers_rejects_with_the_earliest_failure
                   delay _ [VNum 1; VNum 2; VNum 3] s 2 (VNum 3) (VStr "fast failure")
                   (conj eq_refl eq_refl) eq_refl eq_refl _)).
  intros [ | [ | [ | j]]] id' e' Hj Hne Hr; cbn in Hj; try discriminate; try congruence.
  - injection Hj as <-. left. cbn. lia.
  - injection Hj as <-. discriminate Hr.
Defined.

(** No fetch is cancelled.  Whether or not the call is rejected, every
    fetch it issued runs to its end: when the loop has come to rest the
    promise of each fetch is settled with that fetch's own outcome, and as
    many timers were set as there are ids. *)
Theorem getMultipleUsers_lets_every_fetch_finish
    (delay : Val -> Z) (answer : Val -> Val + Val) (ids : list Val) (s : Loop)
    (i : nat) (id : Val) :
  quiet s ->
  ids !! i = Some id ->
  let s' := run (2 * length ids + 1) (call (getMultipleUsers delay answer ids) s) in
  outcome (S (length (promises s)) + i) s' =
    Some (match answer id with inl v => Fulfilled v | inr e => Rejected e end) /\
  timers_set (trace s') = (timers_set (trace s) + length ids)%nat.
Proof.
  intros Hq Hi s'.
  pose proof (getMultipleUsers_lands delay answer ids s Hq) as [_ _ Ls _ Lt _].
  fold s' in Ls, Lt.
  set (f := mkFan delay answer ids s) in *.
  split; [ | exact Lt].
  assert (Hlt : (i < fan_size f)%nat) by (apply lookup_lt_Some in Hi; exact Hi).
  specialize (Ls i Hlt). unfold fan_settled, settled in Ls.
  rewrite (fan_id_lookup f i id Hi) in Ls. exact Ls.
Qed.

Lemma getMultipleUsers_lets_every_fetch_finish_witness :
  let s' := run 7 (call (getMultipleUsers (fun _ => 100)
                           (fun id => match id with
                                      | VNum 1 => inr (VStr "failure")
                                      | _ => inl (VStr "user")
                                      end)
                           [VNum 1; VNum 2; VNum 3]) (mkLoop 0 [] [] [] [] [])) in
  outcome 3 s' = Some (Fulfilled (VStr "user")) /\ timers_set (trace s') = 3%nat.
Proof.
  intros s'.
  exact (getMultipleUsers_lets_every_fetch_finish (fun _ => 100) _
           [VNum 1; VNum 2; VNum 3] (mkLoop 0 [] [] [] [] []) 2 (VNum 3)
           (conj eq_refl eq_refl) eq_refl).
Defined.

(** The parallel fetches take as long as the slowest of them.  The loop
    comes to rest when the clock has moved on by the longest delay, also
    when the call was rejected long before. *)
Theorem getMultipleUsers_takes_the_longest_delay
    (delay : Val -> Z) (answer : Val -> Val + Val) (ids : list Val) (s : Loop) :
  quiet s ->
  let s' := run (2 * length ids + 1) (call (getMultipleUsers delay answer ids) s) in
  quiet s' /\ now s' = now s + longest delay ids.
Proof.
  intros Hq s'.
  pose proof (getMultipleUsers_lands delay answer ids s Hq) as [Lq _ _ Ln _ _].
  fold s' in Lq, Ln.
  split; [exact Lq | ].
  rewrite Ln. apply (clock_longest (mkFan delay answer ids s)).
Qed.

Lemma getMultipleUsers_takes_the_longest_delay_witness :
  let delay := fun id => match id with VNum n => 400 - 100 * n | _ => 0 end in
  now (run 7 (call (getMultipleUsers delay (fun id => inl id) [VNum 1; VNum 2; VNum 3])
                (mkLoop 50 [] [] [] [] []))) = 350.
Proof.
  intros delay.
  exact (proj2 (getMultipleUsers_takes_the_longest_delay delay (fun id => inl id)
                  [VNum 1; VNum 2; VNum 3] (mkLoop 50 [] [] [] [] [])
                  (conj eq_refl eq_refl))).
Defined.

(** Every fetch is issued before [getMultipleUsers] returns.  When the
    call returns to its caller, before the loop takes a turn, one timer per
    id is set and queued, the clock has not moved, nothing is printed, and
    the promise of the call is pending. *)
Theorem getMultipleUsers_issues_every_fetch_at_once
    (delay : Val -> Z) (answer : Val -> Val + Val) (ids : list Val) (s : Loop) :
  quiet s ->
  let s0 := call (getMultipleUsers delay answer ids) s in
  now s0 = now s /\
  length (timers s0) = length ids /\
  timers_set (trace s0) = (timers_set (trace s) + length ids)%nat /\
  printed (trace s0) = printed (trace s) /\
  outcome (length (promises s)) s0 = Some (Pending []).
Proof.
  intros Hq s0.
  pose proof (getMultipleUsers_departs delay answer ids s Hq) as [Hp H].
  fold s0 in Hp, H.
  set (f := mkFan delay answer ids s) in *.
  assert (Hlen : length (fan_order f) = length ids) by apply firing_order_length.
  destruct (fan_order f) as [ | i0 rest] eqn:Eo.
  - destruct H as [_ Ht _ Hr _ Hn Hs _].
    rewrite Ht, Hn, Eo. cbn [length] in *. unfold clock_after. cbn [fold_left].
    repeat (split; [first [reflexivity | assumption] | ]). exact Hr.
  - rewrite <- Eo in *.
    destruct H as [_ _ Hn Ht _ _ _ Hr _ _ _ Hs _].
    rewrite Ht, length_map, Hn. unfold clock_after. cbn [fold_left].
    repeat (split; [first [reflexivity | assumption] | ]). exact Hr.
Qed.

Lemma getMultipleUsers_issues_every_fetch_at_once_witness :
  let s0 := call (getMultipleUsers (fun _ => 100) (fun id => inl id)
                    [VNum 1; VNum 2; VNum 3]) (mkLoop 50 [] [] [] [] []) in
  now s0 = 50 /\ length (timers s0) = 3%nat.
Proof.
  intros s0.
  pose proof (getMultipleUsers_issues_every_fetch_at_once (fun _ => 100) (fun id => inl id)
                [VNum 1; VNum 2; VNum 3] (mkLoop 50 [] [] [] [] [])
                (conj eq_refl eq_refl)) as H.
  exact (conj (proj1 H) (proj1 (proj2 H))).
Defined.

(** [getMultipleUsers] is all or nothing.  The call is rejected exactly
    when some fetch is rejected, and then with the error of one of the
    rejected fetches; otherwise it is fulfilled. *)
Theorem getMultipleUsers_all_or_nothing
    (delay : Val -> Z) (answer : Val -> Val + Val) (ids : list Val) (s : Loop) :
  quiet s ->
  let s' := run (2 * length ids + 1) (call (getMultipleUsers delay answer ids) s) in
  (forall e, outcome (length (promises s)) s' = Some (Rejected e) ->
     exists id, id ∈ ids /\ answer id = inr e) /\
  ((exists e, outcome (length (promises s)) s' = Some (Rejected e)) <->
   (exists id e, id ∈ ids /\ answer id = inr e)) /\
  ((exists vs, outcome (length (promises s)) s' = Some (Fulfilled vs)) <->
   (forall id, id ∈ ids -> exists v, answer id = inl v)).
Proof.
  intros Hq s'.
  pose proof (getMultipleUsers_lands delay answer ids s Hq) as [_ Lo _ _ _ _].
  fold s' in Lo.
  set (f := mkFan delay answer ids s) in *.
  change (fan_result f) with (length (promises s)) in Lo.
  rewrite Lo. unfold fan_outcome.
  assert (Hin : forall id, id ∈ ids -> exists i, i ∈ fan_order f /\ fan_id f i = id).
  { intros id Hid. apply list_elem_of_lookup in Hid as [i Hi].
    exists i. split; [ | now apply fan_id_lookup].
    apply fan_order_elem. apply lookup_lt_Some in Hi. exact Hi. }
  assert (Hout : forall i, i ∈ fan_order f -> fan_id f i ∈ ids).
  { intros i Hi. apply fan_order_elem in Hi.
    destruct (lookup_lt_is_Some_2 ids i Hi) as [id Hid].
    rewrite (fan_id_lookup f i id Hid). eapply list_elem_of_lookup_2, Hid. }
  destruct (first_rejection f (fan_order f)) as [e0 | ] eqn:E.
  - destruct (first_rejection_some f _ _ E) as (i & Hi & Hie).
    split; [ | split].
    + intros e [= <-]. exists (fan_id f i). split; [now apply Hout | exact Hie].
    + split; [ | intros _; now exists e0].
      intros _. exists (fan_id f i), e0. split; [now apply Hout | exact Hie].
    + split; [intros [vs Hvs]; discriminate | ].
      intros Hall. destruct (Hall (fan_id f i) (Hout i Hi)) as [v Hv].
      cbn [fan_answer f] in Hie. congruence.
  - pose proof (first_rejection_none f _ E) as Hnone.
    split; [ | split].
    + intros e [=].
    + split; [intros [e [=]] | ].
      intros (id & e & Hid & He). destruct (Hin id Hid) as (i & Hi & <-).
      destruct (Hnone i Hi) as [v Hv]. cbn [fan_answer f] in Hv. congruence.
    + split; [ | intros _; eexists; reflexivity].
      intros _ id Hid. destruct (Hin id Hid) as (i & Hi & <-).
      exact (Hnone i Hi).
Qed.

Lemma getMultipleUsers_all_or_nothing_witness :
  let s' := run 5 (call (getMultipleUsers (fun _ => 100)
                           (fun id => match id with
                                      | VNum 2 => inr (VStr "failure")
                                      | _ => inl (VStr "user")
                                      end)
                           [VNum 1; VNum 2]) (mkLoop 0 [] [] [] [] [])) in
  exists e, outcome 0 s' = Some (Rejected e).
Proof.
  intros s'.
  apply (proj2 (proj1 (proj2 (getMultipleUsers_all_or_nothing (fun _ => 100)
                  (fun id => match id with
                             | VNum 2 => inr (VStr "failure")
                             | _ => inl (VStr "user")
                             end)
                  [VNum 1; VNum 2] (mkLoop 0 [] [] [] [] [])
                  (conj eq_refl eq_refl))))).
  exists (VNum 2), (VStr "failure"). split; [ | reflexivity].
  apply list_elem_of_further, list_elem_of_here.
Defined.

(** ** Promise chains: running a job step by step

    The promise table and the heap are kept as what was there at the call
    followed by what the call has added since. *)

Lemma lookup_offset {A} (l0 l : list A) (i : nat) : (l0 ++ l) !! (length l0 + i)%nat = l !! i.
Proof. rewrite lookup_app_r by lia. f_equal. lia. Qed.

Lemma lookup_offset0 {A} (l0 l : list A) : (l0 ++ l) !! length l0 = l !! 0%nat.
Proof. rewrite <- (lookup_offset l0 l 0). f_equal. lia. Qed.

Lemma run_job (n : nat) t ts j js ps h tr :
  run (S n) (mkLoop t ts (j :: js) ps h tr) = run n (exec j (mkLoop t ts js ps h tr)).
Proof. reflexivity. Qed.

Lemma run_timer (n : nat) t due cb ts ps h tr :
  run (S n) (mkLoop t ((due, cb) :: ts) [] ps h tr) =
  run n (exec cb (mkLoop (Z.max t due) ts [] ps h tr)).
Proof. reflexivity. Qed.

Lemma exec_Console lvl args k t ts js ps h tr :
  exec (Console lvl args k) (mkLoop t ts js ps h tr) =
  exec k (mkLoop t ts js ps h (tr ++ [Printed lvl args])).
Proof. reflexivity. Qed.

Lemma exec_SetTimeout cb ms k t ts js ps h tr :
  exec (SetTimeout cb ms k) (mkLoop t ts js ps h tr) =
  exec k (mkLoop t (insert_timer (t + Z.max 0 ms) cb ts) js ps h (tr ++ [TimerSet t ms])).
Proof. reflexivity. Qed.

Lemma exec_NewPromise k t ts js ps l h tr :
  exec (NewPromise k) (mkLoop t ts js (ps ++ l) h tr) =
  exec (k (length ps + length l)%nat) (mkLoop t ts js (ps ++ (l ++ [Pending []])) h tr).
Proof. cbn [exec promises]. unfold alloc. cbn [now timers jobs promises heap trace].
  now rewrite length_app, <- app_assoc. Qed.

Lemma exec_Then i f r k t ts js ps l h tr :
  exec (Then (length ps + i)%nat f r k) (mkLoop t ts js (ps ++ l) h tr) =
  exec k (match l !! i with
          | Some (Pending rs) => mkLoop t ts js (ps ++ <[i := Pending (rs ++ [(f, r)])]> l) h tr
          | Some o => mkLoop t ts (js ++ [react o (f, r)]) (ps ++ l) h tr
          | None => mkLoop t ts js (ps ++ l) h tr
          end).
Proof.
  cbn [exec]. unfold subscribe. cbn [now timers jobs promises heap trace].
  rewrite lookup_offset. destruct (l !! i) as [[rs | v | e] | ]; try reflexivity.
  now rewrite insert_app_r.
Qed.

Lemma exec_Resolve i v k t ts js ps l h tr :
  exec (Resolve (length ps + i)%nat v k) (mkLoop t ts js (ps ++ l) h tr) =
  exec k (match l !! i with
          | Some (Pending rs) =>
              mkLoop t ts (js ++ map (react (Fulfilled v)) rs) (ps ++ <[i := Fulfilled v]> l) h
                (tr ++ [ResolveCalled t (length ps + i)%nat v])
          | _ => mkLoop t ts js (ps ++ l) h (tr ++ [ResolveCalled t (length ps + i)%nat v])
          end).
Proof.
  cbn [exec]. unfold settle, emit. cbn [now timers jobs promises heap trace].
  rewrite lookup_offset. destruct (l !! i) as [[rs | v' | e] | ]; try reflexivity.
  now rewrite insert_app_r.
Qed.

Lemma exec_Reject i e k t ts js ps l h tr :
  exec (Reject (length ps + i)%nat e k) (mkLoop t ts js (ps ++ l) h tr) =
  exec k (match l !! i with
          | Some (Pending rs) =>
              mkLoop t ts (js ++ map (react (Rejected e)) rs) (ps ++ <[i := Rejected e]> l) h
                (tr ++ [RejectCalled t (length ps + i)%nat e])
          | _ => mkLoop t ts js (ps ++ l) h (tr ++ [RejectCalled t (length ps + i)%nat e])
          end).
Proof.
  cbn [exec]. unfold settle, emit. cbn [now timers jobs promises heap trace].
  rewrite lookup_offset. destruct (l !! i) as [[rs | v' | e'] | ]; try reflexivity.
  now rewrite insert_app_r.
Qed.

Lemma exec_NewRef v k t ts js ps h l tr :
  exec (NewRef v k) (mkLoop t ts js ps (h ++ l) tr) =
  exec (k (length h + length l)%nat) (mkLoop t ts js ps (h ++ (l ++ [v])) tr).
Proof. cbn [exec heap]. unfold new_cell. cbn [now timers jobs promises heap trace].
  now rewrite length_app, <- app_assoc. Qed.

Lemma exec_GetRef i k t ts js ps h l tr :
  exec (GetRef (length h + i)%nat k) (mkLoop t ts js ps (h ++ l) tr) =
  exec (k (default VUndefined (l !! i))) (mkLoop t ts js ps (h ++ l) tr).
Proof. cbn [exec heap]. now rewrite lookup_offset. Qed.

Lemma exec_SetRef i v k t ts js ps h l tr :
  exec (SetRef (length h + i)%nat v k) (mkLoop t ts js ps (h ++ l) tr) =
  exec k (mkLoop t ts js ps (h ++ <[i := v]> l) tr).
Proof. cbn [exec]. unfold write_cell. cbn [now timers jobs promises heap trace].
  now rewrite insert_app_r. Qed.

Lemma exec_Done (s : Loop) : exec Done s = s.
Proof. reflexivity. Qed.

Ltac tidy :=
  cbn [lookup list_lookup insert list_insert length app map react fst snd insert_timer
       default from_option id Nat.add].

Ltac job_step :=
  first [ rewrite exec_Console | rewrite exec_SetTimeout | rewrite exec_NewPromise
        | rewrite exec_Then | rewrite exec_Resolve | rewrite exec_Reject
        | rewrite exec_NewRef | rewrite exec_GetRef | rewrite exec_SetRef
        | rewrite exec_Done ];
  tidy.

Ltac turn := first [rewrite run_job | rewrite run_timer]; rewrite ?max_due; repeat job_step.

Ltac chain_unfold :=
  unfold call, then_, catch, handle, adopt, new_object, assign, read,
    fetchFromDatabase, fetchUserPosts, fetchPostComments, delayedSource, new_Promise,
    setTimeout, callback, console_log, console_warn, console_error, eval, bind, ret, throw, Return.

Ltac known :=
  repeat match goal with
         | H : ?x = inl _ |- context [match ?x with inl _ => _ | inr _ => _ end] => rewrite H
         | H : ?x = inr _ |- context [match ?x with inl _ => _ | inr _ => _ end] => rewrite H
         end.

Ltac known_truth :=
  repeat match goal with
         | H : truthy ?x = _ |- context [truthy ?x] => rewrite H; cbn [negb]
         | H : gt_zero ?c ?x = _ |- context [gt_zero ?c ?x] => rewrite H
         end.

Ltac literals :=
  repeat match goal with
         | |- context [get_prop (VArr []) "length"] =>
             change (get_prop (VArr []) "length") with (@inl Val Val (VNum 0))
         | |- context [gt_zero ?c (VNum 0)] => change (gt_zero c (VNum 0)) with false
         end.

Ltac turns :=
  repeat (known; known_truth; literals;
          cbn [with_field set_field String.eqb Ascii.eqb Bool.eqb];
          first [job_step | turn]).

(** The state a run ends in, and what is asked of it. *)
Ltac at_rest :=
  cbn [run]; unfold quiet, outcome; cbn [now timers jobs promises heap trace];
  rewrite ?lookup_offset, ?lookup_offset0; tidy;
  rewrite ?printed_app, ?timers_set_app, ?errors_app;
  cbn [printed errors omap timers_set List.filter is_timer_set length app
       journey_lines journey_clock journey_end journey_complaint map fold_left fst snd];
  rewrite ?app_nil_r, <- ?app_assoc; cbn [app];
  repeat match goal with
         | |- _ /\ _ => split
         end;
  first [reflexivity | lia].

(** Running a call from a quiet loop to the state it ends in. *)
Lemma quiet_loop_eq t ps h tr :
  mkLoop t [] [] ps h tr = mkLoop t [] [] (ps ++ []) (h ++ []) tr.
Proof. now rewrite !app_nil_r. Qed.

Ltac run_call unfolder :=
  cbv zeta; cbn [promises trace now];
  match goal with
  | |- context [run ?n (call ?f (mkLoop ?t [] [] ?ps ?h ?tr))] =>
      let E := fresh "E" in
      eassert (E : run n (call f (mkLoop t [] [] (ps ++ []) (h ++ []) tr)) = _);
      [ unfolder; turns; cbn [run]; reflexivity
      | rewrite (quiet_loop_eq t ps h tr), E; clear E ]
  end.

(** ** The three styles of [getUserData] *)

Section Styles.
Variables dbDelay postsDelay commentsDelay : Val -> Z.
Variables dbAnswer postsAnswer commentsAnswer : Val -> Val + Val.
Variable userId : Val.

Let stops := fst (journey dbDelay postsDelay commentsDelay
                    dbAnswer postsAnswer commentsAnswer userId).
Let result := snd (journey dbDelay postsDelay commentsDelay
                     dbAnswer postsAnswer commentsAnswer userId).

(** [getUserDataBetter] follows the journey and logs the error it ends
    with. *)
Lemma getUserDataBetter_journey (t : Z) (ps : list PState) (h : list Val) (tr : list Event) :
  exists n,
    let b := run n (call (Promises.getUserDataBetter dbDelay postsDelay commentsDelay
                            dbAnswer postsAnswer commentsAnswer userId)
                      (mkLoop t [] [] (ps ++ []) (h ++ []) tr)) in
    quiet b /\
    outcome (length ps + 4) b = Some (journey_end result) /\
    printed (trace b) = printed tr ++ journey_lines stops ++ journey_complaint result /\
    timers_set (trace b) = (timers_set tr + length stops)%nat /\
    now b = journey_clock t stops.
Proof.
  subst stops result. unfold journey, Promises.getUserDataBetter. chain_unfold.
  destruct (dbAnswer userId) as [user | e] eqn:H1.
  2: { exists 5%nat. cbv zeta. cbn [fst snd]. turns. at_rest. }
  destruct (get_prop user "id") as [id | e] eqn:H2.
  2: { exists 5%nat. cbv zeta. cbn [fst snd]. turns. at_rest. }
  destruct (postsAnswer id) as [posts | e] eqn:H3.
  2: { exists 8%nat. cbv zeta. cbn [fst snd]. turns. at_rest. }
  destruct (get_index posts 0) as [post | e] eqn:H4.
  2: { exists 8%nat. cbv zeta. cbn [fst snd]. turns. at_rest. }
  destruct (get_prop post "id") as [id' | e] eqn:H5.
  2: { exists 8%nat. cbv zeta. cbn [fst snd]. turns. at_rest. }
  destruct (commentsAnswer id') as [comments | e] eqn:H6.
  2: { exists 11%nat. cbv zeta. cbn [fst snd]. turns. at_rest. }
  exists 11%nat. cbv zeta. cbn [fst snd]. turns. at_rest.
Qed.

(** The nested [getUserData] follows the journey and logs nothing. *)
Lemma getUserData_nested_journey (t : Z) (ps : list PState) (h : list Val) (tr : list Event) :
  exists n,
    let b := run n (call (Promises.getUserData dbDelay postsDelay commentsDelay
                            dbAnswer postsAnswer commentsAnswer userId)
                      (mkLoop t [] [] (ps ++ []) (h ++ []) tr)) in
    quiet b /\
    outcome (length ps + 1) b = Some (journey_end result) /\
    printed (trace b) = printed tr ++ journey_lines stops /\
    timers_set (trace b) = (timers_set tr + length stops)%nat /\
    now b = journey_clock t stops.
Proof.
  subst stops result. unfold journey, Promises.getUserData. chain_unfold.
  destruct (dbAnswer userId) as [user | e] eqn:H1.
  2: { exists 2%nat. cbv zeta. cbn [fst snd]. turns. at_rest. }
  destruct (get_prop user "id") as [id | e] eqn:H2.
  2: { exists 2%nat. cbv zeta. cbn [fst snd]. turns. at_rest. }
  destruct (postsAnswer id) as [posts | e] eqn:H3.
  2: { exists 6%nat. cbv zeta. cbn [fst snd]. turns. at_rest. }
  destruct (get_index posts 0) as [post | e] eqn:H4.
  2: { exists 6%nat. cbv zeta. cbn [fst snd]. turns. at_rest. }
  destruct (get_prop post "id") as [id' | e] eqn:H5.
  2: { exists 6%nat. cbv zeta. cbn [fst snd]. turns. at_rest. }
  destruct (commentsAnswer id') as [comments | e] eqn:H6.
  2: { exists 10%nat. cbv zeta. cbn [fst snd]. turns. at_rest. }
  exists 10%nat. cbv zeta. cbn [fst snd]. turns. at_rest.
Qed.

(** The async [getUserData] follows the journey and logs the error it ends
    with. *)
Lemma getUserData_async_journey (t : Z) (ps : list PState) (h : list Val) (tr : list Event) :
  let a := run (2 * length stops)
               (call (AsyncAwait.getUserData dbDelay postsDelay commentsDelay
                        dbAnswer postsAnswer commentsAnswer userId)
                  (mkLoop t [] [] (ps ++ []) (h ++ []) tr)) in
  quiet a /\
  outcome (length ps + 0) a = Some (journey_end result) /\
  printed (trace a) = printed tr ++ journey_lines stops ++ journey_complaint result /\
  timers_set (trace a) = (timers_set tr + length stops)%nat /\
  now a = journey_clock t stops.
Proof.
  subst stops result. unfold journey, AsyncAwait.getUserData, async, try_catch, await,
    await_promise. chain_unfold. cbn [andThen].
  destruct (dbAnswer userId) as [user | e] eqn:H1.
  2: { cbv zeta. cbn [fst snd length Nat.mul Nat.add]. turns. at_rest. }
  destruct (get_prop user "id") as [id | e] eqn:H2.
  2: { cbv zeta. cbn [fst snd length Nat.mul Nat.add]. turns. at_rest. }
  destruct (postsAnswer id) as [posts | e] eqn:H3.
  2: { cbv zeta. cbn [fst snd length Nat.mul Nat.add]. turns. at_rest. }
  destruct (get_index posts 0) as [post | e] eqn:H4.
  2: { cbv zeta. cbn [fst snd length Nat.mul Nat.add]. turns. at_rest. }
  destruct (get_prop post "id") as [id' | e] eqn:H5.
  2: { cbv zeta. cbn [fst snd length Nat.mul Nat.add]. turns. at_rest. }
  destruct (commentsAnswer id') as [comments | e] eqn:H6.
  2: { cbv zeta. cbn [fst snd length Nat.mul Nat.add]. turns. at_rest. }
  cbv zeta. cbn [fst snd length Nat.mul Nat.add]. turns. at_rest.
Qed.
End Styles.

(** [getUserDataBetter] does what the async [getUserData] does.  Whatever
    the three fetches answer, the promise chain and the async function end
    alike: both promises are settled the same way, fulfilled with the same
    object or rejected with the same error, the same lines are printed,
    the error line of the [catch] included, as many timers are set, and
    the same time has passed. *)
Theorem getUserDataBetter_agrees_with_async
    (dbDelay postsDelay commentsDelay : Val -> Z)
    (dbAnswer postsAnswer commentsAnswer : Val -> Val + Val) (userId : Val) (s : Loop) :
  quiet s ->
  exists (n m : nat) (result : Val + Val),
    let b := run n (call (Promises.getUserDataBetter dbDelay postsDelay commentsDelay
                            dbAnswer postsAnswer commentsAnswer userId) s) in
    let a := run m (call (AsyncAwait.getUserData dbDelay postsDelay commentsDelay
                            dbAnswer postsAnswer commentsAnswer userId) s) in
    quiet b /\ quiet a /\
    outcome (length (promises s) + 4) b = Some (journey_end result) /\
    outcome (length (promises s)) a = Some (journey_end result) /\
    printed (trace b) = printed (trace a) /\
    timers_set (trace b) = timers_set (trace a) /\
    now b = now a.
Proof.
  intros [Ht Hj]. destruct s as [t ts js ps h tr]. cbn in Ht, Hj. subst ts js.
  destruct (getUserDataBetter_journey dbDelay postsDelay commentsDelay
              dbAnswer postsAnswer commentsAnswer userId t ps h tr) as [n B].
  pose proof (getUserData_async_journey dbDelay postsDelay commentsDelay
                dbAnswer postsAnswer commentsAnswer userId t ps h tr) as A.
  cbv zeta in A, B. rewrite !app_nil_r, ?Nat.add_0_r in A, B.
  destruct A as (Aq & Ao & Ap & At & An), B as (Bq & Bo & Bp & Bt & Bn).
  rewrite Nat.add_0_r in Ao.
  eexists n, _, _. cbv zeta. cbn [promises].
  split; [exact Bq | ]. split; [exact Aq | ].
  split; [exact Bo | ]. split; [exact Ao | ].
  split; [now rewrite Ap, Bp | ]. split; [now rewrite At, Bt | ].
  now rewrite An, Bn.
Qed.

Lemma getUserDataBetter_agrees_with_async_witness :
  let user := VObj [("name", VStr "Ann")] in
  quiet boot /\
  exists (n m : nat) (result : Val + Val),
    outcome 4%nat
      (run n (call (Promises.getUserDataBetter (fun _ => 5) (fun _ => 5) (fun _ => 5)
                      (fun _ => inl user) (fun _ => inr (VStr "no posts"))
                      (fun _ => inl (VArr [])) (VNum 1)) boot)) =
      Some (journey_end result) /\
    outcome 0%nat
      (run m (call (AsyncAwait.getUserData (fun _ => 5) (fun _ => 5) (fun _ => 5)
                      (fun _ => inl user) (fun _ => inr (VStr "no posts"))
                      (fun _ => inl (VArr [])) (VNum 1)) boot)) =
      Some (journey_end result).
Proof.
  intros user.
  split; [split; reflexivity | ].
  destruct (getUserDataBetter_agrees_with_async (fun _ => 5) (fun _ => 5) (fun _ => 5)
              (fun _ => inl user) (fun _ => inr (VStr "no posts"))
              (fun _ => inl (VArr [])) (VNum 1) boot (conj eq_refl eq_refl))
    as (n & m & result & _ & _ & Hb & Ha & _).
  exists n, m, result. split; [exact Hb | exact Ha].
Defined.

(** The nested promise [getUserData] gives what the async [getUserData]
    gives, and says nothing.  Whatever the three fetches answer, both
    promises are settled the same way, after the same fetches and the same
    time; the lines printed differ by the error line only, which the
    async function logs in its [catch] and the promise chain, having no
    [catch], does not. *)
Theorem promise_getUserData_agrees_with_async_but_logs_nothing
    (dbDelay postsDelay commentsDelay : Val -> Z)
    (dbAnswer postsAnswer commentsAnswer : Val -> Val + Val) (userId : Val) (s : Loop) :
  quiet s ->
  exists (n m : nat) (result : Val + Val),
    let p := run n (call (Promises.getUserData dbDelay postsDelay commentsDelay
                            dbAnswer postsAnswer commentsAnswer userId) s) in
    let a := run m (call (AsyncAwait.getUserData dbDelay postsDelay commentsDelay
                            dbAnswer postsAnswer commentsAnswer userId) s) in
    quiet p /\ quiet a /\
    outcome (length (promises s) + 1) p = Some (journey_end result) /\
    outcome (length (promises s)) a = Some (journey_end result) /\
    printed (trace a) = printed (trace p) ++ journey_complaint result /\
    timers_set (trace p) = timers_set (trace a) /\
    now p = now a.
Proof.
  intros [Ht Hj]. destruct s as [t ts js ps h tr]. cbn in Ht, Hj. subst ts js.
  destruct (getUserData_nested_journey dbDelay postsDelay commentsDelay
              dbAnswer postsAnswer commentsAnswer userId t ps h tr) as [n B].
  pose proof (getUserData_async_journey dbDelay postsDelay commentsDelay
                dbAnswer postsAnswer commentsAnswer userId t ps h tr) as A.
  cbv zeta in A, B. rewrite !app_nil_r, ?Nat.add_0_r in A, B.
  destruct A as (Aq & Ao & Ap & At & An), B as (Bq & Bo & Bp & Bt & Bn).
  rewrite Nat.add_0_r in Ao.
  eexists n, _, _. cbv zeta. cbn [promises].
  split; [exact Bq | ]. split; [exact Aq | ].
  split; [exact Bo | ]. split; [exact Ao | ].
  split; [now rewrite Ap, Bp, app_assoc | ]. split; [now rewrite At, Bt | ].
  now rewrite An, Bn.
Qed.

Lemma promise_getUserData_agrees_with_async_but_logs_nothing_witness :
  let user := VObj [("name", VStr "Ann")] in
  quiet boot /\
  exists (n m : nat) (result : Val + Val),
    outcome 1%nat
      (run n (call (Promises.getUserData (fun _ => 5) (fun _ => 5) (fun _ => 5)
                      (fun _ => inl user) (fun _ => inr (VStr "no posts"))
                      (fun _ => inl (VArr [])) (VNum 1)) boot)) =
      Some (journey_end result) /\
    outcome 0%nat
      (run m (call (AsyncAwait.getUserData (fun _ => 5) (fun _ => 5) (fun _ => 5)
                      (fun _ => inl user) (fun _ => inr (VStr "no posts"))
                      (fun _ => inl (VArr [])) (VNum 1)) boot)) =
      Some (journey_end result).
Proof.
  intros user.
  split; [split; reflexivity | ].
  destruct (promise_getUserData_agrees_with_async_but_logs_nothing
              (fun _ => 5) (fun _ => 5) (fun _ => 5)
              (fun _ => inl user) (fun _ => inr (VStr "no posts"))
              (fun _ => inl (VArr [])) (VNum 1) boot (conj eq_refl eq_refl))
    as (n & m & result & _ & _ & Hb & Ha & _).
  exists n, m, result. split; [exact Hb | exact Ha].
Defined.

(** ** [getUserData], callback style *)

Ltac callback_unfold :=
  unfold Callbacks.getUserData, Callbacks.fetchFromDatabase, Callbacks.fetchUserPosts,
    Callbacks.fetchPostComments, Callbacks.fetchWith, invoke, when;
  chain_unfold.

Ltac landed :=
  cbn [run]; unfold after_fetches, journey_clock;
  cbn [fold_left fetch_events fst snd now timers jobs promises heap trace];
  rewrite <- ?app_assoc; cbn [app]; reflexivity.

Section CallbackLaws.
Variables dbDelay postsDelay commentsDelay : Val -> Z.
Variables dbAnswer postsAnswer commentsAnswer : Val -> Val * Val.
Variable userId : Val.
Variable callback' : Val -> Val -> M unit.
Variable s : Loop.

(** The callback [getUserData] on success: when no fetch reports an error
    and [user.id] and [posts[0].id] can be read, the three fetches are made
    one after the other and then, in the turn of the third timer, the
    callback is called, once, with [null] and the object of the three
    results. *)
Theorem callback_getUserData_hands_over_all_three
    (e1 user id e2 posts post id' e3 comments : Val) :
  quiet s ->
  dbAnswer userId = (e1, user) -> truthy e1 = false ->
  get_prop user "id" = inl id ->
  postsAnswer id = (e2, posts) -> truthy e2 = false ->
  get_index posts 0 = inl post -> get_prop post "id" = inl id' ->
  commentsAnswer id' = (e3, comments) -> truthy e3 = false ->
  run 3 (exec (callback (Callbacks.getUserData dbDelay postsDelay commentsDelay
                           dbAnswer postsAnswer commentsAnswer userId callback')) s) =
  exec (callback (callback' VNull
                    (VObj [("user", user); ("posts", posts); ("comments", comments)])))
       (after_fetches s [(userId, dbDelay userId); (id, postsDelay id);
                         (id', commentsDelay id')]).
Proof.
  intros [Ht Hj] H1 T1 H2 H3 T2 H4 H5 H6 T3.
  destruct s as [t ts js ps h tr]. cbn in Ht, Hj. subst ts js.
  callback_unfold. turns.
  rewrite H1. cbn [fst snd]. rewrite T1. turns.
  rewrite H3. cbn [fst snd]. rewrite T2. turns.
  rewrite H6. cbn [fst snd]. rewrite T3. turns.
  landed.
Qed.

(** The callback [getUserData] reports the first error.  When a fetch
    reports an error (a value that counts as true), the callback is called
    in the turn of that fetch's timer, once, with the error and [null], and
    no later fetch is made. *)
Theorem callback_getUserData_reports_the_first_error :
  quiet s ->
  let run_for n :=
    run n (exec (callback (Callbacks.getUserData dbDelay postsDelay commentsDelay
                             dbAnswer postsAnswer commentsAnswer userId callback')) s) in
  (forall e1 user,
     dbAnswer userId = (e1, user) -> truthy e1 = true ->
     run_for 1%nat =
     exec (callback (callback' e1 VNull)) (after_fetches s [(userId, dbDelay userId)])) /\
  (forall e1 user id e2 posts,
     dbAnswer userId = (e1, user) -> truthy e1 = false ->
     get_prop user "id" = inl id ->
     postsAnswer id = (e2, posts) -> truthy e2 = true ->
     run_for 2%nat =
     exec (callback (callback' e2 VNull))
          (after_fetches s [(userId, dbDelay userId); (id, postsDelay id)])) /\
  (forall e1 user id e2 posts post id' e3 comments,
     dbAnswer userId = (e1, user) -> truthy e1 = false ->
     get_prop user "id" = inl id ->
     postsAnswer id = (e2, posts) -> truthy e2 = false ->
     get_index posts 0 = inl post -> get_prop post "id" = inl id' ->
     commentsAnswer id' = (e3, comments) -> truthy e3 = true ->
     run_for 3%nat =
     exec (callback (callback' e3 VNull))
          (after_fetches s [(userId, dbDelay userId); (id, postsDelay id);
                            (id', commentsDelay id')])).
Proof.
  intros [Ht Hj] run_for. subst run_for. cbv beta.
  destruct s as [t ts js ps h tr]. cbn in Ht, Hj. subst ts js.
  split; [ | split].
  - intros e1 user H1 T1. callback_unfold. turns.
    rewrite H1. cbn [fst snd]. rewrite T1. turns. landed.
  - intros e1 user id e2 posts H1 T1 H2 H3 T2. callback_unfold. turns.
    rewrite H1. cbn [fst snd]. rewrite T1. turns.
    rewrite H3. cbn [fst snd]. rewrite T2. turns. landed.
  - intros e1 user id e2 posts post id' e3 comments H1 T1 H2 H3 T2 H4 H5 H6 T3.
    callback_unfold. turns.
    rewrite H1. cbn [fst snd]. rewrite T1. turns.
    rewrite H3. cbn [fst snd]. rewrite T2. turns.
    rewrite H6. cbn [fst snd]. rewrite T3. turns. landed.
Qed.

(** The callback [getUserData] loses what is thrown.  When reading
    [user.id] or [posts[0].id] throws (the user is [null] or [undefined],
    or there is no first post) the callback is never called, neither with
    an error nor with a result: the loop comes to rest in a state that
    does not depend on the callback. *)
Theorem callback_getUserData_loses_a_thrown_error :
  quiet s ->
  let run_for n :=
    run n (exec (callback (Callbacks.getUserData dbDelay postsDelay commentsDelay
                             dbAnswer postsAnswer commentsAnswer userId callback')) s) in
  (forall e1 user thrown,
     dbAnswer userId = (e1, user) -> truthy e1 = false ->
     get_prop user "id" = inr thrown ->
     run_for 1%nat = after_fetches s [(userId, dbDelay userId)]) /\
  (forall e1 user id e2 posts,
     dbAnswer userId = (e1, user) -> truthy e1 = false ->
     get_prop user "id" = inl id ->
     postsAnswer id = (e2, posts) -> truthy e2 = false ->
     match get_index posts 0 with
     | inl post => exists thrown, get_prop post "id" = inr thrown
     | inr _ => True
     end ->
     run_for 2%nat = after_fetches s [(userId, dbDelay userId); (id, postsDelay id)]).
Proof.
  intros [Ht Hj] run_for. subst run_for. cbv beta.
  destruct s as [t ts js ps h tr]. cbn in Ht, Hj. subst ts js.
  split.
  - intros e1 user thrown H1 T1 H2. callback_unfold. turns.
    rewrite H1. cbn [fst snd]. rewrite T1. turns. landed.
  - intros e1 user id e2 posts H1 T1 H2 H3 T2 H4. callback_unfold. turns.
    rewrite H1. cbn [fst snd]. rewrite T1. turns.
    rewrite H3. cbn [fst snd]. rewrite T2.
    destruct (get_index posts 0) as [post | thrown].
    + destruct H4 as [thrown H4]. turns. landed.
    + turns. landed.
Qed.
End CallbackLaws.

Lemma callback_getUserData_hands_over_all_three_witness :
  let user := VObj [("id", VNum 7)] in
  let post := VObj [("id", VNum 70)] in
  printed (trace (run 3 (exec (callback (Callbacks.getUserData
                           (fun _ => 5) (fun _ => 5) (fun _ => 5)
                           (fun _ => (VNull, user)) (fun _ => (VNull, VArr [post]))
                           (fun _ => (VNull, VArr [VStr "c"])) (VNum 1)
                           (fun error result => console_log [error; result]))) boot))) =
  [(Log, [VStr "data"; VNum 1]); (Log, [VStr "data"; VNum 7]); (Log, [VStr "data"; VNum 70]);
   (Log, [VNull; VObj [("user", user); ("posts", VArr [post]);
                       ("comments", VArr [VStr "c"])]])].
Proof.
  intros user post.
  rewrite (callback_getUserData_hands_over_all_three
             (fun _ => 5) (fun _ => 5) (fun _ => 5)
             (fun _ => (VNull, user)) (fun _ => (VNull, VArr [post]))
             (fun _ => (VNull, VArr [VStr "c"])) (VNum 1)
             (fun error result => console_log [error; result]) boot
             VNull user (VNum 7) VNull (VArr [post]) post (VNum 70) VNull (VArr [VStr "c"])
             (conj eq_refl eq_refl) eq_refl eq_refl eq_refl eq_refl eq_refl eq_refl eq_refl
             eq_refl eq_refl).
  reflexivity.
Defined.

Lemma callback_getUserData_reports_the_first_error_witness :
  let user := VObj [("id", VNum 7)] in
  printed (trace (run 2 (exec (callback (Callbacks.getUserData
                           (fun _ => 5) (fun _ => 5) (fun _ => 5)
                           (fun _ => (VNull, user)) (fun _ => (VStr "no posts", VNull))
                           (fun _ => (VNull, VArr [VStr "c"])) (VNum 1)
                           (fun error result => console_log [error; result]))) boot))) =
  [(Log, [VStr "data"; VNum 1]); (Log, [VStr "data"; VNum 7]);
   (Log, [VStr "no posts"; VNull])].
Proof.
  intros user.
  rewrite (proj1 (proj2 (callback_getUserData_reports_the_first_error
             (fun _ => 5) (fun _ => 5) (fun _ => 5)
             (fun _ => (VNull, user)) (fun _ => (VStr "no posts", VNull))
             (fun _ => (VNull, VArr [VStr "c"])) (VNum 1)
             (fun error result => console_log [error; result]) boot
             (conj eq_refl eq_refl)))
             VNull user (VNum 7) (VStr "no posts") VNull
             eq_refl eq_refl eq_refl eq_refl eq_refl).
  reflexivity.
Defined.

Lemma callback_getUserData_loses_a_thrown_error_witness :
  let user := VObj [("id", VNum 7)] in
  printed (trace (run 2 (exec (callback (Callbacks.getUserData
                           (fun _ => 5) (fun _ => 5) (fun _ => 5)
                           (fun _ => (VNull, user)) (fun _ => (VNull, VArr []))
                           (fun _ => (VNull, VArr [VStr "c"])) (VNum 1)
                           (fun error result => console_log [error; result]))) boot))) =
  [(Log, [VStr "data"; VNum 1]); (Log, [VStr "data"; VNum 7])].
Proof.
  intros user.
  rewrite (proj2 (callback_getUserData_loses_a_thrown_error
             (fun _ => 5) (fun _ => 5) (fun _ => 5)
             (fun _ => (VNull, user)) (fun _ => (VNull, VArr []))
             (fun _ => (VNull, VArr [VStr "c"])) (VNum 1)
             (fun error result => console_log [error; result]) boot
             (conj eq_refl eq_refl))
             VNull user (VNum 7) VNull (VArr [])
             eq_refl eq_refl eq_refl eq_refl eq_refl
             (ex_intro _ (TypeError "Cannot read properties of undefined") eq_refl)).
  reflexivity.
Defined.

(** ** [fetchUserProfile] *)

Ltac profile_unfold :=
  unfold fetchUserProfile, fetch, json, request, when, async, try_catch, await, await_promise;
  chain_unfold; cbn [andThen].

Section ProfileLaws.
Variables fetchDelay jsonDelay : Val -> Z.
Variables fetchAnswer jsonAnswer : Val -> Val + Val.
Variable to_string : Val -> string.
Variable userId : Val.
Variable s : Loop.

Let url := VStr ("/api/users/" ++ to_string userId).

(** An HTTP error ends [fetchUserProfile] before the body is read.  When
    the response's [ok] counts as false, the call is rejected with an
    [Error] that carries the response's status in its message, the error
    is logged once, and [response.json()] is never called: one request is
    all that is made. *)
Theorem fetchUserProfile_rejects_an_http_error (response ok status : Val) :
  quiet s ->
  fetchAnswer url = inl response ->
  get_prop response "ok" = inl ok -> truthy ok = false ->
  get_prop response "status" = inl status ->
  let failure := new_Error ("HTTP error! status: " ++ to_string status) in
  let s' := run 2 (call (fetchUserProfile fetchDelay jsonDelay fetchAnswer jsonAnswer
                           to_string userId) s) in
  quiet s' /\
  outcome (length (promises s)) s' = Some (Rejected failure) /\
  printed (trace s') =
    printed (trace s) ++ [(Error, [VStr "Error fetching user profile:"; failure])] /\
  timers_set (trace s') = (timers_set (trace s) + 1)%nat /\
  now s' = now s + Z.max 0 (fetchDelay url).
Proof.
  intros [Ht Hj] H1 H2 T H3 failure s'. subst failure s' url.
  destruct s as [t ts js ps h tr]. cbn in Ht, Hj. subst ts js.
  run_call profile_unfold. at_rest.
Qed.

(** With a response whose [ok] counts as true [fetchUserProfile] reads the
    body and returns it: two requests, one after the other, the call
    fulfilled with what [response.json()] gives, and nothing printed. *)
Theorem fetchUserProfile_returns_the_body (response ok data : Val) :
  quiet s ->
  fetchAnswer url = inl response ->
  get_prop response "ok" = inl ok -> truthy ok = true ->
  jsonAnswer response = inl data ->
  let s' := run 4 (call (fetchUserProfile fetchDelay jsonDelay fetchAnswer jsonAnswer
                           to_string userId) s) in
  quiet s' /\
  outcome (length (promises s)) s' = Some (Fulfilled data) /\
  printed (trace s') = printed (trace s) /\
  timers_set (trace s') = (timers_set (trace s) + 2)%nat /\
  now s' = now s + Z.max 0 (fetchDelay url) + Z.max 0 (jsonDelay response).
Proof.
  intros [Ht Hj] H1 H2 T H3 s'. subst s' url.
  destruct s as [t ts js ps h tr]. cbn in Ht, Hj. subst ts js.
  run_call profile_unfold. at_rest.
Qed.

(** Whatever fails in [fetchUserProfile] is logged once and passed on: a
    rejected [fetch], a response that is [null] or [undefined], or a
    rejected [response.json()] rejects the call with that same error,
    after one line of [console.error]. *)
Theorem fetchUserProfile_logs_and_rethrows :
  quiet s ->
  let profile := fetchUserProfile fetchDelay jsonDelay fetchAnswer jsonAnswer
                   to_string userId in
  let r := length (promises s) in
  let complaint e := [(Error, [VStr "Error fetching user profile:"; e])] in
  (forall e, fetchAnswer url = inr e ->
     let s' := run 2 (call profile s) in
     quiet s' /\ outcome r s' = Some (Rejected e) /\
     printed (trace s') = printed (trace s) ++ complaint e /\
     timers_set (trace s') = (timers_set (trace s) + 1)%nat) /\
  (forall response e, fetchAnswer url = inl response -> get_prop response "ok" = inr e ->
     let s' := run 2 (call profile s) in
     quiet s' /\ outcome r s' = Some (Rejected e) /\
     printed (trace s') = printed (trace s) ++ complaint e /\
     timers_set (trace s') = (timers_set (trace s) + 1)%nat) /\
  (forall response ok e,
     fetchAnswer url = inl response ->
     get_prop response "ok" = inl ok -> truthy ok = true ->
     jsonAnswer response = inr e ->
     let s' := run 4 (call profile s) in
     quiet s' /\ outcome r s' = Some (Rejected e) /\
     printed (trace s') = printed (trace s) ++ complaint e /\
     timers_set (trace s') = (timers_set (trace s) + 2)%nat).
Proof.
  intros [Ht Hj] profile r complaint. subst profile r complaint url.
  destruct s as [t ts js ps h tr]. cbn in Ht, Hj. subst ts js.
  split; [ | split].
  - intros e H1. run_call profile_unfold. at_rest.
  - intros response e H1 H2. run_call profile_unfold. at_rest.
  - intros response ok e H1 H2 T H3. run_call profile_unfold. at_rest.
Qed.
End ProfileLaws.

Lemma fetchUserProfile_rejects_an_http_error_witness :
  let response := VObj [("ok", VBool false); ("status", VNum 404)] in
  outcome 0%nat
    (run 2 (call (fetchUserProfile (fun _ => 5) (fun _ => 5)
                    (fun _ => inl response) (fun _ => inl (VStr "body"))
                    (fun v => match v with VNum n => pretty n | _ => "" end) (VNum 7)) boot)) =
  Some (Rejected (new_Error "HTTP error! status: 404")).
Proof.
  intros response.
  exact (proj1 (proj2 (fetchUserProfile_rejects_an_http_error
                         (fun _ => 5) (fun _ => 5)
                         (fun _ => inl response) (fun _ => inl (VStr "body"))
                         (fun v => match v with VNum n => pretty n | _ => "" end) (VNum 7) boot response (VBool false) (VNum 404)
                         (conj eq_refl eq_refl) eq_refl eq_refl eq_refl eq_refl))).
Defined.

Lemma fetchUserProfile_returns_the_body_witness :
  let response := VObj [("ok", VBool true); ("status", VNum 200)] in
  outcome 0%nat
    (run 4 (call (fetchUserProfile (fun _ => 5) (fun _ => 5)
                    (fun _ => inl response) (fun _ => inl (VStr "body"))
                    (fun v => match v with VNum n => pretty n | _ => "" end) (VNum 7)) boot)) =
  Some (Fulfilled (VStr "body")).
Proof.
  intros response.
  exact (proj1 (proj2 (fetchUserProfile_returns_the_body
                         (fun _ => 5) (fun _ => 5)
                         (fun _ => inl response) (fun _ => inl (VStr "body"))
                         (fun v => match v with VNum n => pretty n | _ => "" end) (VNum 7) boot response (VBool true) (VStr "body")
                         (conj eq_refl eq_refl) eq_refl eq_refl eq_refl eq_refl))).
Defined.

Lemma fetchUserProfile_logs_and_rethrows_witness :
  printed (trace (run 2 (call (fetchUserProfile (fun _ => 5) (fun _ => 5)
                                 (fun _ => inr (VStr "offline")) (fun _ => inl (VStr "body"))
                                 (fun v => match v with VNum n => pretty n | _ => "" end) (VNum 7)) boot))) =
  [(Error, [VStr "Error fetching user profile:"; VStr "offline"])].
Proof.
  exact (proj1 (proj2 (proj2 (proj1 (fetchUserProfile_logs_and_rethrows
                         (fun _ => 5) (fun _ => 5)
                         (fun _ => inr (VStr "offline")) (fun _ => inl (VStr "body"))
                         (fun v => match v with VNum n => pretty n | _ => "" end) (VNum 7) boot (conj eq_refl eq_refl))
                       (VStr "offline") eq_refl)))).
Defined.

(** ** [robustGetUserData], whatever the later fetches do *)

Ltac robust_unfold :=
  unfold robustGetUserData, async, try_catch, await, await_promise;
  chain_unfold; cbn [andThen].

(** [robustGetUserData] fails with its first fetch and with nothing else.
    Once the first fetch is fulfilled with a user the call is fulfilled,
    whatever the other two fetches answer and whatever can or cannot be
    read from what they answer: the result holds that user, with some
    posts and some comments, and nothing is logged with [console.error]. *)
Theorem robust_fails_only_with_the_first_fetch
    (dbDelay postsDelay commentsDelay : Val -> Z)
    (dbAnswer postsAnswer commentsAnswer : Val -> Val + Val)
    (coerced : Val -> bool) (userId : Val) (s : Loop) (user : Val) :
  quiet s ->
  dbAnswer userId = inl user ->
  exists (n : nat) (posts comments : Val),
    let s' := run n (call (robustGetUserData dbDelay postsDelay commentsDelay
                             dbAnswer postsAnswer commentsAnswer coerced userId) s) in
    quiet s' /\
    outcome (length (promises s)) s' =
      Some (Fulfilled (VObj [("user", user); ("posts", posts); ("comments", comments)])) /\
    errors (trace s') = errors (trace s).
Proof.
  intros [Ht Hj] H1.
  destruct s as [t ts js ps h tr]. cbn in Ht, Hj. subst ts js.
  destruct (get_prop user "id") as [id | e] eqn:H2.
  - destruct (postsAnswer id) as [posts | e] eqn:H3.
    + destruct (get_prop posts "length") as [len | e] eqn:H4.
      * destruct (gt_zero coerced len) eqn:G.
        -- destruct (get_index posts 0) as [post | e] eqn:H5.
           ++ destruct (get_prop post "id") as [id' | e] eqn:H6.
              ** destruct (commentsAnswer id') as [comments | e] eqn:H7.
                 --- exists 6%nat, posts, comments. run_call robust_unfold. at_rest.
                 --- exists 6%nat, posts, (VArr []). run_call robust_unfold. at_rest.
              ** exists 4%nat, posts, (VArr []). run_call robust_unfold. at_rest.
           ++ exists 4%nat, posts, (VArr []). run_call robust_unfold. at_rest.
        -- exists 4%nat, posts, (VArr []). run_call robust_unfold. at_rest.
      * exists 4%nat, posts, (VArr []). run_call robust_unfold. at_rest.
    + exists 4%nat, (VArr []), (VArr []). run_call robust_unfold. at_rest.
  - exists 2%nat, (VArr []), (VArr []). run_call robust_unfold. at_rest.
Qed.

Lemma robust_fails_only_with_the_first_fetch_witness :
  let user := VObj [("id", VNum 7)] in
  quiet boot /\
  exists (n : nat) (posts comments : Val),
    outcome 0%nat
      (run n (call (robustGetUserData (fun _ => 5) (fun _ => 5) (fun _ => 5)
                      (fun _ => inl user) (fun _ => inl VNull)
                      (fun _ => inr (VStr "no comments")) (fun _ => false) (VNum 1)) boot)) =
    Some (Fulfilled (VObj [("user", user); ("posts", posts); ("comments", comments)])).
Proof.
  intros user.
  split; [split; reflexivity | ].
  destruct (robust_fails_only_with_the_first_fetch (fun _ => 5) (fun _ => 5) (fun _ => 5)
              (fun _ => inl user) (fun _ => inl VNull)
              (fun _ => inr (VStr "no comments")) (fun _ => false) (VNum 1) boot user
              (conj eq_refl eq_refl) eq_refl)
    as (n & posts & comments & _ & H & _).
  exists n, posts, comments. exact H.
Defined.

(** ** The same call made twice *)

Lemma queue_after_ext (due due' : nat -> Z) (j : nat) (order : list nat) :
  (forall i k, (due i <=? due k) = (due' i <=? due' k)) ->
  queue_after due j order = queue_after due' j order.
Proof.
  intros H. induction order as [ | i rest IH]; [reflexivity | ].
  cbn [queue_after]. now rewrite H, IH.
Qed.

(** The order the timers fire in depends on how the due times compare, not
    on the clock they were set at. *)
Lemma firing_order_ext (due due' : nat -> Z) (n : nat) :
  (forall i k, (due i <=? due k) = (due' i <=? due' k)) ->
  firing_order due n = firing_order due' n.
Proof.
  intros H. induction n as [ | n IH]; [reflexivity | ].
  cbn [firing_order]. now rewrite IH, (queue_after_ext due due' n _ H).
Qed.

Lemma fan_outcome_any_loop (delay : Val -> Z) (answer : Val -> Val + Val) (ids : list Val)
    (s1 s2 : Loop) :
  fan_order (mkFan delay answer ids s1) = fan_order (mkFan delay answer ids s2) /\
  fan_outcome (mkFan delay answer ids s1) = fan_outcome (mkFan delay answer ids s2).
Proof.
  assert (E : fan_order (mkFan delay answer ids s1) = fan_order (mkFan delay answer ids s2)).
  { unfold fan_order. apply firing_order_ext. intros i k.
    unfold fan_due. cbn [fan_loop fan_delay].
    change (fan_id (mkFan delay answer ids s1)) with (fan_id (mkFan delay answer ids s2)).
    destruct (Z.leb_spec (now s1 + Z.max 0 (delay (fan_id (mkFan delay answer ids s2) i)))
                         (now s1 + Z.max 0 (delay (fan_id (mkFan delay answer ids s2) k))));
      symmetry; [apply Z.leb_le | apply Z.leb_gt]; lia. }
  split; [exact E | ].
  unfold fan_outcome. rewrite E.
  assert (F : forall order,
            first_rejection (mkFan delay answer ids s1) order =
            first_rejection (mkFan delay answer ids s2) order).
  { induction order as [ | i rest IH]; [reflexivity | ].
    cbn [first_rejection]. now rewrite IH. }
  rewrite F. reflexivity.
Qed.

Lemma first_rejection_any_loop (delay : Val -> Z) (answer : Val -> Val + Val)
    (ids : list Val) (s1 s2 : Loop) (order : list nat) :
  first_rejection (mkFan delay answer ids s1) order =
  first_rejection (mkFan delay answer ids s2) order.
Proof.
  induction order as [ | i rest IH]; [reflexivity | ].
  cbn [first_rejection]. now rewrite IH.
Qed.

Ltac robust_case n result lines :=
  exists n, result, lines; intros t ps h tr; run_call robust_unfold; at_rest.

(** What a call of [robustGetUserData] comes to does not depend on the loop
    it is made in: the number of turns it takes, what its promise ends
    with and the lines it prints are the same from every quiet state. *)
Lemma robust_run_any_loop
    (dbDelay postsDelay commentsDelay : Val -> Z)
    (dbAnswer postsAnswer commentsAnswer : Val -> Val + Val)
    (coerced : Val -> bool) (userId : Val) :
  exists (fuel : nat) (result : Val + Val) (lines : list (Level * list Val)),
  forall (t : Z) (ps : list PState) (h : list Val) (tr : list Event),
    let v := run fuel (call (robustGetUserData dbDelay postsDelay commentsDelay
                               dbAnswer postsAnswer commentsAnswer coerced userId)
                         (mkLoop t [] [] ps h tr)) in
    quiet v /\
    outcome (length ps) v = Some (journey_end result) /\
    printed (trace v) = printed tr ++ lines.
Proof.
  pose (fetched_line := fun id : Val => (Log, [VStr "data"; id])).
  pose (no_posts := (Warn, [VStr "Failed to fetch posts, continuing with empty array"])).
  pose (no_comments := (Warn, [VStr "Failed to fetch comments, continuing with empty array"])).
  pose (made := fun user posts comments : Val =>
                  @inl Val Val (VObj [("user", user); ("posts", posts); ("comments", comments)])).
  destruct (dbAnswer userId) as [user | e] eqn:H1.
  2: { robust_case 2%nat (@inr Val Val e)
         [fetched_line userId; (Error, [VStr "Critical error:"; e])]. }
  destruct (get_prop user "id") as [id | e] eqn:H2.
  2: { robust_case 2%nat (made user (VArr []) (VArr [])) [fetched_line userId; no_posts]. }
  destruct (postsAnswer id) as [posts | e] eqn:H3.
  2: { robust_case 4%nat (made user (VArr []) (VArr []))
         [fetched_line userId; fetched_line id; no_posts]. }
  destruct (get_prop posts "length") as [len | e] eqn:H4.
  2: { robust_case 4%nat (made user posts (VArr []))
         [fetched_line userId; fetched_line id; no_comments]. }
  destruct (gt_zero coerced len) eqn:G.
  2: { robust_case 4%nat (made user posts (VArr [])) [fetched_line userId; fetched_line id]. }
  destruct (get_index posts 0) as [post | e] eqn:H5.
  2: { robust_case 4%nat (made user posts (VArr []))
         [fetched_line userId; fetched_line id; no_comments]. }
  destruct (get_prop post "id") as [id' | e] eqn:H6.
  2: { robust_case 4%nat (made user posts (VArr []))
         [fetched_line userId; fetched_line id; no_comments]. }
  destruct (commentsAnswer id') as [comments | e] eqn:H7.
  2: { robust_case 6%nat (made user posts (VArr []))
         [fetched_line userId; fetched_line id; fetched_line id'; no_comments]. }
  robust_case 6%nat (made user posts comments)
    [fetched_line userId; fetched_line id; fetched_line id'].
Qed.

(** C7: a run is deterministic in its arguments, whichever way the fetches
    are composed.  Two calls with the same ids, the same delays and the
    same fetch behaviour, made in any two quiet loop states (another clock,
    other promises and earlier output), come to rest with value-equal
    results; only the time stamps and the numbers of the promises differ.
    For the await chain (the strict sequence) the two promises end alike,
    and so do the fetch promises, in order, and the printed lines.  For
    [getMultipleUsers] (the parallel fetches) the two promises end alike,
    fulfilled with the same values or rejected with the same error, and so
    does the promise of each fetch and what is logged as an error.  For
    [robustGetUserData] (the tolerant chain) the two calls take the same
    number of turns, the two promises end alike and the same lines are
    printed. *)
Theorem C7_runs_deterministic
    (delay : Val -> Z) (answer : Val -> Val + Val) (ids : list Z) (users : list Val)
    (postsDelay commentsDelay : Val -> Z) (postsAnswer commentsAnswer : Val -> Val + Val)
    (coerced : Val -> bool) (userId : Val) (s1 s2 : Loop) :
  quiet s1 ->
  quiet s2 ->
  let r1 := length (promises s1) in
  let r2 := length (promises s2) in
  (let f := getAllDataOf (delayedSource delay answer) ids in
   let fuel := (2 * length (reached answer ids))%nat in
   let s1' := run fuel (call f s1) in
   let s2' := run fuel (call f s2) in
   quiet s1' /\ quiet s2' /\
   (exists result, outcome r1 s1' = Some (journey_end result) /\
                   outcome r2 s2' = Some (journey_end result)) /\
   drop r1 (promises s1') = drop r2 (promises s2') /\
   drop (length (printed (trace s1))) (printed (trace s1')) =
   drop (length (printed (trace s2))) (printed (trace s2'))) /\
  (let f := getMultipleUsers delay answer users in
   let fuel := (2 * length users + 1)%nat in
   let s1' := run fuel (call f s1) in
   let s2' := run fuel (call f s2) in
   quiet s1' /\ quiet s2' /\
   (exists result, outcome r1 s1' = Some (journey_end result) /\
                   outcome r2 s2' = Some (journey_end result)) /\
   (forall i, (i < length users)%nat ->
      outcome (S r1 + i) s1' = outcome (S r2 + i) s2') /\
   drop (length (errors (trace s1))) (errors (trace s1')) =
   drop (length (errors (trace s2))) (errors (trace s2'))) /\
  (let f := robustGetUserData delay postsDelay commentsDelay
              answer postsAnswer commentsAnswer coerced userId in
   exists fuel : nat,
   let s1' := run fuel (call f s1) in
   let s2' := run fuel (call f s2) in
   quiet s1' /\ quiet s2' /\
   (exists result, outcome r1 s1' = Some (journey_end result) /\
                   outcome r2 s2' = Some (journey_end result)) /\
   drop (length (printed (trace s1))) (printed (trace s1')) =
   drop (length (printed (trace s2))) (printed (trace s2'))).
Proof.
  intros Hq1 Hq2 r1 r2. subst r1 r2. split; [ | split].
  - intros f fuel s1' s2'.
    destruct (chain_deterministic delay answer ids s1 s2 Hq1 Hq2) as (_ & Hp & Hl).
    fold f fuel s1' s2' in Hp, Hl.
    assert (E1 : s1' = chain_final delay answer ids s1) by apply getAllDataOf_run, Hq1.
    assert (E2 : s2' = chain_final delay answer ids s2) by apply getAllDataOf_run, Hq2.
    split; [rewrite E1; apply chain_final_quiet | ].
    split; [rewrite E2; apply chain_final_quiet | ].
    split; [ | split; [exact Hp | exact Hl]].
    exists (match first_failure answer ids with Some e => inr e | None => inl VUndefined end).
    rewrite E1, E2, !chain_final_outcome. unfold chain_result.
    destruct (first_failure answer ids); split; reflexivity.
  - intros f fuel s1' s2'.
    pose proof (getMultipleUsers_lands delay answer users s1 Hq1) as [Lq1 Lo1 Ls1 _ _ Le1].
    pose proof (getMultipleUsers_lands delay answer users s2 Hq2) as [Lq2 Lo2 Ls2 _ _ Le2].
    fold f fuel s1' in Lq1, Lo1, Ls1, Le1. fold f fuel s2' in Lq2, Lo2, Ls2, Le2.
    destruct (fan_outcome_any_loop delay answer users s1 s2) as [Eo Ef].
    split; [exact Lq1 | ]. split; [exact Lq2 | ].
    split; [ | split].
    + exists (match first_rejection (mkFan delay answer users s2)
                      (fan_order (mkFan delay answer users s2)) with
              | Some e => inr e
              | None => inl (VArr (fan_values_list (mkFan delay answer users s2)))
              end).
      change (length (promises s1)) with (fan_result (mkFan delay answer users s1)).
      change (length (promises s2)) with (fan_result (mkFan delay answer users s2)).
      rewrite Lo1, Lo2, Ef. unfold fan_outcome.
      destruct (first_rejection (mkFan delay answer users s2)
                  (fan_order (mkFan delay answer users s2))); split; reflexivity.
    + intros i Hi.
      change (S (length (promises s1)) + i)%nat with (fan_slot (mkFan delay answer users s1) i).
      change (S (length (promises s2)) + i)%nat with (fan_slot (mkFan delay answer users s2) i).
      rewrite (Ls1 i Hi), (Ls2 i Hi). unfold fan_settled, fan_id. reflexivity.
    + rewrite Le1, Le2, !drop_app_length, Eo.
      now rewrite (first_rejection_any_loop delay answer users s1 s2).
  - intros f.
    destruct (robust_run_any_loop delay postsDelay commentsDelay
                answer postsAnswer commentsAnswer coerced userId)
      as (fuel & result & lines & H).
    exists fuel. intros s1' s2'.
    destruct Hq1 as [Ht1 Hj1], Hq2 as [Ht2 Hj2].
    destruct s1 as [t1 ts1 js1 ps1 h1 tr1], s2 as [t2 ts2 js2 ps2 h2 tr2].
    cbn in Ht1, Hj1, Ht2, Hj2. subst ts1 js1 ts2 js2.
    destruct (H t1 ps1 h1 tr1) as (Q1 & O1 & P1), (H t2 ps2 h2 tr2) as (Q2 & O2 & P2).
    fold f s1' in Q1, O1, P1. fold f s2' in Q2, O2, P2.
    split; [exact Q1 | ]. split; [exact Q2 | ].
    split; [exists result; split; [exact O1 | exact O2] | ].
    cbn [trace]. rewrite P1, P2, !drop_app_length. reflexivity.
Qed.

Lemma C7_runs_deterministic_witness :
  let again := run 6 (call getAllData boot) in
  let users := getMultipleUsers (fun _ => 3000) (fun _ => inl (VNum 200)) [VNum 1; VNum 2] in
  quiet boot /\ quiet again /\
  outcome 0%nat (run 6 (call getAllData boot)) = outcome 4%nat (run 6 (call getAllData again)) /\
  outcome 0%nat (run 5 (call users boot)) = outcome 4%nat (run 5 (call users again)).
Proof.
  intros again users.
  assert (Hq : quiet again) by (split; reflexivity).
  split; [split; reflexivity | ]. split; [exact Hq | ].
  pose proof (C7_runs_deterministic (fun _ => 3000) (fun _ => inl (VNum 200))
                [1; 2; 3] [VNum 1; VNum 2] (fun _ => 3000) (fun _ => 3000)
                (fun _ => inl (VArr [])) (fun _ => inl (VArr [])) (fun _ => false)
                (VNum 1) boot again (conj eq_refl eq_refl) Hq) as H.
  cbv zeta in H.
  destruct H as ((_ & _ & (res & E1 & E2) & _) & (_ & _ & (res' & F1 & F2) & _) & _).
  split.
  - exact (eq_trans E1 (eq_sym E2)).
  - exact (eq_trans F1 (eq_sym F2)).
Defined.
